(** * DbFacade: a shallow embedding of the IndexedDB storage facade

    The development follows [src/api/worker/search/DbFacade.js]: the
    [DbFacade] class (lazy connection, schema upgrade, [deleteDatabase],
    [createTransaction]) and the [IndexedDbTransaction] wrapper ([getAll],
    [get], [getAsList], [put], [delete], [abort], [wait]).

    Promises are modelled by their settlement, callback-style engine requests
    by the outcome the engine reports for them, and mutable objects by
    explicit state passing.

    - A promise made by [Promise.fromCallback] is a [Settlement]; its
      node-style callback settles it at most once ([nodeback]).
    - The engine is an interface ([Engine]): a request either throws or is
      placed, and a placed request receives the events the engine fires on
      it.  The wrapper is a function of these answers, so statements about
      it hold for every engine; [reference_engine] is an instance with the
      object-store semantics of IndexedDB, used where a statement is about
      what was stored.
    - JavaScript numbers are the integers and [NaN]; values are JSON-like
      (primitives, arrays, plain objects).  Converting one to a string can
      still throw: a plain object may hide [Object.prototype.toString]
      behind a property of its own that cannot be called.
    - Event handlers and promise reactions run to completion one at a time;
      a handler that throws leaves the promise it serves untouched. *)

From stdpp Require Import gmap strings list pretty.
From Stdlib Require Import ZArith Lia.
From Stdlib Require OrderedTypeEx.

Set Warnings "-register-all".

Local Open Scope string_scope.
Local Open Scope Z_scope.
Local Open Scope list_scope.

(** ** JavaScript values *)

Inductive JsValue : Type :=
  | JsUndefined
  | JsNull
  | JsBool (b : bool)
  | JsNumber (n : Z)
  | JsNaN
  | JsString (s : string)
  | JsArray (xs : list JsValue)
  | JsObject (fields : list (string * JsValue)).

(** ToBoolean: the operand test of [||], [&&], [?:] and [if]. *)
Definition truthy (v : JsValue) : bool :=
  match v with
  | JsUndefined | JsNull | JsNaN => false
  | JsBool b => b
  | JsNumber n => negb (n =? 0)
  | JsString s => negb (String.eqb s "")
  | JsArray _ | JsObject _ => true
  end.

(** [a || b] *)
Definition js_or (a b : JsValue) : JsValue := if truthy a then a else b.

(** Property read [o.p] on a plain object; a missing property is
    [undefined]. *)
Fixpoint assoc (p : string) (fields : list (string * JsValue)) : option JsValue :=
  match fields with
  | [] => None
  | (q, v) :: rest => if String.eqb p q then Some v else assoc p rest
  end.

Definition get_prop (o : JsValue) (p : string) : JsValue :=
  match o with
  | JsObject fields => default JsUndefined (assoc p fields)
  | _ => JsUndefined
  end.

(** ** Native engine objects *)

(** A native error object: a DOMException as thrown or reported by the
    storage engine, or an error of the language such as a TypeError. *)
Record DOMException : Type := mkDOMException {
  ex_name : string;
  ex_message : string;
  ex_props : list (string * JsValue)
}.

(** An engine event as handed to an [onerror] handler: its enumerable
    properties and [event.target] with the target's [error]. *)
Record Event : Type := mkEvent {
  ev_props : list (string * JsValue);
  ev_target : option (option DOMException)
}.

Inductive Native : Type :=
  | NatError (e : DOMException)
  | NatEvent (ev : Event).

(** Modelled from the spec: the [DbError] class of
    [common/error/DbError], "a single structured error carrying a message and
    an optional wrapped native cause". *)
Record DbError : Type := mkDbError {
  message : string;
  error : option Native
}.

Definition newDbError (msg : string) (cause : option Native) : DbError :=
  {| message := msg; error := cause |}.

Definition cause_of_error (e : option DOMException) : option Native :=
  NatError <$> e.

(** Everything a promise of this module can be rejected with. *)
Inductive Rejection : Type :=
  | RejDbError (e : DbError)
  | RejNative (n : Native).

Definition is_DbError (r : Rejection) : bool :=
  match r with
  | RejDbError _ => true
  | RejNative _ => false
  end.

(** ** Promises *)

Inductive Settlement (A : Type) : Type :=
  | Pending
  | Fulfilled (v : A)
  | Rejected (r : Rejection).
Arguments Pending {A}.
Arguments Fulfilled {A} v.
Arguments Rejected {A} r.

Definition settled {A} (p : Settlement A) : bool :=
  match p with
  | Pending => false
  | _ => true
  end.

(** The node-style callback that [Promise.fromCallback] hands to its
    argument: [callback(err, value)] rejects when [err] is truthy, fulfils
    otherwise, and does nothing once the promise is settled. *)
Definition nodeback {A} (p : Settlement A) (err : option Rejection) (v : A)
  : Settlement A :=
  match p with
  | Pending =>
      match err with
      | Some e => Rejected e
      | None => Fulfilled v
      end
  | _ => p
  end.

(** [promise.then(f)] for a synchronous, non-throwing [f]. *)
Definition then_ {A B} (p : Settlement A) (f : A -> B) : Settlement B :=
  match p with
  | Pending => Pending
  | Fulfilled v => Fulfilled (f v)
  | Rejected r => Rejected r
  end.

(** ** Substrings *)

Definition contains (sub s : string) : Prop :=
  exists pre post, s = pre +:+ sub +:+ post.

Fixpoint containsb (sub s : string) : bool :=
  String.prefix sub s ||
  match s with
  | EmptyString => false
  | String _ s' => containsb sub s'
  end.

(** A call that returns or throws a native error. *)
Inductive Result (A : Type) : Type :=
  | Returns (a : A)
  | Throws (e : DOMException).
Arguments Returns {A} a.
Arguments Throws {A} e.

(** ** Host string primitives

    [JSON.stringify] and the ToString conversion of [String(v)] and of
    string concatenation are primitives of the host language; the facade
    only splices their results into messages, so they are kept abstract.
    [JSON.stringify] returns for every JSON-like value; ToString throws a
    TypeError when the value cannot be converted to a primitive, which
    does not happen for a value that is a primitive already. *)

Definition primitive (v : JsValue) : bool :=
  match v with
  | JsArray _ | JsObject _ => false
  | _ => true
  end.

Class Host : Type := {
  JSON_stringify : JsValue -> string;
  ToString : JsValue -> Result string;
  ToString_primitive :
    forall v, primitive v = true -> exists text, ToString v = Returns text
}.

Definition nl : string := String (Ascii.ascii_of_nat 10) EmptyString.

(** [Error.prototype.toString] *)
Definition error_toString (e : DOMException) : string :=
  if String.eqb (ex_name e) "" then ex_message e
  else if String.eqb (ex_message e) "" then ex_name e
  else ex_name e +:+ ": " +:+ ex_message e.

(** [String(request.error)], where the error may be [null]. *)
Definition string_of_error (e : option DOMException) : string :=
  match e with
  | Some e => error_toString e
  | None => "null"
  end.

(** The enumerable properties a [for (key in e)] loop visits. *)
Definition enumerable_error (e : option DOMException) : list (string * JsValue) :=
  match e with
  | Some e => ex_props e
  | None => []
  end.

(** [extractErrorProperties(e)]: copy every enumerable property of [e] into
    a fresh object and serialise it. *)
Definition extractErrorProperties `{Host} (enumerable : list (string * JsValue))
  : string :=
  let requestErrorEntries := JsObject enumerable in
  JSON_stringify requestErrorEntries.

(** ** Store and index names *)

Definition SearchIndexOS : string := "SearchIndex".
Definition SearchIndexMetaDataOS : string := "SearchIndexMeta".
Definition ElementDataOS : string := "ElementData".
Definition MetaDataOS : string := "MetaData".
Definition GroupDataOS : string := "GroupMetaData".
Definition SearchTermSuggestionsOS : string := "SearchTermSuggestions".

Definition osName (objectStoreName : string) : string := objectStoreName.

Definition SearchIndexWordsIndex : string := "SearchIndexWords".
Definition indexName (indexName : string) : string := indexName.

Definition DB_VERSION : Z := 3.

(** ** The engine interface consumed by the facade *)

(** What the engine does with a request after it was placed: it fires
    [onsuccess] (several times for a cursor) or [onerror] on it. *)
Inductive ReqEvent (A : Type) : Type :=
  | ReqSuccess (result : A)
  | ReqError (ev : Event) (request_error : option DOMException).
Arguments ReqSuccess {A} result.
Arguments ReqError {A} ev request_error.

(** Placing a request either throws synchronously or yields a request on
    which the engine later fires events. *)
Inductive RequestOutcome (A : Type) : Type :=
  | Threw (e : DOMException)
  | Placed (evs : list (ReqEvent A)).
Arguments Threw {A} e.
Arguments Placed {A} evs.

(** The calls the wrapper makes on an engine transaction [T].  Each one
    stands for [transaction.objectStore(name)] followed by the request on
    the store (or on one of its indexes). *)
Class Engine (T : Type) : Type := {
  store_get : string -> JsValue -> T -> RequestOutcome JsValue * T;
  index_get : string -> string -> JsValue -> T -> RequestOutcome JsValue * T;
  store_put : string -> JsValue -> option JsValue -> T -> RequestOutcome JsValue * T;
  store_delete : string -> JsValue -> T -> RequestOutcome unit * T;
  store_openCursor :
    string -> T -> RequestOutcome (option (JsValue * JsValue)) * T;
  transaction_abort : T -> Result unit * T
}.

(** Events the engine fires on a transaction. *)
Inductive TxEvent : Type :=
  | TxError (ev : Event) (transaction_error : option DOMException)
  | TxComplete
  | TxAbort.

(** ** IndexedDbTransaction *)

Record IndexedDbTransaction (T : Type) : Type := mkIndexedDbTransaction {
  _transaction : T;
  _promise : Settlement unit;
  aborted : bool
}.
Arguments mkIndexedDbTransaction {T} _ _ _.
Arguments _transaction {T} _.
Arguments _promise {T} _.
Arguments aborted {T} _.

(** [x ? x.message : dflt] *)
Definition message_or (x : option DOMException) (dflt : string) : string :=
  match x with
  | Some e => ex_message e
  | None => dflt
  end.

(** [if (indexName)]: an omitted or empty index name is falsy. *)
Definition index_given (indexName : option string) : option string :=
  match indexName with
  | Some ix => if truthy (JsString ix) then Some ix else None
  | None => None
  end.

Definition reject_with {A} (p : Settlement A) (e : DbError) (dummy : A)
  : Settlement A :=
  nodeback p (Some (RejDbError e)) dummy.

Module IndexedDbTransaction.
Section Wrapper.
Context `{Host} {T : Type} `{Engine T}.

(** The handlers installed by the constructor, run on one engine
    event; [p] is [this._promise]. *)
Definition on_event (e : TxEvent) (p : Settlement unit) : Settlement unit :=
  match e with
  | TxError event transaction_error =>
      let errorEntries := extractErrorProperties (ev_props event) in
      match ev_target event with
      | None => p (* reading [event.target.error] throws in the handler *)
      | Some target_error =>
          reject_with p
            (newDbError
               ("IndexedDbTransaction.transaction.onerror, " +:+ nl +:+
                "event:" +:+ errorEntries +:+ nl +:+
                "transaction.error" +:+ message_or transaction_error "" +:+ nl +:+
                "event.target.error: " +:+ message_or target_error "")
               (cause_of_error transaction_error)) tt
      end
  | TxComplete => nodeback p None tt
  | TxAbort => nodeback p None tt
  end.

Definition constructor (transaction : T) : IndexedDbTransaction T :=
  {| _transaction := transaction; _promise := Pending; aborted := false |}.

(** Delivery of an engine event to the wrapper of the transaction. *)
Definition deliver (e : TxEvent) (t : IndexedDbTransaction T)
  : IndexedDbTransaction T :=
  {| _transaction := _transaction t;
     _promise := on_event e (_promise t);
     aborted := aborted t |}.

Definition deliver_all (es : list TxEvent) (t : IndexedDbTransaction T)
  : IndexedDbTransaction T :=
  fold_left (fun t e => deliver e t) es t.

Definition wait (t : IndexedDbTransaction T) : Settlement unit := _promise t.

Definition with_transaction (t : IndexedDbTransaction T) (tx : T)
  : IndexedDbTransaction T :=
  {| _transaction := tx; _promise := _promise t; aborted := aborted t |}.

(** *** getAll *)

(** The array [keys] of one [getAll] call.  The promise is fulfilled with
    this array itself, not with a copy of it, so what a reader of the
    promise finds is what the array holds when the reader looks. *)
Inductive KeysArray : Type := the_keys.

Definition getAll_onerror (objectStore : string) (event : Event)
    (request_error : option DOMException)
    (p : Settlement KeysArray)
  : Settlement KeysArray :=
  let lhs := "IndexedDbTransaction.getAll().onerror" +:+ nl +:+ "os: " +:+
             objectStore +:+ nl +:+ "event: " +:+
             extractErrorProperties (ev_props event) +:+ nl +:+
             "request.error:" +:+ string_of_error request_error in
  (* [lhs && request.error.message]: [+] binds tighter than [&&] *)
  if truthy (JsString lhs) then
    match request_error with
    | Some e => reject_with p (newDbError (ex_message e) (Some (NatError e))) the_keys
    | None => p (* reading [request.error.message] throws in the handler *)
    end
  else reject_with p (newDbError lhs (cause_of_error request_error)) the_keys.

(** The handlers of the cursor request, run on one engine event: the
    content of [keys] and the promise.  A cursor position is pushed onto
    [keys] whether or not the promise is settled. *)
Definition getAll_step (objectStore : string)
    (st : list (JsValue * JsValue) * Settlement KeysArray)
    (e : ReqEvent (option (JsValue * JsValue)))
  : list (JsValue * JsValue) * Settlement KeysArray :=
  let '(keys, p) := st in
  match e with
  | ReqError event request_error =>
      (keys, getAll_onerror objectStore event request_error p)
  | ReqSuccess (Some cursor) => (keys ++ [cursor], p)
  | ReqSuccess None => (keys, nodeback p None the_keys)
  end.

(** What the caller finds in the promise once the events have been
    handled: a promise fulfilled with [keys] shows the content of
    [keys]. *)
Definition getAll_result (st : list (JsValue * JsValue) * Settlement KeysArray)
  : Settlement (list (JsValue * JsValue)) :=
  then_ (snd st) (fun _ => fst st).

Definition getAll_settle (objectStore : string)
    (o : RequestOutcome (option (JsValue * JsValue)))
  : Settlement (list (JsValue * JsValue)) :=
  match o with
  | Placed evs => getAll_result (fold_left (getAll_step objectStore) evs ([], Pending))
  | Threw e =>
      reject_with Pending
        (newDbError ("IndexedDbTransaction.getAll().catch" +:+ nl +:+ "os: " +:+
                     objectStore +:+ nl +:+ "message: " +:+ ex_message e)
           (Some (NatError e))) []
  end.

Definition getAll (objectStore : string) (t : IndexedDbTransaction T)
  : Settlement (list (JsValue * JsValue)) * IndexedDbTransaction T :=
  let '(o, tx) := store_openCursor objectStore (_transaction t) in
  (getAll_settle objectStore o, with_transaction t tx).

(** *** get and getAsList *)

Definition get_step (objectStore : string) (p : Settlement JsValue)
    (e : ReqEvent JsValue) : Settlement JsValue :=
  match e with
  | ReqError event request_error =>
      reject_with p
        (newDbError ("IndexedDbTransaction.get().onerror" +:+ nl +:+ "os: " +:+
                     objectStore +:+ nl +:+ "event: " +:+
                     extractErrorProperties (ev_props event) +:+ nl +:+
                     "request.error:" +:+ message_or request_error "[none]")
           (cause_of_error request_error)) JsUndefined
  | ReqSuccess result => nodeback p None result
  end.

Definition get_settle (objectStore : string) (o : RequestOutcome JsValue)
  : Settlement JsValue :=
  match o with
  | Placed evs => fold_left (get_step objectStore) evs Pending
  | Threw e =>
      reject_with Pending
        (newDbError ("IndexedDbTransaction.get().catch" +:+ nl +:+ "os: " +:+
                     objectStore +:+ nl +:+ "message: " +:+ ex_message e)
           (Some (NatError e))) JsUndefined
  end.

Definition get (objectStore : string) (key : JsValue)
    (indexName : option string) (t : IndexedDbTransaction T)
  : Settlement JsValue * IndexedDbTransaction T :=
  let '(o, tx) :=
    match index_given indexName with
    | Some ix => index_get objectStore ix key (_transaction t)
    | None => store_get objectStore key (_transaction t)
    end in
  (get_settle objectStore o, with_transaction t tx).

Definition getAsList (objectStore : string) (key : JsValue)
    (indexName : option string) (t : IndexedDbTransaction T)
  : Settlement JsValue * IndexedDbTransaction T :=
  let '(p, t') := get objectStore key indexName t in
  (then_ p (fun result => js_or result (JsArray [])), t').

(** *** put *)

Definition put_step (objectStore : string) (key value : JsValue)
    (p : Settlement JsValue) (e : ReqEvent JsValue) : Settlement JsValue :=
  match e with
  | ReqError event request_error =>
      match ToString key with
      | Returns key_text =>
          reject_with p
            (newDbError ("IndexedDbTransaction.put().onerror" +:+ nl +:+ "os: " +:+
                         objectStore +:+ nl +:+ "event: " +:+
                         extractErrorProperties (ev_props event) +:+ nl +:+
                         "request.error:" +:+ message_or request_error "[none]" +:+ nl +:+
                         "key: " +:+ key_text +:+ nl +:+
                         "value: " +:+ JSON_stringify value)
               (cause_of_error request_error)) JsUndefined
      | Throws _ => p (* [String(key)] throws in the handler *)
      end
  | ReqSuccess result => nodeback p None result
  end.

Definition put_settle (objectStore : string) (key value : JsValue)
    (o : RequestOutcome JsValue) : Settlement JsValue :=
  match o with
  | Placed evs => fold_left (put_step objectStore key value) evs Pending
  | Threw e =>
      (* the message is built inside the [catch] block: when [+ key] or
         [+ value] throws there, the exception leaves the function handed
         to [Promise.fromCallback], which rejects the promise with it *)
      match ToString key with
      | Throws thrown => Rejected (RejNative (NatError thrown))
      | Returns key_text =>
          match ToString value with
          | Throws thrown => Rejected (RejNative (NatError thrown))
          | Returns value_text =>
              reject_with Pending
                (newDbError ("IndexedDbTransaction.put().catch" +:+ nl +:+ "os: " +:+
                             objectStore +:+ nl +:+ "message: " +:+ ex_message e +:+
                             nl +:+ "key: " +:+ key_text +:+ nl +:+
                             "value: " +:+ value_text)
                   (Some (NatError e))) JsUndefined
          end
      end
  end.

Definition put (objectStore : string) (key value : JsValue)
    (t : IndexedDbTransaction T)
  : Settlement JsValue * IndexedDbTransaction T :=
  let '(o, tx) :=
    if truthy key
    then store_put objectStore value (Some key) (_transaction t)
    else store_put objectStore value None (_transaction t) in
  (put_settle objectStore key value o, with_transaction t tx).

(** *** delete *)

Definition delete_step (objectStore : string) (p : Settlement unit)
    (e : ReqEvent unit) : Settlement unit :=
  match e with
  | ReqError event request_error =>
      reject_with p
        (newDbError ("IndexedDbTransaction.delete().onerror" +:+ nl +:+ "os: " +:+
                     objectStore +:+ nl +:+ "event: " +:+
                     extractErrorProperties (ev_props event) +:+ nl +:+
                     "request.error:" +:+ message_or request_error "[none]")
           (cause_of_error request_error)) tt
  | ReqSuccess _ => nodeback p None tt
  end.

Definition delete_settle (objectStore : string) (o : RequestOutcome unit)
  : Settlement unit :=
  match o with
  | Placed evs => fold_left (delete_step objectStore) evs Pending
  | Threw e =>
      reject_with Pending
        (newDbError ("IndexedDbTransaction.delete().catch" +:+ nl +:+ "os: " +:+
                     objectStore +:+ nl +:+ "message: " +:+ ex_message e)
           (Some (NatError e))) tt
  end.

Definition delete (objectStore : string) (key : JsValue)
    (t : IndexedDbTransaction T)
  : Settlement unit * IndexedDbTransaction T :=
  let '(o, tx) := store_delete objectStore key (_transaction t) in
  (delete_settle objectStore o, with_transaction t tx).

(** *** abort *)

Definition abort (t : IndexedDbTransaction T)
  : Result unit * IndexedDbTransaction T :=
  let '(r, tx) := transaction_abort (_transaction t) in
  (r, {| _transaction := tx; _promise := _promise t; aborted := true |}).

End Wrapper.
End IndexedDbTransaction.

(** ** A reference engine

    The part of the IndexedDB object-store semantics the wrapper relies on:
    stores holding records ordered by key, out-of-line and in-line keys, key
    generators, secondary indexes with an optional uniqueness constraint,
    scoped read-only and read-write transactions.  Keys are restricted to
    the numbers and strings of the wrapper's signature. *)

Inductive Key : Type :=
  | KNum (n : Z)
  | KStr (s : string).

#[global] Instance Key_eq_dec : EqDecision Key.
Proof. solve_decision. Defined.

Definition to_key (v : JsValue) : option Key :=
  match v with
  | JsNumber n => Some (KNum n)
  | JsString s => Some (KStr s)
  | _ => None
  end.

Definition of_key (k : Key) : JsValue :=
  match k with
  | KNum n => JsNumber n
  | KStr s => JsString s
  end.

(** Key order: every number sorts before every string. *)
Definition key_compare (a b : Key) : comparison :=
  match a, b with
  | KNum x, KNum y => Z.compare x y
  | KNum _, KStr _ => Lt
  | KStr _, KNum _ => Gt
  | KStr x, KStr y => String.compare x y
  end.

Definition Records : Type := list (Key * JsValue).

Fixpoint records_lookup (k : Key) (rs : Records) : option JsValue :=
  match rs with
  | [] => None
  | (k', v) :: rest =>
      match key_compare k k' with
      | Eq => Some v
      | _ => records_lookup k rest
      end
  end.

Fixpoint records_insert (k : Key) (v : JsValue) (rs : Records) : Records :=
  match rs with
  | [] => [(k, v)]
  | (k', v') :: rest =>
      match key_compare k k' with
      | Eq => (k, v) :: rest
      | Lt => (k, v) :: (k', v') :: rest
      | Gt => (k', v') :: records_insert k v rest
      end
  end.

Fixpoint records_remove (k : Key) (rs : Records) : Records :=
  match rs with
  | [] => []
  | (k', v') :: rest =>
      match key_compare k k' with
      | Eq => records_remove k rest
      | _ => (k', v') :: records_remove k rest
      end
  end.

Record Index : Type := mkIndex {
  ix_keyPath : string;
  ix_unique : bool
}.

Record ObjectStore : Type := mkObjectStore {
  os_keyPath : option string;
  os_autoIncrement : bool;
  os_generator : Z;
  os_records : Records;
  os_indexes : gmap string Index
}.

Definition with_records (os : ObjectStore) (rs : Records) (gen : Z) : ObjectStore :=
  {| os_keyPath := os_keyPath os;
     os_autoIncrement := os_autoIncrement os;
     os_generator := gen;
     os_records := rs;
     os_indexes := os_indexes os |}.

Inductive Mode : Type := ReadOnly | ReadWrite.

Record IDBTransaction : Type := mkIDBTransaction {
  tx_mode : Mode;
  tx_scope : list string;
  tx_stores : gmap string ObjectStore;
  tx_finished : bool
}.

Definition domException (name msg : string) : DOMException :=
  {| ex_name := name; ex_message := msg;
     ex_props := [("name", JsString name); ("message", JsString msg)] |}.

Definition NotFoundError : DOMException :=
  domException "NotFoundError" "The operation failed because the requested database object could not be found.".
Definition InvalidStateError : DOMException :=
  domException "InvalidStateError" "The transaction has finished.".
Definition DataError : DOMException :=
  domException "DataError" "The data provided does not meet requirements.".
Definition ReadOnlyError : DOMException :=
  domException "ReadOnlyError" "The transaction is read-only.".
Definition ConstraintError : DOMException :=
  domException "ConstraintError" "A mutation operation in the transaction failed because a constraint was not satisfied.".
Definition InvalidAccessError : DOMException :=
  domException "InvalidAccessError" "The operation is not supported.".
Definition AbortError : DOMException :=
  domException "AbortError" "The transaction was aborted, so the request cannot be fulfilled.".

(** [transaction.objectStore(name)] *)
Definition objectStore (name : string) (tx : IDBTransaction) : Result ObjectStore :=
  if tx_finished tx then Throws InvalidStateError
  else if bool_decide (name ∈ tx_scope tx) then
    match tx_stores tx !! name with
    | Some os => Returns os
    | None => Throws NotFoundError
    end
  else Throws NotFoundError.

Definition update_store (name : string) (os : ObjectStore) (tx : IDBTransaction)
  : IDBTransaction :=
  {| tx_mode := tx_mode tx;
     tx_scope := tx_scope tx;
     tx_stores := <[name := os]> (tx_stores tx);
     tx_finished := tx_finished tx |}.

Definition finish (tx : IDBTransaction) : IDBTransaction :=
  {| tx_mode := tx_mode tx;
     tx_scope := tx_scope tx;
     tx_stores := tx_stores tx;
     tx_finished := true |}.

(** The key an index with key path [path] files a value under. *)
Definition index_key (path : string) (v : JsValue) : option Key :=
  to_key (get_prop v path).

(** [index.get(key)]: the value of the first record, in key order, filed
    under [k]. *)
Definition index_lookup (path : string) (k : Key) (rs : Records) : option JsValue :=
  snd <$> List.find (fun r => bool_decide (index_key path (snd r) = Some k)) rs.

Definition ref_store_get (name : string) (key : JsValue) (tx : IDBTransaction)
  : RequestOutcome JsValue * IDBTransaction :=
  match objectStore name tx with
  | Throws e => (Threw e, tx)
  | Returns os =>
      match to_key key with
      | None => (Threw DataError, tx)
      | Some k =>
          (Placed [ReqSuccess (default JsUndefined (records_lookup k (os_records os)))], tx)
      end
  end.

Definition ref_index_get (name ix : string) (key : JsValue) (tx : IDBTransaction)
  : RequestOutcome JsValue * IDBTransaction :=
  match objectStore name tx with
  | Throws e => (Threw e, tx)
  | Returns os =>
      match os_indexes os !! ix with
      | None => (Threw NotFoundError, tx)
      | Some index =>
          match to_key key with
          | None => (Threw DataError, tx)
          | Some k =>
              (Placed [ReqSuccess
                         (default JsUndefined
                            (index_lookup (ix_keyPath index) k (os_records os)))], tx)
          end
      end
  end.

(** [value[path] = key], the injection of a generated key. *)
Fixpoint set_prop (p : string) (v : JsValue) (fields : list (string * JsValue))
  : list (string * JsValue) :=
  match fields with
  | [] => [(p, v)]
  | (q, w) :: rest =>
      if String.eqb p q then (q, v) :: rest else (q, w) :: set_prop p v rest
  end.

(** 2^53, the last key a key generator hands out. *)
Definition MAX_GENERATED_KEY : Z := 9007199254740992.

(** The key generator after a record with the explicit key [k] was
    stored: a numeric key at or above the current number moves the
    generator past it, but never further than past 2^53. *)
Definition bump (os : ObjectStore) (k : Key) : Z :=
  match k with
  | KNum n =>
      let value := Z.min n MAX_GENERATED_KEY in
      if os_autoIncrement os && (os_generator os <=? value) then value + 1
      else os_generator os
  | KStr _ => os_generator os
  end.

(** What the engine makes of the key of a [put]. *)
Inductive KeyResolution : Type :=
  | Resolved (k : Key) (stored : JsValue) (gen : Z)
  | InvalidKey
  | GeneratorExhausted.

(** Generating a key: the current number of the generator, unless that
    has passed 2^53. *)
Definition generate_key (os : ObjectStore) (stored : Z -> JsValue) : KeyResolution :=
  if MAX_GENERATED_KEY <? os_generator os then GeneratorExhausted
  else Resolved (KNum (os_generator os)) (stored (os_generator os))
         (os_generator os + 1).

(** The key a [put] stores under, the value it stores and the next state
    of the key generator.  [InvalidKey] is the case in which [put] throws
    a DataError, [GeneratorExhausted] the one in which the request fails
    with a ConstraintError because no key is left to generate. *)
Definition resolve_key (os : ObjectStore) (value : JsValue) (key : option JsValue)
  : KeyResolution :=
  match os_keyPath os, key with
  | Some _, Some _ => InvalidKey
  | None, Some kv =>
      match to_key kv with
      | Some k => Resolved k value (bump os k)
      | None => InvalidKey
      end
  | None, None =>
      if os_autoIncrement os
      then generate_key os (fun _ => value)
      else InvalidKey
  | Some path, None =>
      match value with
      | JsObject fields =>
          match get_prop value path with
          | JsUndefined =>
              if os_autoIncrement os
              then generate_key os
                     (fun generated => JsObject (set_prop path (JsNumber generated) fields))
              else InvalidKey
          | kv =>
              match to_key kv with
              | Some k => Resolved k value (bump os k)
              | None => InvalidKey
              end
          end
      | _ => InvalidKey
      end
  end.

(** Does storing [value] under [k] break a unique index of the store? *)
Definition violates_unique (os : ObjectStore) (k : Key) (value : JsValue) : bool :=
  existsb
    (fun entry : string * Index =>
       let index := snd entry in
       ix_unique index &&
       match index_key (ix_keyPath index) value with
       | Some ik =>
           existsb
             (fun r : Key * JsValue =>
                negb (bool_decide (fst r = k)) &&
                bool_decide (index_key (ix_keyPath index) (snd r) = Some ik))
             (os_records os)
       | None => false
       end)
    (map_to_list (os_indexes os)).

Definition error_event (e : DOMException) : Event :=
  {| ev_props := [("isTrusted", JsBool true); ("type", JsString "error")];
     ev_target := Some (Some e) |}.

(** What the engine fires on a transaction once [abort()] was accepted
    while [inflight] requests were waiting for their result: each of these
    requests fails with an AbortError, and its error event bubbles from
    the request to the transaction, whose own [error] is still [null];
    then [abort] is fired on the transaction. *)
Definition abort_events (inflight : nat) : list TxEvent :=
  repeat (TxError (error_event AbortError) None) inflight ++ [TxAbort].

Definition ref_store_put (name : string) (value : JsValue) (key : option JsValue)
    (tx : IDBTransaction) : RequestOutcome JsValue * IDBTransaction :=
  match objectStore name tx with
  | Throws e => (Threw e, tx)
  | Returns os =>
      match tx_mode tx with
      | ReadOnly => (Threw ReadOnlyError, tx)
      | ReadWrite =>
          match resolve_key os value key with
          | InvalidKey => (Threw DataError, tx)
          | GeneratorExhausted =>
              (Placed [ReqError (error_event ConstraintError) (Some ConstraintError)],
               finish tx)
          | Resolved k stored gen =>
              if violates_unique os k stored
              then (Placed [ReqError (error_event ConstraintError) (Some ConstraintError)],
                    finish tx)
              else (Placed [ReqSuccess (of_key k)],
                    update_store name
                      (with_records os (records_insert k stored (os_records os)) gen) tx)
          end
      end
  end.

Definition ref_store_delete (name : string) (key : JsValue) (tx : IDBTransaction)
  : RequestOutcome unit * IDBTransaction :=
  match objectStore name tx with
  | Throws e => (Threw e, tx)
  | Returns os =>
      match tx_mode tx with
      | ReadOnly => (Threw ReadOnlyError, tx)
      | ReadWrite =>
          match to_key key with
          | None => (Threw DataError, tx)
          | Some k =>
              (Placed [ReqSuccess tt],
               update_store name
                 (with_records os (records_remove k (os_records os)) (os_generator os)) tx)
          end
      end
  end.

Definition ref_store_openCursor (name : string) (tx : IDBTransaction)
  : RequestOutcome (option (JsValue * JsValue)) * IDBTransaction :=
  match objectStore name tx with
  | Throws e => (Threw e, tx)
  | Returns os =>
      (Placed (map (fun r : Key * JsValue => ReqSuccess (Some (of_key (fst r), snd r)))
                 (os_records os) ++ [ReqSuccess None]), tx)
  end.

Definition ref_transaction_abort (tx : IDBTransaction) : Result unit * IDBTransaction :=
  if tx_finished tx then (Throws InvalidStateError, tx)
  else (Returns tt, finish tx).

#[global] Instance reference_engine : Engine IDBTransaction := {|
  store_get := ref_store_get;
  index_get := ref_index_get;
  store_put := ref_store_put;
  store_delete := ref_store_delete;
  store_openCursor := ref_store_openCursor;
  transaction_abort := ref_transaction_abort
|}.

(** ** The database and its schema operations *)

Record IDBDatabase : Type := mkIDBDatabase {
  db_name : string;
  db_stores : gmap string ObjectStore;
  db_closed : bool
}.

Definition with_stores (db : IDBDatabase) (stores : gmap string ObjectStore)
  : IDBDatabase :=
  {| db_name := db_name db; db_stores := stores; db_closed := db_closed db |}.

(** [db.close()] *)
Definition close (db : IDBDatabase) : IDBDatabase :=
  {| db_name := db_name db; db_stores := db_stores db; db_closed := true |}.

Record StoreOptions : Type := mkStoreOptions {
  autoIncrement : bool;
  keyPath : option string
}.

Definition no_options : StoreOptions :=
  {| autoIncrement := false; keyPath := None |}.

Definition new_store (o : StoreOptions) : ObjectStore :=
  {| os_keyPath := keyPath o;
     os_autoIncrement := autoIncrement o;
     os_generator := 1;
     os_records := [];
     os_indexes := ∅ |}.

(** [db.createObjectStore(name, options)] *)
Definition createObjectStore (name : string) (o : StoreOptions) (db : IDBDatabase)
  : Result IDBDatabase :=
  match db_stores db !! name with
  | Some _ => Throws ConstraintError
  | None => Returns (with_stores db (<[name := new_store o]> (db_stores db)))
  end.

(** [db.deleteObjectStore(name)] *)
Definition deleteObjectStore (name : string) (db : IDBDatabase) : Result IDBDatabase :=
  match db_stores db !! name with
  | Some _ => Returns (with_stores db (base.delete name (db_stores db)))
  | None => Throws NotFoundError
  end.

(** [store.createIndex(ix, keyPath, {unique})] on the store called [name] *)
Definition createIndex (name ix path : string) (unique : bool) (db : IDBDatabase)
  : Result IDBDatabase :=
  match db_stores db !! name with
  | None => Throws InvalidStateError
  | Some os =>
      match os_indexes os !! ix with
      | Some _ => Throws ConstraintError
      | None =>
          Returns
            (with_stores db
               (<[name := {| os_keyPath := os_keyPath os;
                             os_autoIncrement := os_autoIncrement os;
                             os_generator := os_generator os;
                             os_records := os_records os;
                             os_indexes :=
                               <[ix := {| ix_keyPath := path; ix_unique := unique |}]>
                                 (os_indexes os) |}]>
                  (db_stores db)))
      end
  end.

(** [db.transaction(storeNames, mode)] *)
Definition transaction (storeNames : list string) (mode : Mode) (db : IDBDatabase)
  : Result IDBTransaction :=
  if db_closed db then Throws InvalidStateError
  else if bool_decide (storeNames = []) then Throws InvalidAccessError
  else if forallb (fun n => bool_decide (is_Some (db_stores db !! n))) storeNames
  then Returns {| tx_mode := mode; tx_scope := storeNames;
                  tx_stores := db_stores db; tx_finished := false |}
  else Throws NotFoundError.

(** ** LazyLoaded *)

(** Modelled from the spec: the [LazyLoaded] class of
    [common/utils/LazyLoaded], "an explicit state holder (uninitialized /
    pending future / resolved value / failed) with a reset operation".
    [getAsync] runs the factory only from the uninitialized state and
    otherwise hands out the cached outcome; [isLoaded] "reports whether a
    resolved value is currently cached (not pending, not reset)". *)
Inductive LazyLoaded (A : Type) : Type :=
  | NotLoaded
  | Loading
  | Loaded (v : A)
  | Failed (r : Rejection).
Arguments NotLoaded {A}.
Arguments Loading {A}.
Arguments Loaded {A} v.
Arguments Failed {A} r.

Module LazyLoaded.

Definition isLoaded {A} (l : LazyLoaded A) : bool :=
  match l with
  | Loaded _ => true
  | _ => false
  end.

(** [None] stands for the programming error of reading an unloaded
    handle. *)
Definition getLoaded {A} (l : LazyLoaded A) : option A :=
  match l with
  | Loaded v => Some v
  | _ => None
  end.

Definition reset {A} (l : LazyLoaded A) : LazyLoaded A := NotLoaded.

Definition cache {A} (p : Settlement A) : LazyLoaded A :=
  match p with
  | Pending => Loading
  | Fulfilled v => Loaded v
  | Rejected r => Failed r
  end.

Definition outcome {A} (l : LazyLoaded A) : Settlement A :=
  match l with
  | NotLoaded | Loading => Pending
  | Loaded v => Fulfilled v
  | Failed r => Rejected r
  end.

(** [getAsync()]: the new state of the handle, the promise handed out
    and whether the factory was run. *)
Definition getAsync {A} (factory : unit -> Settlement A) (l : LazyLoaded A)
  : LazyLoaded A * Settlement A * bool :=
  match l with
  | NotLoaded => let p := factory tt in (cache p, p, true)
  | _ => (l, outcome l, false)
  end.

End LazyLoaded.

(** ** DbFacade *)

Inductive Effect : Type :=
  | CallOnUpgrade
  | CallDeleteObjectStore (os : string)
  | ConsoleLog (text : string) (os : string) (e : DOMException)
  | CallOpen (id : option string) (version : Z)
  | CallClose (name : string)
  | CallDeleteDatabase (name : string)
  | Delay (ms : Z).

(** The facade object: the constructor arguments captured by the connection
    factory and the three fields of the class. *)
Record DbFacade : Type := mkDbFacade {
  supported : bool;
  onupgrade : bool;
  _id : option string;
  _db : LazyLoaded IDBDatabase;
  _activeTransactions : Z
}.

Definition with_db (f : DbFacade) (l : LazyLoaded IDBDatabase) : DbFacade :=
  {| supported := supported f; onupgrade := onupgrade f; _id := _id f;
     _db := l; _activeTransactions := _activeTransactions f |}.

Definition with_id (f : DbFacade) (id : string) : DbFacade :=
  {| supported := supported f; onupgrade := onupgrade f; _id := Some id;
     _db := _db f; _activeTransactions := _activeTransactions f |}.

Definition with_active (f : DbFacade) (n : Z) : DbFacade :=
  {| supported := supported f; onupgrade := onupgrade f; _id := _id f;
     _db := _db f; _activeTransactions := n |}.

(** Events the engine fires on the open request. *)
Inductive OpenEvent : Type :=
  | OpenError (ev : Event) (request_error : option DOMException)
  | OpenUpgradeNeeded (oldVersion : Z)
  | OpenSuccess.

(** [indexedDB.open(id, version)] either throws or yields a request on the
    stored database, on which the engine fires events. *)
Inductive OpenOutcome : Type :=
  | OpenThrew (e : DOMException)
  | OpenPlaced (stored : IDBDatabase) (evs : list OpenEvent).

(** Events the engine fires on the delete request. *)
Inductive DeleteEvent : Type :=
  | DeleteSuccess
  | DeleteError (ev : Event).

(** A small state-and-exception monad for the schema calls made inside the
    [try] block of the upgrade handler. *)
Definition Upgrade (A : Type) : Type := IDBDatabase -> Result A * IDBDatabase.

Definition ret {A} (a : A) : Upgrade A := fun db => (Returns a, db).

Definition bind {A B} (m : Upgrade A) (k : A -> Upgrade B) : Upgrade B :=
  fun db =>
    match m db with
    | (Returns a, db') => k a db'
    | (Throws e, db') => (Throws e, db')
    end.

Definition call (f : IDBDatabase -> Result IDBDatabase) : Upgrade unit :=
  fun db =>
    match f db with
    | Returns db' => (Returns tt, db')
    | Throws e => (Throws e, db)
    end.

Notation "m >>> k" := (bind m (fun _ => k))
  (at level 60, right associativity).

Module DbFacade.

Definition constructor (supported : bool) (onupgrade : bool) : DbFacade :=
  {| supported := supported; onupgrade := onupgrade; _id := None;
     _db := NotLoaded; _activeTransactions := 0 |}.

Definition id_text (f : DbFacade) : string := default "undefined" (_id f).

Fixpoint _deleteObjectStores (oss : list string) (w : IDBDatabase * list Effect)
  : IDBDatabase * list Effect :=
  match oss with
  | [] => w
  | os :: rest =>
      let '(db, log) := w in
      match deleteObjectStore os db with
      | Returns db' =>
          _deleteObjectStores rest (db', log ++ [CallDeleteObjectStore os])
      | Throws e =>
          _deleteObjectStores rest
            (db, log ++ [CallDeleteObjectStore os;
                         ConsoleLog "Error while deleting old os" os e])
      end
  end.

Definition known_stores : list string :=
  [SearchIndexOS; ElementDataOS; MetaDataOS; GroupDataOS;
   SearchTermSuggestionsOS; SearchIndexMetaDataOS].

(** The body of the [try] block of the upgrade handler. *)
Definition create_stores : Upgrade unit :=
  call (createObjectStore SearchIndexOS {| autoIncrement := true; keyPath := None |}) >>>
  call (createObjectStore SearchIndexMetaDataOS
          {| autoIncrement := true; keyPath := Some "id" |}) >>>
  call (createObjectStore ElementDataOS no_options) >>>
  call (createObjectStore MetaDataOS no_options) >>>
  call (createObjectStore GroupDataOS no_options) >>>
  call (createObjectStore SearchTermSuggestionsOS no_options) >>>
  call (createIndex SearchIndexMetaDataOS SearchIndexWordsIndex "word" true).

(** [DBOpenRequest.onupgradeneeded]: the database and log after the
    handler, and the error it passes to the callback, if any. *)
Definition onupgradeneeded (f : DbFacade) (oldVersion : Z)
    (w : IDBDatabase * list Effect)
  : IDBDatabase * list Effect * option DbError :=
  let '(db, log) :=
    if negb (oldVersion =? DB_VERSION) && negb (oldVersion =? 0) then
      let w1 := if onupgrade f then (fst w, snd w ++ [CallOnUpgrade]) else w in
      _deleteObjectStores known_stores w1
    else w in
  match create_stores db with
  | (Returns _, db') => (db', log, None)
  | (Throws e, db') =>
      (db', log,
       Some (newDbError "could not create object store searchindex" (Some (NatError e))))
  end.

(** The state of a running open request: [DBOpenRequest.result], the
    effects so far and the promise of [Promise.fromCallback]. *)
Definition OpenState : Type :=
  IDBDatabase * list Effect * Settlement IDBDatabase.

Definition open_step `{Host} (f : DbFacade) (st : OpenState) (e : OpenEvent)
  : OpenState :=
  let '(db, log, p) := st in
  match e with
  | OpenError event request_error =>
      let requestErrorEntries :=
        extractErrorProperties (enumerable_error request_error) in
      let eventProperties := extractErrorProperties (ev_props event) in
      (db, log,
       reject_with p
         (newDbError
            ("DbFacade.open.onerror: " +:+ id_text f +:+ nl +:+
             "request.error: " +:+ requestErrorEntries +:+ nl +:+
             "event: " +:+ eventProperties +:+ nl +:+
             "event.target.error" +:+
             match ev_target event with
             | Some target_error => string_of_error target_error
             | None => "[none]"
             end)
            (cause_of_error request_error)) db)
  | OpenUpgradeNeeded oldVersion =>
      match onupgradeneeded f oldVersion (db, log) with
      | (db', log', Some err) => (db', log', reject_with p err db')
      | (db', log', None) => (db', log', p)
      end
  | OpenSuccess => (db, log, nodeback p None db)
  end.

(** The factory handed to [LazyLoaded] by the constructor. *)
Definition load `{Host} (f : DbFacade) (engine : OpenOutcome)
  : list Effect * Settlement IDBDatabase :=
  if negb (supported f) then
    ([], Rejected (RejDbError (newDbError "indexedDB not supported" None)))
  else
    match engine with
    | OpenThrew e =>
        ([CallOpen (_id f) DB_VERSION],
         Rejected (RejDbError
                     (newDbError ("exception when accessing indexeddb " +:+ id_text f)
                        (Some (NatError e)))))
    | OpenPlaced stored evs =>
        let '(_, log, p) :=
          fold_left (open_step f) evs (stored, [CallOpen (_id f) DB_VERSION], Pending) in
        (log, p)
    end.

(** [open(id)]; [engine] is what the engine would answer to an open
    request placed now. *)
Definition open `{Host} (id : string) (engine : OpenOutcome) (f : DbFacade)
  : Settlement unit * list Effect * DbFacade :=
  let f := with_id f id in
  let '(l, p, ran) :=
    LazyLoaded.getAsync (fun _ => snd (load f engine)) (_db f) in
  (then_ p (fun _ => tt),
   if ran then fst (load f engine) else [],
   with_db f l).

(** The [onclose] handler installed on an open connection. *)
Definition onclose (f : DbFacade) : DbFacade :=
  with_db f (LazyLoaded.reset (_db f)).

(** The handlers installed on the delete request, run on one engine
    event. *)
Definition delete_request_step (st : DbFacade * Settlement unit) (e : DeleteEvent)
  : DbFacade * Settlement unit :=
  let '(f, p) := st in
  match e with
  | DeleteError event =>
      match LazyLoaded.getLoaded (_db f) with
      | Some db =>
          (f, reject_with p
                (newDbError ("could not delete database " +:+ db_name db)
                   (Some (NatEvent event))) tt)
      | None => (f, p) (* reading the name of an unloaded handle throws *)
      end
  | DeleteSuccess => (with_db f (LazyLoaded.reset (_db f)), nodeback p None tt)
  end.

(** [deleteDatabase()].  Each element of [during_delay] is what the rest
    of the program does to the facade while one 150ms delay runs; when
    the list is used up the call is still waiting for its timer.
    [engine] is the events the engine fires on the delete request. *)
Fixpoint deleteDatabase (during_delay : list (DbFacade -> DbFacade))
    (engine : list DeleteEvent) (f : DbFacade)
  : list Effect * Settlement unit * DbFacade :=
  if LazyLoaded.isLoaded (_db f) then
    if _activeTransactions f >? 0 then
      match during_delay with
      | [] => ([Delay 150], Pending, f)
      | g :: later =>
          let '(log, p, f') := deleteDatabase later engine (g f) in
          (Delay 150 :: log, p, f')
      end
    else
      match LazyLoaded.getLoaded (_db f) with
      | Some db =>
          let f1 := with_db f (Loaded (close db)) in
          let '(f2, p) := fold_left delete_request_step engine (f1, Pending) in
          ([CallClose (db_name db); CallDeleteDatabase (db_name db)], p, f2)
      | None => ([], Pending, f)
      end
  else ([], Fulfilled tt, f).

(** The facade together with the transaction wrappers it has handed out;
    a wrapper is referred to by its position in [created]. *)
Record System (T : Type) : Type := mkSystem {
  facade : DbFacade;
  created : list (IndexedDbTransaction T)
}.
Arguments mkSystem {T} _ _.
Arguments facade {T} _.
Arguments created {T} _.

Section Transactions.
Context `{Host} {T : Type} `{Engine T}.

(** The callback of [this._db.getAsync().then(...)], given what
    [db.transaction(...)] did. *)
Definition createTransaction_started (started : Result T) (s : System T)
  : Settlement nat * System T :=
  match started with
  | Returns tx =>
      let transaction := IndexedDbTransaction.constructor tx in
      (Fulfilled (length (created s)),
       {| facade := with_active (facade s) (_activeTransactions (facade s) + 1);
          created := created s ++ [transaction] |})
  | Throws e =>
      (Rejected (RejDbError
                   (newDbError "could not create transaction" (Some (NatError e)))),
       s)
  end.

(** An engine event on the transaction behind wrapper [i]: the
    constructor's handlers run, and when that settles [wait()] the
    [finally] hook registered by [createTransaction] runs. *)
Definition on_transaction_event (i : nat) (e : TxEvent) (s : System T)
  : System T :=
  match created s !! i with
  | None => s
  | Some t =>
      let t' := IndexedDbTransaction.deliver e t in
      let hook_runs :=
        negb (settled (IndexedDbTransaction.wait t)) &&
        settled (IndexedDbTransaction.wait t') in
      {| facade :=
           if hook_runs
           then with_active (facade s) (_activeTransactions (facade s) - 1)
           else facade s;
         created := <[i := t']> (created s) |}
  end.

End Transactions.

(** [createTransaction(readOnly, objectStores)]; [connection] is the
    settlement of [this._db.getAsync()]. *)
Definition createTransaction `{Host} (readOnly : bool) (objectStores : list string)
    (connection : Settlement IDBDatabase) (s : System IDBTransaction)
  : Settlement nat * System IDBTransaction :=
  match connection with
  | Fulfilled db =>
      createTransaction_started
        (transaction objectStores (if readOnly then ReadOnly else ReadWrite) db) s
  | Rejected r => (Rejected r, s)
  | Pending => (Pending, s)
  end.

(** What can happen to the facade and its transactions. *)
Inductive SystemEvent (T : Type) : Type :=
  | Create (started : Result T)
  | Fire (i : nat) (e : TxEvent).
Arguments Create {T} started.
Arguments Fire {T} i e.

Definition system_step `{Host} {T : Type} `{Engine T} (s : System T)
    (e : SystemEvent T) : System T :=
  match e with
  | Create started => snd (createTransaction_started started s)
  | Fire i e => on_transaction_event i e s
  end.

Definition run `{Host} {T : Type} `{Engine T} (es : list (SystemEvent T))
    (s : System T) : System T :=
  fold_left system_step es s.

Definition pending_count {T} (s : System T) : Z :=
  Z.of_nat (length (filter (fun t => settled (IndexedDbTransaction.wait t) = false)
                      (created s))).

End DbFacade.

(** ** Vocabulary of the statements *)

(** The facade holds a connection and has transactions running: the state
    in which [deleteDatabase] backs off. *)
Definition busy (f : DbFacade) : bool :=
  LazyLoaded.isLoaded (_db f) && (_activeTransactions f >? 0).

(** The facade after the program ran during each of the delays [ds]. *)
Definition after_delays (ds : list (DbFacade -> DbFacade)) (f : DbFacade) : DbFacade :=
  fold_left (fun f g => g f) ds f.

(** The facade is busy at the start of every one of the delays [ds]. *)
Fixpoint busy_through (ds : list (DbFacade -> DbFacade)) (f : DbFacade) : bool :=
  match ds with
  | [] => true
  | g :: later => busy f && busy_through later (g f)
  end.

(** What a transaction wrapper contributes to the number of unsettled
    transactions. *)
Definition weight {T} (t : IndexedDbTransaction T) : Z :=
  if settled (IndexedDbTransaction.wait t) then 0 else 1.

Definition counted {T} (s : DbFacade.System T) : Prop :=
  _activeTransactions (DbFacade.facade s) = DbFacade.pending_count s.

(** The engine's protocol for the events of one transaction: [complete]
    and [abort] end the transaction, so nothing follows them, and every
    error event has a target. *)
Fixpoint protocol (es : list TxEvent) : bool :=
  match es with
  | [] => true
  | TxError ev _ :: rest => bool_decide (is_Some (ev_target ev)) && protocol rest
  | _ :: rest => bool_decide (rest = [])
  end.

(** What [_deleteObjectStores] leaves in the log for the stores [oss] of a
    database [db]: one call per store, followed by a console line when the
    store did not exist. *)
Definition deletion_log (oss : list string) (db : IDBDatabase) : list Effect :=
  flat_map
    (fun os =>
       CallDeleteObjectStore os ::
       match db_stores db !! os with
       | Some _ => []
       | None => [ConsoleLog "Error while deleting old os" os NotFoundError]
       end)
    oss.

(** The six stores of the current schema, as they are right after their
    creation. *)
Definition current_store (name : string) : option ObjectStore :=
  if bool_decide (name = SearchIndexOS) then
    Some (new_store {| autoIncrement := true; keyPath := None |})
  else if bool_decide (name = SearchIndexMetaDataOS) then
    Some {| os_keyPath := Some "id";
            os_autoIncrement := true;
            os_generator := 1;
            os_records := [];
            os_indexes :=
              {[ SearchIndexWordsIndex := {| ix_keyPath := "word"; ix_unique := true |} ]} |}
  else if bool_decide (name ∈ [ElementDataOS; MetaDataOS; GroupDataOS;
                               SearchTermSuggestionsOS]) then
    Some (new_store no_options)
  else None.

(** The value can be converted to a string. *)
Definition printable `{Host} (v : JsValue) : bool :=
  match ToString v with
  | Returns _ => true
  | Throws _ => false
  end.

(** A promise that, if rejected, is rejected with a [DbError]. *)
Definition only_DbError {A} (p : Settlement A) : bool :=
  match p with
  | Rejected r => is_DbError r
  | _ => true
  end.

(** A database as the upgrade handler leaves a newly created one. *)
Definition fresh_database (name : string) : IDBDatabase :=
  fst (fst (DbFacade.onupgradeneeded (DbFacade.constructor true false) 0
              ({| db_name := name; db_stores := ∅; db_closed := false |}, []))).

(** ** Sample values

    A host, a database and a few facades and transactions on which the
    statements below are run. *)

(** The TypeError of a failed conversion to a primitive; the [name] and
    [message] of an error of the language are not enumerable. *)
Definition TypeError : DOMException :=
  {| ex_name := "TypeError";
     ex_message := "Cannot convert object to primitive value";
     ex_props := [] |}.

(** ToString on JSON-like values.  No value of this kind is callable, so
    a plain object is converted by [Object.prototype.toString] unless a
    property of its own called [toString] hides that method, in which
    case nothing is left to call and the conversion throws.  An array is
    converted by joining its elements, with [undefined] and [null] as
    empty strings.  Integers are printed in decimal notation, as
    JavaScript prints them below 10^21. *)
Fixpoint js_ToString (v : JsValue) : Result string :=
  match v with
  | JsUndefined => Returns "undefined"
  | JsNull => Returns "null"
  | JsBool b => Returns (if b then "true" else "false")
  | JsNumber n => Returns (pretty n)
  | JsNaN => Returns "NaN"
  | JsString s => Returns s
  | JsArray xs =>
      (fix join (xs : list JsValue) : Result string :=
         match xs with
         | [] => Returns ""
         | x :: rest =>
             match
               match x with
               | JsUndefined | JsNull => Returns ""
               | _ => js_ToString x
               end
             with
             | Throws e => Throws e
             | Returns first =>
                 match rest with
                 | [] => Returns first
                 | _ :: _ =>
                     match join rest with
                     | Throws e => Throws e
                     | Returns others => Returns (first +:+ "," +:+ others)
                     end
                 end
             end
         end) xs
  | JsObject fields =>
      match assoc "toString" fields with
      | Some _ => Throws TypeError
      | None => Returns "[object Object]"
      end
  end.

(** A host that converts values as above and serialises strings as they
    are and every other value by a fixed tag. *)
#[local] Instance sample_host : Host.
Proof.
  refine {| JSON_stringify := fun v => match v with JsString s => s | _ => "{}" end;
            ToString := js_ToString |}.
  intros v Hv. destruct v; try discriminate Hv; eexists; reflexivity.
Defined.

(** A value that cannot be converted to a string:
    [{toString: 0, valueOf: 0}]. *)
Definition unprintable : JsValue :=
  JsObject [("toString", JsNumber 0); ("valueOf", JsNumber 0)].

Definition empty_database : IDBDatabase :=
  {| db_name := "db1"; db_stores := ∅; db_closed := false |}.

Definition sample_database : IDBDatabase := fresh_database "db1".

Definition sample_transaction (mode : Mode) : IDBTransaction :=
  {| tx_mode := mode;
     tx_scope := [ElementDataOS; SearchIndexMetaDataOS];
     tx_stores := db_stores sample_database;
     tx_finished := false |}.

Definition loaded_facade (active : Z) : DbFacade :=
  {| supported := true; onupgrade := true; _id := Some "db1";
     _db := Loaded sample_database; _activeTransactions := active |}.

Definition sample_error : DOMException :=
  domException "UnknownError" "Internal error.".

(** ** AutoLauncherLinux

    The three functions of [src/desktop/autolaunch/AutoLauncherLinux.js].
    The file system and the path functions of the platform are an
    interface; a file-system call reports an error code or succeeds. *)

(** A system error of the platform, with its [code] property. *)
Record FsError : Type := mkFsError {
  code : string;
  syscall : string
}.

(** The settlement of a promise that has settled. *)
Inductive Outcome (A : Type) : Type :=
  | Resolves (a : A)
  | RejectsWith (e : FsError).
Arguments Resolves {A} a.
Arguments RejectsWith {A} e.

(** [p.then(f)] and [p.catch(f)] for handlers that return a value;
    [p.catch(f)] for a handler that may throw again. *)
Definition outcome_then {A B} (p : Outcome A) (f : A -> B) : Outcome B :=
  match p with
  | Resolves a => Resolves (f a)
  | RejectsWith e => RejectsWith e
  end.

Definition outcome_catch {A} (p : Outcome A) (f : FsError -> A) : Outcome A :=
  match p with
  | Resolves a => Resolves a
  | RejectsWith e => Resolves (f e)
  end.

Definition outcome_catch_rethrow {A} (p : Outcome A) (f : FsError -> Outcome A)
  : Outcome A :=
  match p with
  | Resolves a => Resolves a
  | RejectsWith e => f e
  end.

(** What the module reads from Electron, the process and [path]. *)
Record Platform : Type := mkPlatform {
  app_home : string;
  app_name : string;
  app_version : string;
  env_APPIMAGE : option string;
  process_execPath : string;
  path_join : string -> string -> string;
  path_dirname : string -> string
}.

(** The calls made on the file system, over its state [S]; each one gives
    the error it fails with, if any, and the state it leaves. *)
Class FileSystem (S : Type) : Type := {
  fs_access : string -> Z -> S -> option FsError;
  fs_ensureDirSync : string -> S -> option FsError * S;
  fs_writeFileSync : string -> string -> S -> option FsError * S;
  fs_unlink : string -> S -> option FsError * S
}.

Definition F_OK : Z := 0.
Definition R_OK : Z := 4.
Definition W_OK : Z := 2.

Module AutoLauncherLinux.

Definition linuxDesktopPath (pf : Platform) : string :=
  path_join pf (app_home pf) (".config/autostart/" +:+ app_name pf +:+ ".desktop").

Definition autoStartPath (pf : Platform) : string :=
  match env_APPIMAGE pf with
  | Some appimage =>
      if truthy (JsString appimage) then appimage else process_execPath pf
  | None => process_execPath pf
  end.

Definition tab : string := String (Ascii.ascii_of_nat 9) EmptyString.

(** The template literal of [enableAutoLaunch]; its continuation lines
    start with the tab they are indented by in the source. *)
Definition desktopEntry (pf : Platform) : string :=
  "[Desktop Entry]" +:+ nl +:+
  tab +:+ "Type=Application" +:+ nl +:+
  tab +:+ "Version=" +:+ app_version pf +:+ nl +:+
  tab +:+ "Name=" +:+ app_name pf +:+ nl +:+
  tab +:+ "Comment=" +:+ app_name pf +:+ " startup script" +:+ nl +:+
  tab +:+ "Exec=" +:+ autoStartPath pf +:+ " -a" +:+ nl +:+
  tab +:+ "StartupNotify=false" +:+ nl +:+
  tab +:+ "Terminal=false".

Section Functions.
Context {S : Type} `{FileSystem S}.

(** [promisify(fs.access)(path, mode)] and [promisify(fs.unlink)(path)] *)
Definition promisified (err : option FsError) : Outcome unit :=
  match err with
  | Some e => RejectsWith e
  | None => Resolves tt
  end.

Definition isAutoLaunchEnabled (pf : Platform) (s : S) : Outcome bool :=
  outcome_catch
    (outcome_then
       (promisified
          (fs_access (linuxDesktopPath pf) (Z.lor (Z.lor F_OK W_OK) R_OK) s))
       (fun _ => true))
    (fun _ => false).

(** The executor of [new Promise(resolve => ...)]: an exception of one of
    the synchronous calls rejects the promise and skips the rest. *)
Definition enableAutoLaunch (pf : Platform) (s : S) : Outcome unit * S :=
  match fs_ensureDirSync (path_dirname pf (linuxDesktopPath pf)) s with
  | (Some e, s1) => (RejectsWith e, s1)
  | (None, s1) =>
      match fs_writeFileSync (linuxDesktopPath pf) (desktopEntry pf) s1 with
      | (Some e, s2) => (RejectsWith e, s2)
      | (None, s2) => (Resolves tt, s2)
      end
  end.

Definition disableAutoLaunch (pf : Platform) (s : S) : Outcome unit * S :=
  let '(err, s1) := fs_unlink (linuxDesktopPath pf) s in
  (outcome_catch_rethrow (promisified err)
     (fun e =>
        (* don't throw if file not found *)
        if negb (String.eqb (code e) "ENOENT") then RejectsWith e else Resolves tt),
   s1).

End Functions.
End AutoLauncherLinux.

(** A reference file system: files with their content and the access the
    process has to them, the directories that exist, and whether the file
    system is mounted read-only. *)
Record File : Type := mkFile {
  content : string;
  readable : bool;
  writable : bool
}.

Record Disk : Type := mkDisk {
  files : gmap string File;
  dirs : gset string;
  read_only : bool
}.

Definition fsError (c call : string) : FsError := {| code := c; syscall := call |}.

(** [fs.access(path, mode)]: [R_OK] is bit 2 of the mode, [W_OK] bit 1. *)
Definition disk_access (path : string) (mode : Z) (d : Disk) : option FsError :=
  match files d !! path with
  | None => Some (fsError "ENOENT" "access")
  | Some file =>
      if Z.testbit mode 2 && negb (readable file) then Some (fsError "EACCES" "access")
      else if Z.testbit mode 1 && negb (writable file) then Some (fsError "EACCES" "access")
      else if Z.testbit mode 1 && read_only d then Some (fsError "EROFS" "access")
      else None
  end.

(** [fs.ensureDirSync(dir)] *)
Definition disk_ensureDirSync (dir : string) (d : Disk) : option FsError * Disk :=
  if bool_decide (dir ∈ dirs d) then (None, d)
  else if read_only d then (Some (fsError "EROFS" "mkdir"), d)
  else (None, {| files := files d; dirs := {[dir]} ∪ dirs d; read_only := read_only d |}).

(** [fs.writeFileSync(path, data)]: a new file is readable and writable,
    an existing one keeps its access. *)
Definition disk_writeFileSync (dirname : string -> string) (path data : string)
    (d : Disk) : option FsError * Disk :=
  if read_only d then (Some (fsError "EROFS" "open"), d)
  else if negb (bool_decide (dirname path ∈ dirs d)) then (Some (fsError "ENOENT" "open"), d)
  else
    match files d !! path with
    | Some file =>
        if writable file
        then (None,
              {| files := <[path := {| content := data; readable := readable file;
                                       writable := true |}]> (files d);
                 dirs := dirs d; read_only := read_only d |})
        else (Some (fsError "EACCES" "open"), d)
    | None =>
        (None,
         {| files := <[path := {| content := data; readable := true; writable := true |}]>
                       (files d);
            dirs := dirs d; read_only := read_only d |})
    end.

(** [fs.unlink(path)] *)
Definition disk_unlink (path : string) (d : Disk) : option FsError * Disk :=
  match files d !! path with
  | None => (Some (fsError "ENOENT" "unlink"), d)
  | Some _ =>
      if read_only d then (Some (fsError "EROFS" "unlink"), d)
      else (None, {| files := base.delete path (files d); dirs := dirs d;
                     read_only := read_only d |})
  end.

Definition disk_fs (dirname : string -> string) : FileSystem Disk := {|
  fs_access := disk_access;
  fs_ensureDirSync := disk_ensureDirSync;
  fs_writeFileSync := disk_writeFileSync dirname;
  fs_unlink := disk_unlink
|}.

(** The directory part of a POSIX path without trailing separator. *)
Fixpoint drop_last_component (reversed : string) : string :=
  match reversed with
  | EmptyString => EmptyString
  | String c rest =>
      if Ascii.eqb c (Ascii.ascii_of_nat 47) then rest else drop_last_component rest
  end.

Definition posix_dirname (path : string) : string :=
  String.rev (drop_last_component (String.rev path)).

(** A platform with POSIX paths whose components need no normalising. *)
Definition sample_platform (appimage : option string) : Platform :=
  {| app_home := "/home/user";
     app_name := "tutanota-desktop";
     app_version := "3.50.1";
     env_APPIMAGE := appimage;
     process_execPath := "/opt/tutanota/tutanota-desktop";
     path_join := fun a b => a +:+ "/" +:+ b;
     path_dirname := posix_dirname |}.

Definition empty_disk : Disk := {| files := ∅; dirs := ∅; read_only := false |}.

(** The events of a cursor request that visits the records [cs] without
    having reached the end. *)
Definition cursor_events (cs : list (JsValue * JsValue))
  : list (ReqEvent (option (JsValue * JsValue))) :=
  map (fun c => ReqSuccess (Some c)) cs.

(** The cursor positions among the events of a cursor request. *)
Fixpoint cursor_positions (evs : list (ReqEvent (option (JsValue * JsValue))))
  : list (JsValue * JsValue) :=
  match evs with
  | [] => []
  | ReqSuccess (Some c) :: rest => c :: cursor_positions rest
  | _ :: rest => cursor_positions rest
  end.

(** Every numeric key of a store with a key generator is below the
    generator's next key. *)
Definition generator_fresh (os : ObjectStore) : bool :=
  negb (os_autoIncrement os) ||
  forallb
    (fun r : Key * JsValue =>
       match fst r with
       | KNum n => n <? os_generator os
       | KStr _ => true
       end)
    (os_records os).

(** The key [k] sorts before the key of the record [r]. *)
Definition below (k : Key) (r : Key * JsValue) : bool :=
  match key_compare k (fst r) with
  | Lt => true
  | _ => false
  end.

(** The records of a store are in strictly increasing key order. *)
Fixpoint records_sorted (rs : Records) : bool :=
  match rs with
  | [] => true
  | (k, _) :: rest => forallb (below k) rest && records_sorted rest
  end.

(** Every store of a transaction keeps its records in key order. *)
Definition tx_sorted (tx : IDBTransaction) : Prop :=
  map_Forall (fun _ os => records_sorted (os_records os) = true) (tx_stores tx).

(** More sample values: the desktop file of the sample platform, a disk
    that holds it, and transactions over chosen stores. *)
Definition sample_path : string :=
  AutoLauncherLinux.linuxDesktopPath (sample_platform None).

Definition disk_with_entry (ro : bool) : Disk :=
  {| files := {[ sample_path := {| content := "old"; readable := true;
                                   writable := true |} ]};
     dirs := {[ "/home/user/.config/autostart" ]};
     read_only := ro |}.

Definition transaction_on (scope : list string) (mode : Mode) : IDBTransaction :=
  {| tx_mode := mode;
     tx_scope := scope;
     tx_stores := db_stores sample_database;
     tx_finished := false |}.

Definition empty_system : DbFacade.System IDBTransaction :=
  {| DbFacade.facade := loaded_facade 0; DbFacade.created := [] |}.

(** * Properties *)

(** ** Settlement of a transaction *)

Section TransactionSettlement.
Context `{Host} {T : Type} `{Engine T}.

Import IndexedDbTransaction.

Lemma on_event_settled (e : TxEvent) (p : Settlement unit) :
  settled p = true -> on_event e p = p.
Proof.
  destruct p; [discriminate | |]; intros _;
    destruct e as [ev err| |]; cbn; try reflexivity;
    destruct (ev_target ev); reflexivity.
Qed.

Lemma on_event_rejected_is_DbError (e : TxEvent) (p : Settlement unit) r :
  on_event e p = Rejected r -> p = Rejected r \/ (p = Pending /\ is_DbError r = true).
Proof.
  destruct e as [ev err| |]; cbn.
  - destruct (ev_target ev); [|auto].
    destruct p; cbn; intros E; inversion E; subst; auto.
  - destruct p; cbn; intros E; inversion E; auto.
  - destruct p; cbn; intros E; inversion E; auto.
Qed.

Lemma on_event_pending_rejected (e : TxEvent) r :
  on_event e Pending = Rejected r -> exists ev err, e = TxError ev err.
Proof. destruct e as [ev err| |]; cbn; [eauto | discriminate | discriminate]. Qed.

Lemma deliver_all_cons (e : TxEvent) (es : list TxEvent)
    (t : IndexedDbTransaction T) :
  deliver_all (e :: es) t = deliver_all es (deliver e t).
Proof. reflexivity. Qed.

Lemma wait_deliver (e : TxEvent) (t : IndexedDbTransaction T) :
  wait (deliver e t) = on_event e (wait t).
Proof. reflexivity. Qed.

Lemma deliver_all_settled (es : list TxEvent) (t : IndexedDbTransaction T) :
  settled (wait t) = true -> wait (deliver_all es t) = wait t.
Proof.
  revert t. induction es as [|e es IH]; intros t Hs; [reflexivity|].
  rewrite deliver_all_cons, IH; rewrite wait_deliver, on_event_settled;
    auto.
Qed.

Lemma deliver_all_rejected (es : list TxEvent) (t : IndexedDbTransaction T) r :
  wait (deliver_all es t) = Rejected r ->
  wait t = Rejected r \/
  (is_DbError r = true /\ exists ev err, In (TxError ev err) es).
Proof.
  revert t. induction es as [|e es IH]; intros t Hr; [left; exact Hr|].
  rewrite deliver_all_cons in Hr.
  apply IH in Hr as [Hr|(Hd & ev & err & Hin)].
  - rewrite wait_deliver in Hr.
    pose proof Hr as Hr'.
    apply on_event_rejected_is_DbError in Hr' as [Hr'|[Hp Hd]]; [left; exact Hr'|].
    right. split; [exact Hd|].
    unfold wait in Hp, Hr. rewrite Hp in Hr.
    apply on_event_pending_rejected in Hr as (ev & err & ->).
    exists ev, err. left. reflexivity.
  - right. split; [exact Hd|]. exists ev, err. right. exact Hin.
Qed.

Lemma deliver_all_fulfilled (es : list TxEvent) (t : IndexedDbTransaction T) :
  wait (deliver_all es t) = Fulfilled tt ->
  wait t = Fulfilled tt \/ In TxComplete es \/ In TxAbort es.
Proof.
  revert t. induction es as [|e es IH]; intros t Hr; [left; exact Hr|].
  rewrite deliver_all_cons in Hr.
  apply IH in Hr as [Hr|[Hin|Hin]].
  - rewrite wait_deliver in Hr. destruct e as [ev err| |].
    + left. cbn in Hr. destruct (ev_target ev); [|exact Hr].
      destruct (wait t); cbn in Hr; congruence.
    + right. left. left. reflexivity.
    + right. right. left. reflexivity.
  - right. left. right. exact Hin.
  - right. right. right. exact Hin.
Qed.

Lemma wait_abort (t : IndexedDbTransaction T) : wait (snd (abort t)) = wait t.
Proof. unfold abort. destruct (transaction_abort _). reflexivity. Qed.

(** C3: [wait()] is settled by the first event the engine fires on the
    transaction and never again; [abort()] itself leaves it as it is.
    When that first event is completion or abort, [wait()] resolves: so
    it does after [abort()] was called with no request in flight.  When
    it is an error event, [wait()] is rejected with a [DbError]: so it is
    after [abort()] was called with a request in flight, whose error
    event reaches the transaction before the abort event.  [wait()] is
    rejected only if the engine reported an error, fulfilled only if the
    engine reported completion or abort; under the engine's protocol, in
    which nothing follows completion or abort, it is rejected whenever an
    error was reported. *)
Theorem wait_settles_once (tx : T) (es : list TxEvent) :
  let fresh := constructor tx in
  wait fresh = Pending
  /\ wait (snd (abort fresh)) = Pending
  /\ wait (deliver_all (TxComplete :: es) fresh) = Fulfilled tt
  /\ wait (deliver_all (TxAbort :: es) fresh) = Fulfilled tt
  /\ wait (deliver_all (abort_events 0 ++ es) (snd (abort fresh))) = Fulfilled tt
  /\ (forall inflight,
        exists e,
          wait (deliver_all (abort_events (S inflight) ++ es) (snd (abort fresh)))
            = Rejected (RejDbError e)
          /\ error e = None)
  /\ (forall ev target_error transaction_error,
        ev_target ev = Some target_error ->
        exists e,
          wait (deliver_all (TxError ev transaction_error :: es) fresh)
            = Rejected (RejDbError e)
          /\ error e = cause_of_error transaction_error)
  /\ (forall r,
        wait (deliver_all es fresh) = Rejected r ->
        is_DbError r = true /\ exists ev err, In (TxError ev err) es)
  /\ (wait (deliver_all es fresh) = Fulfilled tt ->
        In TxComplete es \/ In TxAbort es)
  /\ (forall e,
        settled (wait (deliver_all es fresh)) = true ->
        wait (deliver e (deliver_all es fresh)) = wait (deliver_all es fresh))
  /\ (protocol es = true ->
      forall ev err, In (TxError ev err) es ->
      exists e, wait (deliver_all es fresh) = Rejected (RejDbError e)).
Proof.
  cbn zeta. split; [reflexivity|].
  split; [apply wait_abort|].
  split; [rewrite deliver_all_cons, deliver_all_settled; reflexivity|].
  split; [rewrite deliver_all_cons, deliver_all_settled; reflexivity|].
  split.
  { cbn [abort_events repeat app].
    rewrite deliver_all_cons, deliver_all_settled;
      rewrite wait_deliver, wait_abort; reflexivity. }
  split.
  { intros inflight. cbn [abort_events repeat app].
    rewrite deliver_all_cons, deliver_all_settled;
      rewrite wait_deliver, wait_abort; cbn; [|reflexivity].
    eexists. split; reflexivity. }
  split.
  { intros ev terr txerr Ht. rewrite deliver_all_cons, deliver_all_settled.
    - rewrite wait_deliver. cbn. rewrite Ht. cbn. eexists. split; reflexivity.
    - rewrite wait_deliver. cbn. rewrite Ht. reflexivity. }
  split.
  { intros r Hr. apply deliver_all_rejected in Hr as [Hr|Hr]; [discriminate|exact Hr]. }
  split.
  { intros Hf. apply deliver_all_fulfilled in Hf as [Hf|Hf]; [discriminate|exact Hf]. }
  split.
  { intros e Hs. rewrite wait_deliver. apply on_event_settled. exact Hs. }
  intros Hp ev err Hin. destruct es as [|e0 rest]; [destruct Hin|].
  destruct e0 as [ev0 err0| |]; cbn [protocol] in Hp.
  - apply andb_prop in Hp as [Ht _]. apply bool_decide_eq_true_1 in Ht as [terr Ht].
    rewrite deliver_all_cons, deliver_all_settled.
    + rewrite wait_deliver. cbn. rewrite Ht. cbn. eexists. reflexivity.
    + rewrite wait_deliver. cbn. rewrite Ht. reflexivity.
  - apply bool_decide_eq_true_1 in Hp. subst rest.
    destruct Hin as [Hin|[]]. discriminate.
  - apply bool_decide_eq_true_1 in Hp. subst rest.
    destruct Hin as [Hin|[]]. discriminate.
Qed.

End TransactionSettlement.

(** ** The active-transaction counter *)

Section ActiveTransactions.
Context `{Host} {T : Type} `{Engine T}.

Import IndexedDbTransaction DbFacade.

Lemma pending_count_app (f : DbFacade) (l1 l2 : list (IndexedDbTransaction T)) :
  pending_count {| facade := f; created := l1 ++ l2 |} =
  pending_count {| facade := f; created := l1 |} +
  pending_count {| facade := f; created := l2 |}.
Proof.
  unfold pending_count. cbn [created]. rewrite filter_app, length_app. lia.
Qed.

Lemma pending_count_cons (f : DbFacade) (t : IndexedDbTransaction T)
    (l : list (IndexedDbTransaction T)) :
  pending_count {| facade := f; created := t :: l |} =
  weight t + pending_count {| facade := f; created := l |}.
Proof.
  unfold pending_count, weight. cbn [created]. rewrite filter_cons.
  destruct (decide _) as [E|E].
  - rewrite E. cbn [length]. lia.
  - destruct (settled (wait t)); [lia | congruence].
Qed.

Lemma pending_count_facade (f g : DbFacade) (l : list (IndexedDbTransaction T)) :
  pending_count {| facade := f; created := l |} =
  pending_count {| facade := g; created := l |}.
Proof. reflexivity. Qed.

Lemma pending_count_insert (f : DbFacade) (l : list (IndexedDbTransaction T))
    (i : nat) (t t' : IndexedDbTransaction T) :
  l !! i = Some t ->
  pending_count {| facade := f; created := <[i := t']> l |} =
  pending_count {| facade := f; created := l |} - weight t + weight t'.
Proof.
  intros Hl.
  rewrite insert_take_drop by (eapply lookup_lt_Some; exact Hl).
  rewrite <- (take_drop_middle l i t Hl) at 3.
  rewrite !pending_count_app, !pending_count_cons. lia.
Qed.

Lemma create_started_counter (tx : T) (s : System T) :
  let s' := snd (createTransaction_started (Returns tx) s) in
  _activeTransactions (facade s') = _activeTransactions (facade s) + 1 /\
  pending_count s' = pending_count s + 1.
Proof.
  destruct s as [f l]. cbn. split; [reflexivity|].
  rewrite pending_count_app, pending_count_cons. cbn.
  unfold pending_count. cbn. lia.
Qed.

Lemma fire_counter (i : nat) (e : TxEvent) (s : System T) (t : IndexedDbTransaction T) :
  created s !! i = Some t ->
  let s' := on_transaction_event i e s in
  _activeTransactions (facade s') =
    _activeTransactions (facade s) - (weight t - weight (deliver e t)) /\
  pending_count s' = pending_count s - (weight t - weight (deliver e t)) /\
  0 <= weight t - weight (deliver e t) <= 1.
Proof.
  intros Hl. destruct s as [f l]. cbn in Hl.
  unfold on_transaction_event. cbn [created facade]. rewrite Hl. cbn zeta.
  rewrite (pending_count_insert _ l i t (deliver e t) Hl).
  rewrite (pending_count_facade _ f).
  unfold weight. rewrite wait_deliver.
  destruct (settled (wait t)) eqn:Hs.
  - rewrite on_event_settled by exact Hs. rewrite Hs. cbn. lia.
  - destruct (settled (on_event e (wait t))); cbn; lia.
Qed.

Lemma step_counted (s : System T) (e : SystemEvent T) :
  counted s -> counted (system_step s e).
Proof.
  unfold counted. intros Hc. destruct e as [[tx|err]|i e].
  - cbn [system_step].
    destruct (create_started_counter tx s) as [H1 H2]. cbn zeta in H1, H2. lia.
  - exact Hc.
  - cbn [system_step]. destruct (created s !! i) as [t|] eqn:Hl.
    + destruct (fire_counter i e s t Hl) as (H1 & H2 & _). cbn zeta in H1, H2. lia.
    + unfold on_transaction_event. rewrite Hl. exact Hc.
Qed.

Lemma run_counted (es : list (SystemEvent T)) (s : System T) :
  counted s -> counted (run es s).
Proof.
  revert s. induction es as [|e es IH]; intros s Hc; [exact Hc|].
  apply (IH (system_step s e)). apply step_counted. exact Hc.
Qed.

(** C2: creating a transaction adds exactly one to the counter of active
    transactions and a refused creation leaves the system unchanged;
    the event that settles [wait()], be it completion, abort or error,
    subtracts exactly one, and events on a settled transaction change
    nothing; so after any history the counter is the number of created
    transactions whose [wait()] is still pending. *)
Theorem active_transactions_counted
    (sup onup : bool) (es : list (SystemEvent T)) :
  let s := run es {| facade := constructor sup onup; created := [] |} in
  _activeTransactions (facade s) = pending_count s
  /\ (forall tx,
        let '(p, s') := createTransaction_started (Returns tx) s in
        p = Fulfilled (length (created s)) /\
        created s' !! length (created s) = Some (IndexedDbTransaction.constructor tx) /\
        _activeTransactions (facade s') = _activeTransactions (facade s) + 1)
  /\ (forall err,
        exists e, createTransaction_started (Throws err) s
                  = (Rejected (RejDbError e), s))
  /\ (forall i t e,
        created s !! i = Some t ->
        let s' := on_transaction_event i e s in
        _activeTransactions (facade s') =
        if settled (wait t) then _activeTransactions (facade s)
        else if settled (wait (deliver e t)) then _activeTransactions (facade s) - 1
        else _activeTransactions (facade s))
  /\ (forall i t,
        created s !! i = Some t -> wait t = Pending ->
        settled (wait (deliver TxComplete t)) = true /\
        settled (wait (deliver TxAbort t)) = true /\
        forall ev terr err, ev_target ev = Some terr ->
          settled (wait (deliver (TxError ev err) t)) = true).
Proof.
  cbn zeta. split.
  { apply run_counted. reflexivity. }
  split.
  { intros tx. cbn. split; [reflexivity|]. split; [|reflexivity].
    rewrite lookup_app_r by lia. rewrite Nat.sub_diag. reflexivity. }
  split.
  { intros err. eexists. reflexivity. }
  split.
  { intros i t e Hl.
    destruct (fire_counter i e _ t Hl) as (H1 & _ & _). cbn zeta in H1.
    rewrite H1. unfold weight.
    destruct (settled (wait t)) eqn:Hs.
    - rewrite wait_deliver, on_event_settled by exact Hs. rewrite Hs. lia.
    - destruct (settled (wait (deliver e t))); lia. }
  intros i t Hl Hp. rewrite !wait_deliver, Hp.
  split; [reflexivity|]. split; [reflexivity|].
  intros ev terr err Ht. rewrite wait_deliver, Hp. cbn. rewrite Ht. reflexivity.
Qed.

End ActiveTransactions.

(** ** Deleting the database *)

Section DeleteDatabase.
Context `{Host}.

Import DbFacade.

Lemma deleteDatabase_unloaded ds engine (f : DbFacade) :
  LazyLoaded.isLoaded (_db f) = false ->
  deleteDatabase ds engine f = ([], Fulfilled tt, f).
Proof. intros Hl. destruct ds; cbn; rewrite Hl; reflexivity. Qed.

Lemma deleteDatabase_busy g ds engine (f : DbFacade) :
  busy f = true ->
  deleteDatabase (g :: ds) engine f =
  let '(log, p, f') := deleteDatabase ds engine (g f) in (Delay 150 :: log, p, f').
Proof.
  unfold busy. intros [Hl Ha]%andb_prop. cbn. rewrite Hl, Ha. reflexivity.
Qed.

Lemma deleteDatabase_backoff ds1 ds2 engine (f : DbFacade) :
  busy_through ds1 f = true ->
  deleteDatabase (ds1 ++ ds2) engine f =
  let '(log, p, f') := deleteDatabase ds2 engine (after_delays ds1 f) in
  (repeat (Delay 150) (length ds1) ++ log, p, f').
Proof.
  revert f. induction ds1 as [|g ds1 IH]; intros f Hb.
  - cbn. destruct (deleteDatabase ds2 engine f) as [[log p] f']. reflexivity.
  - cbn in Hb. apply andb_prop in Hb as [Hb Hr].
    change ((g :: ds1) ++ ds2) with (g :: (ds1 ++ ds2)).
    rewrite deleteDatabase_busy by exact Hb. rewrite (IH (g f) Hr).
    change (after_delays (g :: ds1) f) with (after_delays ds1 (g f)).
    destruct (deleteDatabase ds2 engine (after_delays ds1 (g f))) as [[log p] f'].
    reflexivity.
Qed.

Lemma delete_request_done (more : list DeleteEvent) (f : DbFacade)
    (p : Settlement unit) :
  _db f = NotLoaded -> settled p = true ->
  fold_left delete_request_step more (f, p) = (f, p).
Proof.
  intros Hf Hp. induction more as [|e more IH]; [reflexivity|].
  cbn. destruct e as [|ev].
  - replace (with_db f (LazyLoaded.reset (_db f))) with f
      by (destruct f; cbn in *; subst; reflexivity).
    replace (nodeback p None tt) with p by (destruct p; [discriminate| |]; reflexivity).
    exact IH.
  - rewrite Hf. cbn. exact IH.
Qed.

Lemma delete_request_failed (more : list DeleteEvent) (f : DbFacade)
    (p : Settlement unit) :
  settled p = true ->
  snd (fold_left delete_request_step more (f, p)) = p.
Proof.
  intros Hp. revert f. induction more as [|e more IH]; intros f; [reflexivity|].
  cbn. destruct e as [|ev].
  - replace (nodeback p None tt) with p by (destruct p; [discriminate| |]; reflexivity).
    apply IH.
  - destruct (LazyLoaded.getLoaded (_db f)); [|apply IH].
    replace (reject_with p _ tt) with p by (destruct p; [discriminate| |]; reflexivity).
    apply IH.
Qed.

(** C1: [deleteDatabase()] on a facade whose connection is not loaded
    resolves at once and does nothing; while the connection is loaded and
    transactions are active it only waits, 150ms at a time and for as
    long as that lasts; as soon as it finds the connection loaded with no
    active transaction it closes the connection and asks the engine to
    delete the database, resolving and resetting the lazy handle when the
    engine reports success (so that the next [getAsync] runs the
    connection factory again) and rejecting with a [DbError] naming the
    database when the engine reports an error. *)
Theorem deleteDatabase_backs_off_then_deletes
    (ds ds' : list (DbFacade -> DbFacade)) (engine : list DeleteEvent)
    (f : DbFacade) :
  (LazyLoaded.isLoaded (_db f) = false ->
     deleteDatabase ds engine f = ([], Fulfilled tt, f))
  /\ (busy_through ds f = true -> busy (after_delays ds f) = true ->
      deleteDatabase ds engine f =
        (repeat (Delay 150) (length ds + 1), Pending, after_delays ds f))
  /\ (forall db,
        busy_through ds f = true ->
        _db (after_delays ds f) = Loaded db ->
        _activeTransactions (after_delays ds f) = 0 ->
        (forall more, engine = DeleteSuccess :: more ->
           exists f',
             deleteDatabase (ds ++ ds') engine f =
               (repeat (Delay 150) (length ds) ++
                  [CallClose (db_name db); CallDeleteDatabase (db_name db)],
                Fulfilled tt, f')
             /\ _db f' = NotLoaded
             /\ forall factory,
                  LazyLoaded.getAsync factory (_db f') =
                    (LazyLoaded.cache (factory tt), factory tt, true))
        /\ (forall ev more, engine = DeleteError ev :: more ->
              exists f',
                deleteDatabase (ds ++ ds') engine f =
                  (repeat (Delay 150) (length ds) ++
                     [CallClose (db_name db); CallDeleteDatabase (db_name db)],
                   Rejected (RejDbError
                               (newDbError ("could not delete database " +:+ db_name db)
                                  (Some (NatEvent ev)))),
                   f'))
        /\ (engine = [] ->
              deleteDatabase (ds ++ ds') engine f =
                (repeat (Delay 150) (length ds) ++
                   [CallClose (db_name db); CallDeleteDatabase (db_name db)],
                 Pending, with_db (after_delays ds f) (Loaded (close db))))).
Proof.
  split; [apply deleteDatabase_unloaded|]. split.
  - intros Hb Hlast.
    rewrite <- (app_nil_r ds) at 1. rewrite deleteDatabase_backoff by exact Hb.
    unfold busy in Hlast. apply andb_prop in Hlast as [Hl Ha].
    rewrite repeat_app. cbn. rewrite Hl, Ha. reflexivity.
  - intros db Hb Hdb Hact.
    assert (Hrun : forall engine0,
               deleteDatabase (ds ++ ds') engine0 f =
               let '(f2, p) :=
                 fold_left delete_request_step engine0
                   (with_db (after_delays ds f) (Loaded (close db)), Pending) in
               (repeat (Delay 150) (length ds) ++
                  [CallClose (db_name db); CallDeleteDatabase (db_name db)], p, f2)).
    { intros engine0. rewrite deleteDatabase_backoff by exact Hb.
      destruct ds'; cbn; rewrite Hdb, Hact; cbn;
        destruct (fold_left _ _ _) as [f2 p]; reflexivity. }
    split; [|split].
    + intros more ->. rewrite Hrun. cbn.
      rewrite delete_request_done by reflexivity.
      eexists. split; [reflexivity|]. split; reflexivity.
    + intros ev more ->. rewrite Hrun. cbn.
      destruct (fold_left _ _ _) as [f2 p] eqn:Hfold.
      exists f2. f_equal. f_equal.
      change p with (snd (f2, p)). rewrite <- Hfold.
      apply delete_request_failed. reflexivity.
    + intros ->. rewrite Hrun. reflexivity.
Qed.

Lemma open_pending_not_loaded id engine (f : DbFacade) :
  fst (fst (open id engine f)) = Pending ->
  LazyLoaded.isLoaded (_db (snd (open id engine f))) = false.
Proof.
  unfold open. destruct (_db (with_id f id)) eqn:Hdb; cbn.
  - destruct (snd (load (with_id f id) engine)); cbn; [reflexivity|discriminate..].
  - reflexivity.
  - discriminate.
  - discriminate.
Qed.

(** C10: when [open()] has been called and its promise is still pending,
    [deleteDatabase()] resolves at once without any effect: no waiting,
    no [close()], no delete request, and the facade is left as it was. *)
Theorem deleteDatabase_while_opening
    (id : string) (answer : OpenOutcome) (f : DbFacade)
    (ds : list (DbFacade -> DbFacade)) (engine : list DeleteEvent) :
  fst (fst (open id answer f)) = Pending ->
  let opening := snd (open id answer f) in
  deleteDatabase ds engine opening = ([], Fulfilled tt, opening).
Proof.
  intros Hp. cbn zeta. apply deleteDatabase_unloaded.
  apply open_pending_not_loaded. exact Hp.
Qed.

End DeleteDatabase.

(** ** Schema upgrade *)

Section Upgrade.
Context `{Host}.

Import DbFacade.

Lemma bool_decide_elem_cons (name os : string) (oss : list string) :
  bool_decide (name ∈ os :: oss) =
  bool_decide (name = os) || bool_decide (name ∈ oss).
Proof.
  rewrite <- bool_decide_or. apply bool_decide_ext, elem_of_cons.
Qed.

Lemma deletion_log_delete (oss : list string) (os : string) (db : IDBDatabase) :
  os ∉ oss ->
  deletion_log oss (with_stores db (base.delete os (db_stores db))) =
  deletion_log oss db.
Proof.
  intros Hn. unfold deletion_log. induction oss as [|o oss IH]; [reflexivity|].
  apply not_elem_of_cons in Hn as [Hne Hn].
  cbn [flat_map]. rewrite IH by exact Hn.
  cbn [db_stores with_stores]. rewrite lookup_delete_ne by exact Hne.
  reflexivity.
Qed.

Lemma deleteObjectStores_spec (oss : list string) (db : IDBDatabase)
    (log : list Effect) :
  NoDup oss ->
  exists db1,
    _deleteObjectStores oss (db, log) = (db1, log ++ deletion_log oss db)
    /\ db_name db1 = db_name db
    /\ db_closed db1 = db_closed db
    /\ forall name,
         db_stores db1 !! name =
         if bool_decide (name ∈ oss) then None else db_stores db !! name.
Proof.
  revert db log. induction oss as [|os oss IH]; intros db log Hnd.
  - exists db. cbn. rewrite app_nil_r. auto.
  - apply NoDup_cons in Hnd as [Hnotin Hnd].
    cbn [_deleteObjectStores]. unfold deleteObjectStore.
    destruct (db_stores db !! os) as [o|] eqn:Hos.
    + destruct (IH (with_stores db (base.delete os (db_stores db)))
                  (log ++ [CallDeleteObjectStore os]) Hnd)
        as (db1 & Hrun & Hname & Hclosed & Hlook).
      exists db1. rewrite Hrun, deletion_log_delete by exact Hnotin.
      split; [|split; [exact Hname|split; [exact Hclosed|]]].
      * unfold deletion_log. cbn [flat_map]. rewrite Hos, <- app_assoc. reflexivity.
      * intros name. rewrite Hlook, bool_decide_elem_cons.
        cbn [db_stores with_stores].
        destruct (decide (name = os)) as [->|Hne].
        -- rewrite lookup_delete_eq.
           rewrite (bool_decide_eq_true_2 (os = os)) by reflexivity.
           destruct (bool_decide _); reflexivity.
        -- rewrite lookup_delete_ne by congruence.
           rewrite (bool_decide_eq_false_2 (name = os)) by exact Hne.
           reflexivity.
    + destruct (IH db (log ++ [CallDeleteObjectStore os;
                               ConsoleLog "Error while deleting old os" os NotFoundError])
                  Hnd) as (db1 & Hrun & Hname & Hclosed & Hlook).
      exists db1. rewrite Hrun.
      split; [|split; [exact Hname|split; [exact Hclosed|]]].
      * unfold deletion_log. cbn [flat_map]. rewrite Hos, <- app_assoc. reflexivity.
      * intros name. rewrite Hlook, bool_decide_elem_cons.
        destruct (decide (name = os)) as [->|Hne].
        -- rewrite (bool_decide_eq_true_2 (os = os)) by reflexivity.
           rewrite Hos. destruct (bool_decide _); reflexivity.
        -- rewrite (bool_decide_eq_false_2 (name = os)) by exact Hne.
           reflexivity.
Qed.

Lemma known_stores_NoDup : NoDup known_stores.
Proof. apply (bool_decide_unpack _). vm_compute. exact I. Qed.

Lemma current_store_other (name : string) :
  name ∉ known_stores -> current_store name = None.
Proof.
  unfold known_stores. rewrite !not_elem_of_cons.
  intros (N1 & N2 & N3 & N4 & N5 & N6 & _).
  unfold current_store.
  rewrite (bool_decide_eq_false_2 (name = SearchIndexOS)) by exact N1.
  rewrite (bool_decide_eq_false_2 (name = SearchIndexMetaDataOS)) by exact N6.
  rewrite bool_decide_eq_false_2; [reflexivity|].
  rewrite !not_elem_of_cons. repeat split; try assumption. apply not_elem_of_nil.
Qed.

Lemma current_store_known (name : string) :
  name ∈ known_stores -> is_Some (current_store name).
Proof.
  unfold known_stores. rewrite !elem_of_cons.
  intros [->|[->|[->|[->|[->|[->|Hin]]]]]];
    [..|apply elem_of_nil in Hin; destruct Hin]; vm_compute; eauto.
Qed.

Ltac known := unfold known_stores; rewrite !elem_of_cons; auto 10.

Lemma create_stores_fresh (db : IDBDatabase) :
  (forall name, name ∈ known_stores -> db_stores db !! name = None) ->
  exists db2,
    create_stores db = (Returns tt, db2)
    /\ db_name db2 = db_name db
    /\ db_closed db2 = db_closed db
    /\ forall name,
         db_stores db2 !! name =
         match current_store name with
         | Some os => Some os
         | None => db_stores db !! name
         end.
Proof.
  intros Hfresh.
  assert (H1 : db_stores db !! SearchIndexOS = None) by (apply Hfresh; known).
  assert (H2 : db_stores db !! SearchIndexMetaDataOS = None) by (apply Hfresh; known).
  assert (H3 : db_stores db !! ElementDataOS = None) by (apply Hfresh; known).
  assert (H4 : db_stores db !! MetaDataOS = None) by (apply Hfresh; known).
  assert (H5 : db_stores db !! GroupDataOS = None) by (apply Hfresh; known).
  assert (H6 : db_stores db !! SearchTermSuggestionsOS = None) by (apply Hfresh; known).
  unfold create_stores, bind, call, createObjectStore, createIndex.
  rewrite H1. cbn [db_stores with_stores].
  rewrite lookup_insert_ne, H2 by discriminate. cbn [db_stores with_stores].
  rewrite !lookup_insert_ne, H3 by discriminate. cbn [db_stores with_stores].
  rewrite !lookup_insert_ne, H4 by discriminate. cbn [db_stores with_stores].
  rewrite !lookup_insert_ne, H5 by discriminate. cbn [db_stores with_stores].
  rewrite !lookup_insert_ne, H6 by discriminate. cbn [db_stores with_stores].
  rewrite !(lookup_insert_ne _ _ SearchIndexMetaDataOS) by discriminate.
  rewrite lookup_insert_eq. cbn [os_indexes new_store]. rewrite lookup_empty.
  eexists. split; [reflexivity|]. split; [reflexivity|]. split; [reflexivity|].
  intros name. cbn [db_stores with_stores].
  destruct (decide (name ∈ known_stores)) as [Hin|Hout].
  - unfold known_stores in Hin. rewrite !elem_of_cons in Hin.
    destruct Hin as [->|[->|[->|[->|[->|[->|Hin]]]]]];
      [..|apply elem_of_nil in Hin; destruct Hin];
      repeat (rewrite lookup_insert_ne by discriminate);
      rewrite lookup_insert_eq; reflexivity.
  - rewrite current_store_other by exact Hout.
    unfold known_stores in Hout. rewrite !not_elem_of_cons in Hout.
    destruct Hout as (N1 & N2 & N3 & N4 & N5 & N6 & _).
    rewrite !lookup_insert_ne by congruence. reflexivity.
Qed.

Lemma deletion_log_calls (oss : list string) (db : IDBDatabase) :
  (CallOnUpgrade ∉ deletion_log oss db)
  /\ (forall name, name ∈ oss -> CallDeleteObjectStore name ∈ deletion_log oss db).
Proof.
  unfold deletion_log. induction oss as [|os oss [IH1 IH2]].
  - split; [apply not_elem_of_nil|]. intros name Hin. apply elem_of_nil in Hin. destruct Hin.
  - cbn [flat_map]. split.
    + intros [Hin|Hin]%elem_of_app; [|exact (IH1 Hin)].
      apply elem_of_cons in Hin as [Hin|Hin]; [discriminate|].
      destruct (db_stores db !! os).
      * apply elem_of_nil in Hin. destruct Hin.
      * apply elem_of_cons in Hin as [Hin|Hin]; [discriminate|].
        apply elem_of_nil in Hin. destruct Hin.
    + intros name [->|Hin]%elem_of_cons.
      * apply elem_of_app. left. apply elem_of_cons. left. reflexivity.
      * apply elem_of_app. right. apply IH2. exact Hin.
Qed.

Lemma onupgradeneeded_wipe (f : DbFacade) (oldVersion : Z) (db : IDBDatabase)
    (log : list Effect) :
  oldVersion <> DB_VERSION -> oldVersion <> 0 ->
  exists db',
    onupgradeneeded f oldVersion (db, log) =
      (db',
       log ++ (if onupgrade f then [CallOnUpgrade] else []) ++
         deletion_log known_stores db,
       None)
    /\ forall name,
         db_stores db' !! name =
         match current_store name with
         | Some os => Some os
         | None => db_stores db !! name
         end.
Proof.
  intros Hv H0. unfold onupgradeneeded.
  rewrite (proj2 (Z.eqb_neq _ _) Hv), (proj2 (Z.eqb_neq _ _) H0). cbn [negb andb].
  destruct (deleteObjectStores_spec known_stores db
              (log ++ (if onupgrade f then [CallOnUpgrade] else []))
              known_stores_NoDup) as (db1 & Hrun & _ & _ & Hlook).
  replace (if onupgrade f then (fst (db, log), snd (db, log) ++ [CallOnUpgrade])
           else (db, log))
    with (db, log ++ (if onupgrade f then [CallOnUpgrade] else []))
    by (destruct (onupgrade f); cbn; rewrite ?app_nil_r; reflexivity).
  rewrite Hrun.
  destruct (create_stores_fresh db1) as (db2 & Hcreate & _ & _ & Hlook2).
  { intros name Hin. rewrite Hlook, bool_decide_eq_true_2 by exact Hin. reflexivity. }
  rewrite Hcreate. exists db2. rewrite <- app_assoc. split; [reflexivity|].
  intros name. rewrite Hlook2, Hlook.
  destruct (current_store name) eqn:Hc; [reflexivity|].
  rewrite bool_decide_eq_false_2; [reflexivity|].
  intros Hin. apply current_store_known in Hin. rewrite Hc in Hin.
  destruct Hin as [? Hin]. discriminate.
Qed.

Lemma onupgradeneeded_fresh (f : DbFacade) (db : IDBDatabase) (log : list Effect) :
  snd (fst (onupgradeneeded f 0 (db, log))) = log.
Proof.
  unfold onupgradeneeded.
  replace (negb (0 =? DB_VERSION) && negb (0 =? 0)) with false by reflexivity.
  destruct (create_stores db) as [[?|?] ?]; reflexivity.
Qed.

Lemma open_steps_settled (f : DbFacade) (evs : list OpenEvent) (db : IDBDatabase)
    (log : list Effect) (p : Settlement IDBDatabase) :
  settled p = true ->
  snd (fold_left (open_step f) evs (db, log, p)) = p.
Proof.
  intros Hs. revert db log. induction evs as [|e evs IH]; intros db log; [reflexivity|].
  cbn [fold_left]. destruct e as [ev err|old|]; cbn [open_step].
  - replace (reject_with p _ db) with p by (destruct p; [discriminate| |]; reflexivity).
    apply IH.
  - destruct (onupgradeneeded f old (db, log)) as [[db' log'] [err|]]; [|apply IH].
    replace (reject_with p err db') with p by (destruct p; [discriminate| |]; reflexivity).
    apply IH.
  - replace (nodeback p None db) with p by (destruct p; [discriminate| |]; reflexivity).
    apply IH.
Qed.

Lemma deleteObjectStores_log (oss : list string) (db : IDBDatabase)
    (log : list Effect) :
  _deleteObjectStores oss (db, log) =
  (fst (_deleteObjectStores oss (db, [])),
   log ++ snd (_deleteObjectStores oss (db, []))).
Proof.
  revert db log. induction oss as [|os oss IH]; intros db log.
  - cbn. rewrite app_nil_r. reflexivity.
  - cbn [_deleteObjectStores]. destruct (deleteObjectStore os db) as [db'|e].
    + rewrite IH, (IH db' ([] ++ _)). cbn [fst snd]. rewrite <- app_assoc. reflexivity.
    + rewrite IH, (IH db ([] ++ _)). cbn [fst snd]. rewrite <- app_assoc. reflexivity.
Qed.

Lemma onupgradeneeded_log (f : DbFacade) (oldVersion : Z) (db : IDBDatabase)
    (log : list Effect) :
  onupgradeneeded f oldVersion (db, log) =
  let '(db', log', err) := onupgradeneeded f oldVersion (db, []) in
  (db', log ++ log', err).
Proof.
  unfold onupgradeneeded.
  destruct (negb (oldVersion =? DB_VERSION) && negb (oldVersion =? 0)).
  - cbn [fst snd]. destruct (onupgrade f).
    + rewrite deleteObjectStores_log.
      rewrite (deleteObjectStores_log _ _ ([] ++ _)). cbn [app].
      destruct (create_stores _) as [[?|?] ?]; rewrite <- app_assoc; reflexivity.
    + rewrite deleteObjectStores_log.
      destruct (_deleteObjectStores known_stores (db, [])) as [db1 l1]. cbn [fst snd].
      destruct (create_stores _) as [[?|?] ?]; reflexivity.
  - destruct (create_stores _) as [[?|?] ?]; rewrite app_nil_r; reflexivity.
Qed.

Lemma onupgradeneeded_error (f : DbFacade) (oldVersion : Z)
    (w : IDBDatabase * list Effect) db1 log1 err :
  onupgradeneeded f oldVersion w = (db1, log1, Some err) ->
  exists native,
    err = newDbError "could not create object store searchindex"
            (Some (NatError native)).
Proof.
  unfold onupgradeneeded.
  destruct (if negb (oldVersion =? DB_VERSION) && negb (oldVersion =? 0) then _ else _)
    as [db0 log0].
  destruct (create_stores db0) as [[?|native] ?]; intros E; inversion E.
  exists native. reflexivity.
Qed.

(** C4: the upgrade handler.  For a stored version other than the
    expected one and other than 0, the [onupgrade] callback, when one was
    given, is called once and first, then [deleteObjectStore] is called
    for each of the six known stores (a call that fails because the store
    is missing is logged and skipped), and the six stores are created
    anew and empty, the metadata store with its one unique index on
    [word] and no other store with an index.  For version 0 nothing is
    called or deleted, and on a database without these stores the same
    six stores are created.  When creating a store fails, the handler
    reports a [DbError] wrapping the engine's exception and the promise of
    [open] is rejected with it, whatever the engine fires afterwards. *)
Theorem upgrade_wipes_and_recreates
    (f : DbFacade) (oldVersion : Z) (db : IDBDatabase) (log : list Effect) :
  (oldVersion <> DB_VERSION -> oldVersion <> 0 ->
     exists db',
       onupgradeneeded f oldVersion (db, log) =
         (db',
          log ++ (if onupgrade f then [CallOnUpgrade] else []) ++
            deletion_log known_stores db,
          None)
       /\ (CallOnUpgrade ∉ deletion_log known_stores db)
       /\ (forall name, name ∈ known_stores ->
             CallDeleteObjectStore name ∈ deletion_log known_stores db)
       /\ (forall name,
             db_stores db' !! name =
             match current_store name with
             | Some os => Some os
             | None => db_stores db !! name
             end))
  /\ (oldVersion = 0 ->
        snd (fst (onupgradeneeded f oldVersion (db, log))) = log
        /\ ((forall name, name ∈ known_stores -> db_stores db !! name = None) ->
            exists db',
              onupgradeneeded f oldVersion (db, log) = (db', log, None)
              /\ forall name,
                   db_stores db' !! name =
                   match current_store name with
                   | Some os => Some os
                   | None => db_stores db !! name
                   end))
  /\ (forall name, is_Some (current_store name) <-> name ∈ known_stores)
  /\ (forall name os,
        current_store name = Some os ->
        os_records os = [] /\
        os_indexes os =
          if bool_decide (name = SearchIndexMetaDataOS)
          then {[ SearchIndexWordsIndex := {| ix_keyPath := "word"; ix_unique := true |} ]}
          else ∅)
  /\ (forall db1 log1 err,
        onupgradeneeded f oldVersion (db, log) = (db1, log1, Some err) ->
        (exists native,
           err = newDbError "could not create object store searchindex"
                   (Some (NatError native)))
        /\ forall id more,
             supported f = true -> _db f = NotLoaded ->
             fst (fst (open id (OpenPlaced db (OpenUpgradeNeeded oldVersion :: more)) f))
             = Rejected (RejDbError err)).
Proof.
  split.
  { intros Hv H0. destruct (onupgradeneeded_wipe f oldVersion db log Hv H0)
      as (db' & Hrun & Hlook).
    exists db'. split; [exact Hrun|].
    split; [apply deletion_log_calls|]. split; [apply deletion_log_calls|exact Hlook]. }
  split.
  { intros ->. split; [apply onupgradeneeded_fresh|].
    intros Hfresh. unfold onupgradeneeded.
    replace (negb (0 =? DB_VERSION) && negb (0 =? 0)) with false by reflexivity.
    destruct (create_stores_fresh db Hfresh) as (db2 & Hcreate & _ & _ & Hlook).
    rewrite Hcreate. exists db2. split; [reflexivity|exact Hlook]. }
  split.
  { intros name. split; [|apply current_store_known].
    intros Hs. destruct (decide (name ∈ known_stores)) as [Hin|Hout]; [exact Hin|].
    rewrite current_store_other in Hs by exact Hout. destruct Hs as [? Hs]. discriminate. }
  split.
  { intros name os. unfold current_store.
    destruct (bool_decide (name = SearchIndexOS)) eqn:E1.
    - apply bool_decide_eq_true_1 in E1 as ->. intros [= <-]. split; reflexivity.
    - destruct (bool_decide (name = SearchIndexMetaDataOS)) eqn:E2.
      + intros [= <-]. split; reflexivity.
      + destruct (bool_decide (name ∈ _)); [|discriminate].
        intros [= <-]. split; reflexivity. }
  intros db1 log1 err Hfail.
  split; [eapply onupgradeneeded_error; exact Hfail|].
  intros id more Hsup Hdb. unfold open.
  cbn [_db with_id]. rewrite Hdb. cbn [LazyLoaded.getAsync].
  unfold load. cbn [supported with_id]. rewrite Hsup. cbn [negb fold_left open_step].
  change (onupgradeneeded (with_id f id) oldVersion)
    with (onupgradeneeded f oldVersion).
  rewrite onupgradeneeded_log in Hfail |- *.
  destruct (onupgradeneeded f oldVersion (db, [])) as [[db0 log0] err0].
  inversion Hfail; subst.
  destruct (fold_left _ _ _) as [[dbz logz] pz] eqn:Hfold.
  assert (Hp : pz = Rejected (RejDbError err)).
  { change pz with (snd (dbz, logz, pz)). rewrite <- Hfold.
    apply open_steps_settled. reflexivity. }
  rewrite Hp. reflexivity.
Qed.

End Upgrade.

(** ** Substring lemmas *)

Lemma append_assoc (a b c : string) : (a +:+ b) +:+ c = a +:+ b +:+ c.
Proof.
  induction a as [|x a IH]; [reflexivity|].
  change (String x ((a +:+ b) +:+ c) = String x (a +:+ b +:+ c)).
  f_equal. exact IH.
Qed.

Lemma append_nil_r (a : string) : a +:+ "" = a.
Proof.
  induction a as [|x a IH]; [reflexivity|].
  change (String x (a +:+ "") = String x a). f_equal. exact IH.
Qed.

Lemma contains_refl (sub : string) : contains sub sub.
Proof. exists "", "". change (sub = sub +:+ ""). symmetry. apply append_nil_r. Qed.

Lemma contains_here (sub post : string) : contains sub (sub +:+ post).
Proof. exists "", post. reflexivity. Qed.

Lemma contains_append_r (pre s sub : string) :
  contains sub s -> contains sub (pre +:+ s).
Proof.
  intros (a & b & ->). exists (pre +:+ a), b. symmetry. apply append_assoc.
Qed.

Lemma prefix_append (sub post : string) : String.prefix sub (sub +:+ post) = true.
Proof.
  induction sub as [|x sub IH]; [destruct post; reflexivity|].
  change (String.prefix (String x sub) (String x (sub +:+ post)) = true).
  cbn. destruct (Ascii.ascii_dec x x); [exact IH|congruence].
Qed.

Lemma containsb_complete (sub s : string) : contains sub s -> containsb sub s = true.
Proof.
  intros (pre & post & ->). induction pre as [|x pre IH].
  - change ("" +:+ sub +:+ post) with (sub +:+ post).
    destruct (sub +:+ post) eqn:E; cbn [containsb]; rewrite <- E, prefix_append;
      reflexivity.
  - change (String x pre +:+ sub +:+ post) with (String x (pre +:+ sub +:+ post)).
    cbn [containsb]. rewrite IH. apply orb_true_r.
Qed.

Ltac find_substring :=
  repeat first
    [ apply contains_here
    | apply contains_refl
    | apply contains_append_r ].

(** ** Errors crossing the boundary *)

Section Errors.
Context `{Host} {T : Type} `{Engine T}.

Import IndexedDbTransaction DbFacade.

Lemma nodeback_only_DbError {A} (p : Settlement A) (v : A) :
  only_DbError p = true -> only_DbError (nodeback p None v) = true.
Proof. destruct p; intros Hp; cbn; auto. Qed.

Lemma reject_with_only_DbError {A} (p : Settlement A) (e : DbError) (v : A) :
  only_DbError p = true -> only_DbError (reject_with p e v) = true.
Proof. destruct p; intros Hp; cbn; auto. Qed.

Lemma get_settle_only_DbError objectStore o :
  only_DbError (get_settle objectStore o) = true.
Proof.
  destruct o as [e|evs]; [reflexivity|]. unfold get_settle.
  assert (Hp : only_DbError (@Pending JsValue) = true) by reflexivity.
  revert Hp. generalize (@Pending JsValue).
  induction evs as [|ev evs IH]; intros p Hp; [exact Hp|].
  cbn [fold_left]. apply IH. destruct ev; cbn [get_step];
    [apply nodeback_only_DbError|apply reject_with_only_DbError]; exact Hp.
Qed.

Lemma put_placed_only_DbError objectStore key value evs :
  only_DbError (put_settle objectStore key value (Placed evs)) = true.
Proof.
  unfold put_settle.
  assert (Hp : only_DbError (@Pending JsValue) = true) by reflexivity.
  revert Hp. generalize (@Pending JsValue).
  induction evs as [|ev evs IH]; intros p Hp; [exact Hp|].
  cbn [fold_left]. apply IH. destruct ev; cbn [put_step];
    [apply nodeback_only_DbError; exact Hp|].
  destruct (ToString key); [apply reject_with_only_DbError|]; exact Hp.
Qed.

Lemma primitive_printable (v : JsValue) : primitive v = true -> printable v = true.
Proof.
  intros Hv. unfold printable.
  destruct (ToString_primitive v Hv) as [text ->]. reflexivity.
Qed.

Lemma put_threw_printable objectStore key value e :
  printable key = true -> printable value = true ->
  exists d,
    put_settle objectStore key value (Threw e) = Rejected (RejDbError d)
    /\ error d = Some (NatError e).
Proof.
  unfold printable, put_settle.
  destruct (ToString key); [|discriminate].
  destruct (ToString value); [|discriminate].
  intros _ _. eexists. split; reflexivity.
Qed.

Lemma put_threw_unprintable objectStore key value e thrown :
  printable key = true -> ToString value = Throws thrown ->
  put_settle objectStore key value (Threw e) = Rejected (RejNative (NatError thrown)).
Proof.
  unfold printable, put_settle.
  destruct (ToString key); [|discriminate].
  intros _ ->. reflexivity.
Qed.

(** What [put] rejects with when the engine throws: the [DbError] of the
    [catch] block, or the TypeError of building its message. *)
Lemma put_threw objectStore key value e :
  exists r,
    put_settle objectStore key value (Threw e) = Rejected r
    /\ (printable key = true -> printable value = true ->
        exists d, r = RejDbError d /\ error d = Some (NatError e))
    /\ (printable key = true -> forall thrown,
        ToString value = Throws thrown -> r = RejNative (NatError thrown)).
Proof.
  unfold printable, put_settle.
  destruct (ToString key) as [key_text|thrown_key].
  - destruct (ToString value) as [value_text|thrown_value].
    + eexists. split; [reflexivity|]. split.
      * intros _ _. eexists. split; reflexivity.
      * intros _ thrown [=].
    + eexists. split; [reflexivity|]. split; [discriminate|].
      intros _ thrown [= ->]. reflexivity.
  - eexists. split; [reflexivity|]. split; discriminate.
Qed.

Lemma put_settle_only_DbError objectStore key value o :
  printable key = true -> printable value = true ->
  only_DbError (put_settle objectStore key value o) = true.
Proof.
  intros Hk Hv. destruct o as [e|evs]; [|apply put_placed_only_DbError].
  destruct (put_threw_printable objectStore key value e Hk Hv) as (d & -> & _).
  reflexivity.
Qed.

Lemma delete_settle_only_DbError objectStore o :
  only_DbError (delete_settle objectStore o) = true.
Proof.
  destruct o as [e|evs]; [reflexivity|]. unfold delete_settle.
  assert (Hp : only_DbError (@Pending unit) = true) by reflexivity.
  revert Hp. generalize (@Pending unit).
  induction evs as [|ev evs IH]; intros p Hp; [exact Hp|].
  cbn [fold_left]. apply IH. destruct ev; cbn [delete_step];
    [apply nodeback_only_DbError|apply reject_with_only_DbError]; exact Hp.
Qed.

Lemma then_only_DbError {A B} (p : Settlement A) (g : A -> B) :
  only_DbError p = true -> only_DbError (then_ p g) = true.
Proof. destruct p; auto. Qed.

Lemma getAll_onerror_only_DbError objectStore ev err p :
  only_DbError p = true ->
  only_DbError (getAll_onerror objectStore ev err p) = true.
Proof.
  intros Hp. unfold getAll_onerror.
  destruct (truthy _); [destruct err|]; auto using reject_with_only_DbError.
Qed.

Lemma getAll_settle_only_DbError objectStore o :
  only_DbError (getAll_settle objectStore o) = true.
Proof.
  destruct o as [e|evs]; [reflexivity|]. unfold getAll_settle, getAll_result.
  assert (Hp : only_DbError (snd (@nil (JsValue * JsValue),
                                   @Pending KeysArray)) = true)
    by reflexivity.
  revert Hp. generalize (@nil (JsValue * JsValue), @Pending KeysArray).
  induction evs as [|ev evs IH]; intros st Hp;
    [apply then_only_DbError; exact Hp|].
  cbn [fold_left]. apply IH. destruct st as [keys p].
  destruct ev as [[cursor|]|event err]; cbn [getAll_step snd] in *.
  - exact Hp.
  - apply nodeback_only_DbError. exact Hp.
  - apply getAll_onerror_only_DbError. exact Hp.
Qed.

Lemma wait_only_DbError (es : list TxEvent) (t : IndexedDbTransaction T) :
  only_DbError (wait t) = true -> only_DbError (wait (deliver_all es t)) = true.
Proof.
  revert t. induction es as [|e es IH]; intros t Hp; [exact Hp|].
  rewrite deliver_all_cons. apply IH. rewrite wait_deliver.
  destruct e as [ev err| |]; cbn [on_event].
  - destruct (ev_target ev); [apply reject_with_only_DbError|]; exact Hp.
  - apply nodeback_only_DbError. exact Hp.
  - apply nodeback_only_DbError. exact Hp.
Qed.

Lemma open_steps_only_DbError (f : DbFacade) (evs : list OpenEvent)
    (st : OpenState) :
  only_DbError (snd st) = true ->
  only_DbError (snd (fold_left (open_step f) evs st)) = true.
Proof.
  revert st. induction evs as [|e evs IH]; intros st Hp; [exact Hp|].
  cbn [fold_left]. apply IH. destruct st as [[db log] p]. cbn [snd] in Hp.
  destruct e as [ev err|old|]; cbn [open_step].
  - apply reject_with_only_DbError. exact Hp.
  - destruct (onupgradeneeded f old (db, log)) as [[db' log'] [err|]]; cbn [snd];
      [apply reject_with_only_DbError|]; exact Hp.
  - apply nodeback_only_DbError. exact Hp.
Qed.

Lemma load_only_DbError (f : DbFacade) (answer : OpenOutcome) :
  only_DbError (snd (load f answer)) = true.
Proof.
  unfold load. destruct (supported f); [|reflexivity]. cbn [negb].
  destruct answer as [e|stored evs]; [reflexivity|].
  pose proof (open_steps_only_DbError f evs
                (stored, [CallOpen (_id f) DB_VERSION], Pending) eq_refl) as Hp.
  destruct (fold_left _ _ _) as [[db log] p]. exact Hp.
Qed.

Lemma open_only_DbError (id : string) (answer : OpenOutcome) (f : DbFacade) :
  only_DbError (LazyLoaded.outcome (_db f)) = true ->
  only_DbError (fst (fst (open id answer f))) = true /\
  only_DbError (LazyLoaded.outcome (_db (snd (open id answer f)))) = true.
Proof.
  intros Hf. unfold open. cbn [_db with_id].
  pose proof (load_only_DbError (with_id f id) answer) as Hl.
  destruct (_db f) eqn:Hdb; cbn [LazyLoaded.getAsync LazyLoaded.outcome fst snd
                                  with_db _db then_ only_DbError] in *;
    auto.
  destruct (snd (load (with_id f id) answer)); cbn in *; auto.
Qed.

Lemma delete_request_only_DbError (engine : list DeleteEvent)
    (st : DbFacade * Settlement unit) :
  only_DbError (snd st) = true ->
  only_DbError (snd (fold_left delete_request_step engine st)) = true.
Proof.
  revert st. induction engine as [|e engine IH]; intros st Hp; [exact Hp|].
  cbn [fold_left]. apply IH. destruct st as [f p]. cbn [snd] in Hp.
  destruct e as [|ev]; cbn [delete_request_step].
  - apply nodeback_only_DbError. exact Hp.
  - destruct (LazyLoaded.getLoaded (_db f)); cbn [snd];
      [apply reject_with_only_DbError|]; exact Hp.
Qed.

Lemma deleteDatabase_only_DbError ds engine (f : DbFacade) :
  only_DbError (snd (fst (deleteDatabase ds engine f))) = true.
Proof.
  revert f. induction ds as [|g ds IH]; intros f; cbn [deleteDatabase].
  - destruct (LazyLoaded.isLoaded (_db f)); [|reflexivity].
    destruct (_activeTransactions f >? 0); [reflexivity|].
    destruct (LazyLoaded.getLoaded (_db f)) as [db|]; [|reflexivity].
    pose proof (delete_request_only_DbError engine
                  (with_db f (Loaded (close db)), Pending) eq_refl) as Hp.
    destruct (fold_left _ _ _) as [f2 p]. exact Hp.
  - destruct (LazyLoaded.isLoaded (_db f)); [|reflexivity].
    destruct (_activeTransactions f >? 0).
    + specialize (IH (g f)). destruct (deleteDatabase ds engine (g f)) as [[log p] f'].
      exact IH.
    + destruct (LazyLoaded.getLoaded (_db f)) as [db|]; [|reflexivity].
      pose proof (delete_request_only_DbError engine
                    (with_db f (Loaded (close db)), Pending) eq_refl) as Hp.
      destruct (fold_left _ _ _) as [f2 p]. exact Hp.
Qed.

(** Whatever the engine does, a promise handed out by [open],
    [deleteDatabase], [createTransaction], [get], [getAll], [getAsList],
    [delete] or [wait] is rejected only with a [DbError], and so is the
    promise of [put] when its request was placed or when the key and the
    value can be converted to strings; an exception thrown by the engine
    is then carried in the [DbError] as its cause.  When the engine throws
    on a [put] whose value cannot be converted, the promise is rejected
    with the TypeError of the conversion. *)
Theorem failures_are_DbErrors
    (f : DbFacade) (id : string) (answer : OpenOutcome)
    (ds : list (DbFacade -> DbFacade)) (engine : list DeleteEvent)
    (readOnly : bool) (objectStores : list string)
    (s : System IDBTransaction) (started : Result T) (s' : System T)
    (t : IndexedDbTransaction T) (tx : T) (es : list TxEvent)
    (objectStore : string) (key value : JsValue) (indexName : option string) :
  only_DbError (LazyLoaded.outcome (_db f)) = true ->
  only_DbError (fst (fst (open id answer f))) = true
  /\ only_DbError (snd (fst (deleteDatabase ds engine f))) = true
  /\ only_DbError
       (fst (createTransaction readOnly objectStores
               (LazyLoaded.outcome (_db (snd (open id answer f)))) s)) = true
  /\ only_DbError (fst (createTransaction_started started s')) = true
  /\ only_DbError (fst (get objectStore key indexName t)) = true
  /\ only_DbError (fst (getAll objectStore t)) = true
  /\ only_DbError (fst (getAsList objectStore key indexName t)) = true
  /\ (printable key = true -> printable value = true ->
      only_DbError (fst (put objectStore key value t)) = true)
  /\ (forall evs,
        only_DbError (put_settle objectStore key value (Placed evs)) = true)
  /\ only_DbError (fst (delete objectStore key t)) = true
  /\ only_DbError (wait (deliver_all es (IndexedDbTransaction.constructor tx))) = true
  /\ (forall e,
        (exists d, get_settle objectStore (Threw e) = Rejected (RejDbError d)
                   /\ error d = Some (NatError e))
        /\ (exists d, getAll_settle objectStore (Threw e) = Rejected (RejDbError d)
                      /\ error d = Some (NatError e))
        /\ (printable key = true -> printable value = true ->
            exists d, put_settle objectStore key value (Threw e) = Rejected (RejDbError d)
                      /\ error d = Some (NatError e))
        /\ (forall thrown,
              printable key = true -> ToString value = Throws thrown ->
              put_settle objectStore key value (Threw e)
              = Rejected (RejNative (NatError thrown)))
        /\ (exists d, delete_settle objectStore (Threw e) = Rejected (RejDbError d)
                      /\ error d = Some (NatError e))
        /\ (exists d, fst (createTransaction_started (Throws e) s')
                        = Rejected (RejDbError d)
                      /\ error d = Some (NatError e))).
Proof.
  intros Hf. destruct (open_only_DbError id answer f Hf) as [Hopen Hdb].
  split; [exact Hopen|].
  split; [apply deleteDatabase_only_DbError|].
  split.
  { unfold createTransaction.
    destruct (LazyLoaded.outcome (_db (snd (open id answer f)))) as [|db|r];
      [reflexivity| |exact Hdb].
    destruct (transaction _ _ db); reflexivity. }
  split; [destruct started; reflexivity|].
  split.
  { unfold get. destruct (index_given indexName);
      [destruct (index_get _ _ _ _)|destruct (store_get _ _ _)];
      apply get_settle_only_DbError. }
  split.
  { unfold getAll. destruct (store_openCursor _ _). apply getAll_settle_only_DbError. }
  split.
  { unfold getAsList, get. destruct (index_given indexName);
      [destruct (index_get _ _ _ _)|destruct (store_get _ _ _)];
      apply then_only_DbError, get_settle_only_DbError. }
  split.
  { intros Hk Hv. unfold put. destruct (truthy key); destruct (store_put _ _ _ _);
      apply put_settle_only_DbError; assumption. }
  split; [apply put_placed_only_DbError|].
  split.
  { unfold delete. destruct (store_delete _ _ _). apply delete_settle_only_DbError. }
  split; [apply wait_only_DbError; reflexivity|].
  intros e.
  split; [eexists; split; reflexivity|].
  split; [eexists; split; reflexivity|].
  split; [apply put_threw_printable|].
  split; [intros thrown; apply put_threw_unprintable|].
  split; eexists; split; reflexivity.
Qed.

End Errors.

(** C7: the [catch] block of [put] builds the message of its [DbError]
    with ["..." + key + "..." + value].  For a value that cannot be
    converted to a string the concatenation throws inside the block, and
    the promise of [put] is rejected with that TypeError instead of a
    [DbError]: here for a [put] on a read-only transaction, which the
    engine refuses with a ReadOnlyError.  The same [put] with a value
    that can be converted, and [delete] on the same transaction, are
    rejected with a [DbError] that wraps the ReadOnlyError; and the
    [onerror] handler of [put], which serialises the value with
    [JSON.stringify], wraps the error of the request for the very value
    the [catch] block fails on. *)
Theorem put_catch_leaks_native_error :
  let t := IndexedDbTransaction.constructor (sample_transaction ReadOnly) in
  IndexedDbTransaction.put ElementDataOS (JsString "k1") unprintable t
    = (Rejected (RejNative (NatError TypeError)), t)
  /\ only_DbError
       (fst (IndexedDbTransaction.put ElementDataOS (JsString "k1") unprintable t))
     = false
  /\ (exists d,
        IndexedDbTransaction.put ElementDataOS (JsString "k1") (JsString "v") t
          = (Rejected (RejDbError d), t)
        /\ error d = Some (NatError ReadOnlyError))
  /\ (exists d,
        IndexedDbTransaction.delete ElementDataOS (JsString "k1") t
          = (Rejected (RejDbError d), t)
        /\ error d = Some (NatError ReadOnlyError))
  /\ (exists d,
        IndexedDbTransaction.put_settle ElementDataOS (JsString "k1") unprintable
          (Placed [ReqError (error_event ConstraintError) (Some ConstraintError)])
          = Rejected (RejDbError d)
        /\ error d = Some (NatError ConstraintError)).
Proof.
  cbn zeta. split; [vm_compute; reflexivity|].
  split; [vm_compute; reflexivity|].
  split; [eexists; split; [vm_compute; reflexivity|reflexivity]|].
  split; [eexists; split; [vm_compute; reflexivity|reflexivity]|].
  eexists. split; [vm_compute; reflexivity|reflexivity].
Qed.

(** ** Error messages *)

Section Messages.
Context `{Host}.

Import IndexedDbTransaction.

Lemma nodeback_settled {A} (p : Settlement A) err (v : A) :
  settled p = true -> nodeback p err v = p.
Proof. destruct p; [discriminate| |]; reflexivity. Qed.

Lemma get_steps_settled objectStore evs (p : Settlement JsValue) :
  settled p = true -> fold_left (get_step objectStore) evs p = p.
Proof.
  intros Hp. induction evs as [|e evs IH]; [reflexivity|].
  cbn [fold_left]. destruct e; cbn [get_step]; unfold reject_with;
    rewrite nodeback_settled by exact Hp; exact IH.
Qed.

Lemma put_steps_settled objectStore key value evs (p : Settlement JsValue) :
  settled p = true -> fold_left (put_step objectStore key value) evs p = p.
Proof.
  intros Hp. induction evs as [|e evs IH]; [reflexivity|].
  cbn [fold_left]. destruct e; cbn [put_step]; [|destruct (ToString key)];
    unfold reject_with; rewrite ?nodeback_settled by exact Hp; exact IH.
Qed.

Lemma delete_steps_settled objectStore evs (p : Settlement unit) :
  settled p = true -> fold_left (delete_step objectStore) evs p = p.
Proof.
  intros Hp. induction evs as [|e evs IH]; [reflexivity|].
  cbn [fold_left]. destruct e; cbn [delete_step]; unfold reject_with;
    rewrite nodeback_settled by exact Hp; exact IH.
Qed.

(** Once the promise of [getAll] is settled the events leave it as it
    is, but every further cursor position still lands in [keys]. *)
Lemma getAll_steps_settled objectStore evs keys (p : Settlement KeysArray) :
  settled p = true ->
  fold_left (getAll_step objectStore) evs (keys, p)
  = (keys ++ cursor_positions evs, p).
Proof.
  intros Hp. revert keys. induction evs as [|e evs IH]; intros keys;
    [cbn; rewrite app_nil_r; reflexivity|].
  cbn [fold_left]. destruct e as [[cursor|]|ev err]; cbn [getAll_step cursor_positions].
  - rewrite IH, <- app_assoc. reflexivity.
  - rewrite nodeback_settled by exact Hp. apply IH.
  - unfold getAll_onerror. destruct (truthy _); [destruct err|];
      unfold reject_with; rewrite ?nodeback_settled by exact Hp; apply IH.
Qed.

(** The operand left of [&&] in the [onerror] handler of [getAll] is a
    non-empty string. *)
Lemma getAll_lhs_truthy (rest : string) :
  truthy (JsString ("IndexedDbTransaction.getAll().onerror" +:+ rest)) = true.
Proof. reflexivity. Qed.

(** What [getAll] rejects with when the engine fires [onerror] on the
    cursor request: the message is [request.error.message] alone. *)
Lemma getAll_request_error objectStore ev e more :
  getAll_settle objectStore (Placed (ReqError ev (Some e) :: more)) =
  Rejected (RejDbError (newDbError (ex_message e) (Some (NatError e)))).
Proof.
  unfold getAll_settle. cbn [fold_left getAll_step]. unfold getAll_onerror.
  rewrite getAll_lhs_truthy, getAll_steps_settled by reflexivity. reflexivity.
Qed.

(** The messages of [get], [put] and [delete] on a request error, and of
    all four operations on a thrown exception, name the store; those of
    [put] also carry the key and the value, converted to strings. *)
Theorem request_errors_name_the_store
    (objectStore : string) (key value : JsValue) :
  (forall ev err more,
     exists d,
       get_settle objectStore (Placed (ReqError ev err :: more))
         = Rejected (RejDbError d)
       /\ contains objectStore (message d))
  /\ (forall ev err more,
        exists d,
          delete_settle objectStore (Placed (ReqError ev err :: more))
            = Rejected (RejDbError d)
          /\ contains objectStore (message d))
  /\ (forall ev err more key_text,
        ToString key = Returns key_text ->
        exists d,
          put_settle objectStore key value (Placed (ReqError ev err :: more))
            = Rejected (RejDbError d)
          /\ contains objectStore (message d)
          /\ contains key_text (message d)
          /\ contains (JSON_stringify value) (message d))
  /\ (forall e,
        (exists d, get_settle objectStore (Threw e) = Rejected (RejDbError d)
                   /\ contains objectStore (message d))
        /\ (exists d, getAll_settle objectStore (Threw e) = Rejected (RejDbError d)
                      /\ contains objectStore (message d))
        /\ (exists d, delete_settle objectStore (Threw e) = Rejected (RejDbError d)
                      /\ contains objectStore (message d))
        /\ (forall key_text value_text,
              ToString key = Returns key_text ->
              ToString value = Returns value_text ->
              exists d, put_settle objectStore key value (Threw e)
                        = Rejected (RejDbError d)
                      /\ contains objectStore (message d)
                      /\ contains key_text (message d)
                      /\ contains value_text (message d))).
Proof.
  split.
  { intros ev err more. eexists. split.
    - unfold get_settle. cbn [fold_left get_step].
      apply get_steps_settled. reflexivity.
    - cbn [message newDbError]. find_substring. }
  split.
  { intros ev err more. eexists. split.
    - unfold delete_settle. cbn [fold_left delete_step].
      apply delete_steps_settled. reflexivity.
    - cbn [message newDbError]. find_substring. }
  split.
  { intros ev err more key_text Hk. eexists. split.
    - unfold put_settle. cbn [fold_left put_step]. rewrite Hk.
      apply put_steps_settled. reflexivity.
    - cbn [message newDbError]. repeat split; find_substring. }
  intros e.
  split; [eexists; split; [reflexivity|cbn [message newDbError]; find_substring]|].
  split; [eexists; split; [reflexivity|cbn [message newDbError]; find_substring]|].
  split; [eexists; split; [reflexivity|cbn [message newDbError]; find_substring]|].
  intros key_text value_text Hk Hv. eexists. split.
  - unfold put_settle. rewrite Hk, Hv. reflexivity.
  - cbn [message newDbError]. repeat split; find_substring.
Qed.

(** C8: the [onerror] handler of [getAll] builds its message with
    ["..." + request.error && request.error.message], which is the
    engine's message alone; for the store [ElementData] and an engine
    error that does not happen to mention it, the [DbError] delivered to
    the caller does not contain the store name. *)
Theorem getAll_request_error_omits_store :
  let e := domException "UnknownError" "Internal error." in
  exists d,
    getAll_settle ElementDataOS (Placed [ReqError (error_event e) (Some e)])
      = Rejected (RejDbError d)
    /\ message d = "Internal error."
    /\ ~ contains ElementDataOS (message d).
Proof.
  cbn zeta. eexists. split; [apply getAll_request_error|].
  split; [reflexivity|].
  intros Hc. apply containsb_complete in Hc. vm_compute in Hc. discriminate.
Qed.

End Messages.

(** ** Lookups on the reference engine *)

Section Lookups.
Context `{Host}.

Import IndexedDbTransaction.

Lemma with_transaction_same {T} (t : IndexedDbTransaction T) :
  with_transaction t (_transaction t) = t.
Proof. destruct t; reflexivity. Qed.

(** C6: on a running transaction whose scope holds the store, [get] of a
    key under which the store (or the named index) files no record
    resolves with [undefined], and [getAsList] of the same key resolves
    with the empty array. *)
Theorem getAsList_absent_is_empty
    (t : IndexedDbTransaction IDBTransaction) (name : string) (os : ObjectStore)
    (key : JsValue) (k : Key) (indexName : option string) :
  objectStore name (_transaction t) = Returns os ->
  to_key key = Some k ->
  match index_given indexName with
  | None => records_lookup k (os_records os) = None
  | Some ix =>
      exists index,
        os_indexes os !! ix = Some index /\
        index_lookup (ix_keyPath index) k (os_records os) = None
  end ->
  get name key indexName t = (Fulfilled JsUndefined, t)
  /\ getAsList name key indexName t = (Fulfilled (JsArray []), t).
Proof.
  intros Hos Hk Habsent.
  assert (Hget : get name key indexName t = (Fulfilled JsUndefined, t)).
  { unfold get. destruct (index_given indexName) as [ix|].
    - destruct Habsent as (index & Hix & Hnone).
      cbn [index_get reference_engine]. unfold ref_index_get.
      rewrite Hos, Hix, Hk, Hnone. cbn. rewrite with_transaction_same. reflexivity.
    - cbn [store_get reference_engine]. unfold ref_store_get.
      rewrite Hos, Hk, Habsent. cbn. rewrite with_transaction_same. reflexivity. }
  split; [exact Hget|]. unfold getAsList. rewrite Hget. reflexivity.
Qed.

Lemma falsy_values (v : JsValue) :
  truthy v = false <->
  v ∈ [JsUndefined; JsNull; JsNaN; JsBool false; JsNumber 0; JsString ""].
Proof.
  rewrite !elem_of_cons, elem_of_nil. split.
  - destruct v as [| |[]|n| |s| |]; cbn; try discriminate; auto 10.
    + destruct (Z.eqb_spec n 0); [subst; auto 10|discriminate].
    + destruct s; [auto 10|discriminate].
  - intros [->|[->|[->|[->|[->|[->|[]]]]]]]; reflexivity.
Qed.

End Lookups.

Section FalsyValues.
Context `{Host} {T : Type} `{Engine T}.

Import IndexedDbTransaction.

(** C9: whenever [get] resolves with a falsy value -- [undefined] for an
    absent key, but just as well a stored [null], [false], [0], [NaN] or
    empty string -- [getAsList] resolves with the empty array, so the
    caller cannot tell such a stored value from an absent one. *)
Theorem getAsList_falsy_is_empty
    (t : IndexedDbTransaction T) (objectStore : string) (key : JsValue)
    (indexName : option string) (v : JsValue) :
  fst (get objectStore key indexName t) = Fulfilled v ->
  (truthy v = false <->
     v ∈ [JsUndefined; JsNull; JsNaN; JsBool false; JsNumber 0; JsString ""])
  /\ (truthy v = false ->
        fst (getAsList objectStore key indexName t) = Fulfilled (JsArray []))
  /\ (truthy v = true ->
        fst (getAsList objectStore key indexName t) = Fulfilled v).
Proof.
  intros Hget. split; [apply falsy_values|].
  unfold getAsList. destruct (get objectStore key indexName t) as [p t'].
  cbn [fst] in *. subst p. cbn [then_ fst]. unfold js_or.
  split; intros ->; reflexivity.
Qed.

End FalsyValues.

(** ** Writing and reading back *)

Section PutGet.
Context `{Host}.

Import IndexedDbTransaction.

Lemma string_compare_refl (s : string) : String.compare s s = Eq.
Proof.
  induction s as [|a s IH]; [reflexivity|]. cbn.
  replace (Ascii.compare a a) with Eq; [exact IH|].
  unfold Ascii.compare. symmetry. apply N.compare_refl.
Qed.

Lemma key_compare_eq (a b : Key) : key_compare a b = Eq <-> a = b.
Proof.
  destruct a as [x|x], b as [y|y]; cbn.
  - rewrite Z.compare_eq_iff. split; congruence.
  - split; discriminate.
  - split; discriminate.
  - split.
    + intros E. apply String.compare_eq_iff in E. congruence.
    + intros [= ->]. apply string_compare_refl.
Qed.

Lemma key_compare_refl (a : Key) : key_compare a a = Eq.
Proof. apply key_compare_eq. reflexivity. Qed.

Lemma records_lookup_insert_eq (k : Key) (v : JsValue) (rs : Records) :
  records_lookup k (records_insert k v rs) = Some v.
Proof.
  induction rs as [|[k' v'] rs IH]; cbn.
  - rewrite key_compare_refl. reflexivity.
  - destruct (key_compare k k') eqn:E; cbn.
    + rewrite key_compare_refl. reflexivity.
    + rewrite key_compare_refl. reflexivity.
    + rewrite E. exact IH.
Qed.

Lemma records_lookup_insert_ne (k k' : Key) (v : JsValue) (rs : Records) :
  k <> k' ->
  records_lookup k' (records_insert k v rs) = records_lookup k' rs.
Proof.
  intros Hne.
  assert (Hc : key_compare k' k <> Eq) by (rewrite key_compare_eq; congruence).
  induction rs as [|[k0 v0] rs IH]; cbn.
  - destruct (key_compare k' k); [congruence|reflexivity..].
  - destruct (key_compare k k0) eqn:E; cbn.
    + apply key_compare_eq in E as <-.
      destruct (key_compare k' k); [congruence|reflexivity..].
    + destruct (key_compare k' k); [congruence|reflexivity..].
    + destruct (key_compare k' k0); [reflexivity|exact IH..].
Qed.

Lemma objectStore_updated (name : string) (os os' : ObjectStore)
    (tx : IDBTransaction) :
  objectStore name tx = Returns os ->
  objectStore name (update_store name os' tx) = Returns os'.
Proof.
  unfold objectStore. cbn [tx_finished tx_scope tx_stores update_store].
  destruct (tx_finished tx); [discriminate|].
  destruct (bool_decide _); [|discriminate].
  rewrite lookup_insert_eq. reflexivity.
Qed.

Lemma objectStore_other (name other : string) (os' : ObjectStore)
    (tx : IDBTransaction) :
  name <> other ->
  objectStore other (update_store name os' tx) = objectStore other tx.
Proof.
  intros Hne. unfold objectStore.
  cbn [tx_finished tx_scope tx_stores update_store].
  rewrite lookup_insert_ne by exact Hne. reflexivity.
Qed.

(** What [put] with a truthy key does on a store with out-of-line keys,
    and what a later [get] sees: the value under the key put, and under
    every other key or store what was there before. *)
Theorem put_then_get
    (t : IndexedDbTransaction IDBTransaction) (name : string) (os : ObjectStore)
    (key value : JsValue) (k : Key) :
  objectStore name (_transaction t) = Returns os ->
  tx_mode (_transaction t) = ReadWrite ->
  os_keyPath os = None ->
  violates_unique os k value = false ->
  truthy key = true ->
  to_key key = Some k ->
  exists t1,
    put name key value t = (Fulfilled key, t1)
    /\ get name key None t1 = (Fulfilled value, t1)
    /\ (forall key' k',
          to_key key' = Some k' -> k' <> k ->
          fst (get name key' None t1) = fst (get name key' None t))
    /\ (forall other key',
          other <> name ->
          fst (get other key' None t1) = fst (get other key' None t)).
Proof.
  intros Hos Hmode Hpath Huniq Htruthy Hk.
  assert (Hof : of_key k = key).
  { destruct key; try discriminate; cbn in Hk; inversion Hk; reflexivity. }
  eexists. split.
  { unfold put. rewrite Htruthy. cbn [store_put reference_engine].
    unfold ref_store_put. rewrite Hos, Hmode. unfold resolve_key.
    rewrite Hpath, Hk, Huniq. cbn [put_settle fold_left put_step nodeback].
    rewrite Hof. reflexivity. }
  split.
  { unfold get. cbn [index_given store_get reference_engine _transaction
                       with_transaction].
    unfold ref_store_get. rewrite (objectStore_updated _ _ _ _ Hos), Hk.
    cbn [os_records with_records]. rewrite records_lookup_insert_eq.
    reflexivity. }
  split.
  { intros key' k' Hk' Hne. unfold get.
    cbn [index_given store_get reference_engine _transaction with_transaction fst].
    unfold ref_store_get. rewrite (objectStore_updated _ _ _ _ Hos), Hos, Hk'.
    cbn [os_records with_records].
    rewrite records_lookup_insert_ne by congruence. reflexivity. }
  intros other key' Hne. unfold get.
  cbn [index_given store_get reference_engine _transaction with_transaction fst].
  unfold ref_store_get. rewrite objectStore_other by congruence.
  destruct (objectStore other (_transaction t)); [|reflexivity].
  destruct (to_key key'); reflexivity.
Qed.

(** C5: [put] tests [key] for truthiness, so a key of [0] is dropped.  On
    the store [SearchIndex], which generates keys, the value is filed
    under the generated key 1 and [put] resolves with 1; a [get] of key 0
    in the same transaction resolves with [undefined].  On the store
    [ElementData], which has no key generator, the same [put] is rejected
    with the engine's DataError. *)
Theorem put_key_zero_is_dropped :
  (exists tx t1,
     transaction [SearchIndexOS] ReadWrite (fresh_database "db1") = Returns tx
     /\ put SearchIndexOS (JsNumber 0) (JsString "v") (constructor tx)
          = (Fulfilled (JsNumber 1), t1)
     /\ get SearchIndexOS (JsNumber 0) None t1 = (Fulfilled JsUndefined, t1)
     /\ get SearchIndexOS (JsNumber 1) None t1 = (Fulfilled (JsString "v"), t1))
  /\ (exists tx d,
        transaction [ElementDataOS] ReadWrite (fresh_database "db1") = Returns tx
        /\ fst (put ElementDataOS (JsNumber 0) (JsString "v") (constructor tx))
             = Rejected (RejDbError d)
        /\ error d = Some (NatError DataError)).
Proof.
  split.
  - eexists. eexists.
    split; [vm_compute; reflexivity|].
    split; [vm_compute; reflexivity|].
    split; vm_compute; reflexivity.
  - destruct (put_threw_printable ElementDataOS (JsNumber 0) (JsString "v") DataError)
      as (d & Hd & Hcause); [apply primitive_printable; reflexivity..|].
    eexists. exists d.
    split; [vm_compute; reflexivity|].
    split; [rewrite <- Hd; reflexivity|exact Hcause].
Qed.

End PutGet.

(** ** The statements on sample values *)

Lemma wait_settles_once_witness :
  (exists e,
     IndexedDbTransaction.wait
       (IndexedDbTransaction.deliver_all
          [TxError (error_event sample_error) None; TxAbort]
          (IndexedDbTransaction.constructor (sample_transaction ReadWrite)))
     = Rejected (RejDbError e) /\ error e = None)
  /\ (In TxComplete [TxComplete] \/ In TxAbort [TxComplete])
  /\ IndexedDbTransaction.wait
       (IndexedDbTransaction.deliver TxAbort
          (IndexedDbTransaction.deliver_all [TxComplete]
             (IndexedDbTransaction.constructor (sample_transaction ReadWrite))))
     = Fulfilled tt
  /\ (exists e,
        IndexedDbTransaction.wait
          (IndexedDbTransaction.deliver_all
             [TxError (error_event sample_error) None; TxAbort]
             (IndexedDbTransaction.constructor (sample_transaction ReadWrite)))
        = Rejected (RejDbError e)).
Proof.
  pose proof (wait_settles_once (sample_transaction ReadWrite) [TxAbort])
    as (_ & _ & _ & _ & _ & _ & Herror & _).
  pose proof (wait_settles_once (sample_transaction ReadWrite) [TxComplete])
    as (_ & _ & _ & _ & _ & _ & _ & _ & Hfulfilled & Hstays & _).
  pose proof (wait_settles_once (sample_transaction ReadWrite)
                [TxError (error_event sample_error) None; TxAbort])
    as (_ & _ & _ & _ & _ & _ & _ & _ & _ & _ & Hprotocol).
  split.
  { exact (Herror (error_event sample_error) (Some sample_error) None eq_refl). }
  split; [exact (Hfulfilled eq_refl)|].
  split; [exact (Hstays TxAbort eq_refl)|].
  exact (Hprotocol eq_refl (error_event sample_error) None (or_introl eq_refl)).
Defined.

(** A transaction of the reference engine on which [abort()] is called
    while one request is in flight: the engine accepts the call and ends
    the transaction, the abort event is fired, and yet [wait()] is
    rejected, because the error event of the request came first. *)
Lemma wait_rejects_after_abort :
  let t := IndexedDbTransaction.constructor (sample_transaction ReadWrite) in
  let events := abort_events 1 in
  fst (IndexedDbTransaction.abort t) = Returns tt
  /\ aborted (snd (IndexedDbTransaction.abort t)) = true
  /\ tx_finished (_transaction (snd (IndexedDbTransaction.abort t))) = true
  /\ events = [TxError (error_event AbortError) None; TxAbort]
  /\ IndexedDbTransaction.wait
       (IndexedDbTransaction.deliver_all events (snd (IndexedDbTransaction.abort t)))
     <> Fulfilled tt
  /\ exists d,
       IndexedDbTransaction.wait
         (IndexedDbTransaction.deliver_all events (snd (IndexedDbTransaction.abort t)))
       = Rejected (RejDbError d)
       /\ error d = None.
Proof.
  cbn zeta. split; [reflexivity|]. split; [reflexivity|]. split; [reflexivity|].
  split; [reflexivity|]. split; [discriminate|].
  eexists. split; reflexivity.
Qed.

Lemma active_transactions_counted_witness :
  let s :=
    DbFacade.run [DbFacade.Create (Returns (sample_transaction ReadWrite))]
      {| DbFacade.facade := DbFacade.constructor true true; DbFacade.created := [] |} in
  _activeTransactions (DbFacade.facade s) = 1
  /\ _activeTransactions
       (DbFacade.facade (DbFacade.on_transaction_event 0 TxComplete s)) = 0
  /\ settled (IndexedDbTransaction.wait
                (IndexedDbTransaction.deliver TxAbort
                   (IndexedDbTransaction.constructor (sample_transaction ReadWrite))))
     = true.
Proof.
  pose proof (active_transactions_counted (T := IDBTransaction) true true
                [DbFacade.Create (Returns (sample_transaction ReadWrite))])
    as (Hcount & _ & _ & Hfire & Hsettle).
  split; [exact Hcount|]. split.
  - exact (Hfire 0%nat
             (IndexedDbTransaction.constructor (sample_transaction ReadWrite))
             TxComplete eq_refl).
  - exact (proj1 (proj2 (Hsettle 0%nat
             (IndexedDbTransaction.constructor (sample_transaction ReadWrite))
             eq_refl eq_refl))).
Defined.

Lemma deleteDatabase_backs_off_then_deletes_witness :
  DbFacade.deleteDatabase [] [DeleteSuccess] (DbFacade.constructor true true)
    = ([], Fulfilled tt, DbFacade.constructor true true)
  /\ DbFacade.deleteDatabase [fun f => f] [DeleteSuccess] (loaded_facade 1)
       = ([Delay 150; Delay 150], Pending, loaded_facade 1)
  /\ (exists f',
        DbFacade.deleteDatabase ([fun f => with_active f 0] ++ []) [DeleteSuccess]
          (loaded_facade 1)
        = ([Delay 150; CallClose "db1"; CallDeleteDatabase "db1"], Fulfilled tt, f')
        /\ _db f' = NotLoaded).
Proof.
  split.
  { exact (proj1 (deleteDatabase_backs_off_then_deletes [] [] [DeleteSuccess]
                    (DbFacade.constructor true true)) eq_refl). }
  split.
  { exact (proj1 (proj2 (deleteDatabase_backs_off_then_deletes [fun f => f] []
                           [DeleteSuccess] (loaded_facade 1))) eq_refl eq_refl). }
  destruct (proj2 (proj2 (deleteDatabase_backs_off_then_deletes
                            [fun f => with_active f 0] [] [DeleteSuccess]
                            (loaded_facade 1)))
              sample_database eq_refl eq_refl eq_refl) as (Hsuccess & _).
  destruct (Hsuccess [] eq_refl) as (f' & Hrun & Hdb & _).
  exists f'. split; [exact Hrun|exact Hdb].
Defined.

Lemma deleteDatabase_while_opening_witness :
  let opening :=
    snd (DbFacade.open "db1" (OpenPlaced empty_database [])
           (DbFacade.constructor true true)) in
  _db opening = Loading
  /\ DbFacade.deleteDatabase [] [DeleteSuccess] opening = ([], Fulfilled tt, opening).
Proof.
  split; [reflexivity|].
  exact (deleteDatabase_while_opening "db1" (OpenPlaced empty_database [])
           (DbFacade.constructor true true) [] [DeleteSuccess] eq_refl).
Defined.

Lemma upgrade_wipes_and_recreates_witness :
  (exists db',
     DbFacade.onupgradeneeded (loaded_facade 0) 2 (sample_database, [])
     = (db',
        [CallOnUpgrade;
         CallDeleteObjectStore SearchIndexOS;
         CallDeleteObjectStore ElementDataOS;
         CallDeleteObjectStore MetaDataOS;
         CallDeleteObjectStore GroupDataOS;
         CallDeleteObjectStore SearchTermSuggestionsOS;
         CallDeleteObjectStore SearchIndexMetaDataOS],
        None)
     /\ db_stores db' !! ElementDataOS = Some (new_store no_options))
  /\ (exists db',
        DbFacade.onupgradeneeded (loaded_facade 0) 0 (empty_database, [])
        = (db', [], None)
        /\ db_stores db' !! SearchIndexOS
           = Some (new_store {| autoIncrement := true; keyPath := None |}))
  /\ (exists err,
        fst (fst (DbFacade.open "db1"
                    (OpenPlaced sample_database [OpenUpgradeNeeded 0; OpenSuccess])
                    (DbFacade.constructor true true)))
        = Rejected (RejDbError err)
        /\ message err = "could not create object store searchindex").
Proof.
  split.
  { destruct (proj1 (upgrade_wipes_and_recreates (loaded_facade 0) 2 sample_database [])
                ltac:(discriminate) ltac:(discriminate))
      as (db' & Hrun & _ & _ & Hlook).
    exists db'. split; [exact Hrun|]. exact (Hlook ElementDataOS). }
  split.
  { destruct (proj1 (proj2 (upgrade_wipes_and_recreates (loaded_facade 0) 0
                              empty_database [])) eq_refl)
      as (_ & Hfresh).
    destruct (Hfresh (fun name _ => lookup_empty name)) as (db' & Hrun & Hlook).
    exists db'. split; [exact Hrun|]. exact (Hlook SearchIndexOS). }
  pose proof (proj2 (proj2 (proj2 (proj2
                (upgrade_wipes_and_recreates (DbFacade.constructor true true) 0
                   sample_database [])))))
    as Hfail.
  eassert (Hrun : DbFacade.onupgradeneeded (DbFacade.constructor true true) 0
                    (sample_database, []) = (_, _, Some _))
    by (vm_compute; reflexivity).
  destruct (Hfail _ _ _ Hrun) as [[native ->] Hopen].
  eexists. split; [exact (Hopen "db1" [OpenSuccess] eq_refl eq_refl)|reflexivity].
Defined.

Lemma getAsList_absent_is_empty_witness :
  let t := IndexedDbTransaction.constructor (sample_transaction ReadOnly) in
  IndexedDbTransaction.getAsList ElementDataOS (JsString "k1") None t
    = (Fulfilled (JsArray []), t)
  /\ IndexedDbTransaction.getAsList SearchIndexMetaDataOS (JsString "word")
       (Some SearchIndexWordsIndex) t
     = (Fulfilled (JsArray []), t).
Proof.
  split.
  - refine (proj2 (getAsList_absent_is_empty
                     (IndexedDbTransaction.constructor (sample_transaction ReadOnly))
                     ElementDataOS (new_store no_options) (JsString "k1") (KStr "k1")
                     None _ eq_refl eq_refl)).
    vm_compute. reflexivity.
  - refine (proj2 (getAsList_absent_is_empty
                     (IndexedDbTransaction.constructor (sample_transaction ReadOnly))
                     SearchIndexMetaDataOS
                     {| os_keyPath := Some "id";
                        os_autoIncrement := true;
                        os_generator := 1;
                        os_records := [];
                        os_indexes :=
                          {[ SearchIndexWordsIndex :=
                               {| ix_keyPath := "word"; ix_unique := true |} ]} |}
                     (JsString "word") (KStr "word")
                     (Some SearchIndexWordsIndex) _ eq_refl _)).
    + vm_compute. reflexivity.
    + eexists. split; [vm_compute; reflexivity|reflexivity].
Defined.

Lemma failures_are_DbErrors_witness :
  only_DbError
    (fst (fst (DbFacade.open "db1" (OpenThrew InvalidStateError)
                 (DbFacade.constructor true true)))) = true
  /\ only_DbError
       (fst (IndexedDbTransaction.put ElementDataOS (JsString "k1") (JsNumber 1)
               (IndexedDbTransaction.constructor (sample_transaction ReadOnly))))
     = true.
Proof.
  pose proof (failures_are_DbErrors (T := IDBTransaction)
                (DbFacade.constructor true true) "db1" (OpenThrew InvalidStateError)
                [] [DeleteSuccess] false [ElementDataOS]
                {| DbFacade.facade := DbFacade.constructor true true;
                   DbFacade.created := [] |}
                (Throws NotFoundError)
                {| DbFacade.facade := DbFacade.constructor true true;
                   DbFacade.created := [] |}
                (IndexedDbTransaction.constructor (sample_transaction ReadOnly))
                (sample_transaction ReadOnly) [TxAbort]
                ElementDataOS (JsString "k1") (JsNumber 1) None eq_refl)
    as (Hopen & _ & _ & _ & _ & _ & _ & Hput & _).
  split; [exact Hopen|exact (Hput eq_refl eq_refl)].
Defined.

Lemma getAsList_falsy_is_empty_witness :
  let t :=
    snd (IndexedDbTransaction.put ElementDataOS (JsString "zero") (JsNumber 0)
           (IndexedDbTransaction.constructor (sample_transaction ReadWrite))) in
  fst (IndexedDbTransaction.get ElementDataOS (JsString "zero") None t)
    = Fulfilled (JsNumber 0)
  /\ fst (IndexedDbTransaction.getAsList ElementDataOS (JsString "zero") None t)
     = Fulfilled (JsArray []).
Proof.
  cbn zeta.
  assert (Hget :
    fst (IndexedDbTransaction.get ElementDataOS (JsString "zero") None
           (snd (IndexedDbTransaction.put ElementDataOS (JsString "zero") (JsNumber 0)
                   (IndexedDbTransaction.constructor (sample_transaction ReadWrite)))))
    = Fulfilled (JsNumber 0)) by (vm_compute; reflexivity).
  split; [exact Hget|].
  exact (proj1 (proj2 (getAsList_falsy_is_empty _ ElementDataOS (JsString "zero") None
                         (JsNumber 0) Hget)) eq_refl).
Defined.

(** ** Runs of the model *)

Example open_new_database :
  DbFacade.open "db1" (OpenPlaced empty_database [OpenUpgradeNeeded 0; OpenSuccess])
    (DbFacade.constructor true true)
  = (Fulfilled tt,
     [CallOpen (Some "db1") DB_VERSION],
     {| supported := true; onupgrade := true; _id := Some "db1";
        _db := Loaded sample_database; _activeTransactions := 0 |}).
Proof. vm_compute. reflexivity. Qed.

Example open_unsupported :
  fst (fst (DbFacade.open "db1" (OpenPlaced empty_database [OpenSuccess])
              (DbFacade.constructor false true)))
  = Rejected (RejDbError (newDbError "indexedDB not supported" None)).
Proof. reflexivity. Qed.

Example open_twice_opens_once :
  let f := snd (DbFacade.open "db1"
                  (OpenPlaced empty_database [OpenUpgradeNeeded 0; OpenSuccess])
                  (DbFacade.constructor true true)) in
  DbFacade.open "db1" (OpenThrew InvalidStateError) f = (Fulfilled tt, [], f).
Proof. vm_compute. reflexivity. Qed.

Example getAll_in_key_order :
  let t0 := IndexedDbTransaction.constructor (sample_transaction ReadWrite) in
  let t1 := snd (IndexedDbTransaction.put ElementDataOS (JsString "b") (JsNumber 2) t0) in
  let t2 := snd (IndexedDbTransaction.put ElementDataOS (JsNumber 7) (JsNumber 3) t1) in
  let t3 := snd (IndexedDbTransaction.put ElementDataOS (JsString "a") (JsNumber 1) t2) in
  fst (IndexedDbTransaction.getAll ElementDataOS t3)
  = Fulfilled [(JsNumber 7, JsNumber 3);
               (JsString "a", JsNumber 1);
               (JsString "b", JsNumber 2)].
Proof. vm_compute. reflexivity. Qed.

Example put_generates_inline_key :
  let t0 := IndexedDbTransaction.constructor (sample_transaction ReadWrite) in
  let value := JsObject [("word", JsString "hello")] in
  let '(p, t1) := IndexedDbTransaction.put SearchIndexMetaDataOS JsNull value t0 in
  p = Fulfilled (JsNumber 1)
  /\ fst (IndexedDbTransaction.get SearchIndexMetaDataOS (JsString "hello")
            (Some SearchIndexWordsIndex) t1)
     = Fulfilled (JsObject [("word", JsString "hello"); ("id", JsNumber 1)]).
Proof. vm_compute. split; reflexivity. Qed.

Example put_unique_index_violation :
  let t0 := IndexedDbTransaction.constructor (sample_transaction ReadWrite) in
  let value := JsObject [("word", JsString "hello")] in
  let t1 := snd (IndexedDbTransaction.put SearchIndexMetaDataOS JsNull value t0) in
  exists d,
    fst (IndexedDbTransaction.put SearchIndexMetaDataOS JsNull value t1)
      = Rejected (RejDbError d)
    /\ error d = Some (NatError ConstraintError)
    /\ containsb SearchIndexMetaDataOS (message d) = true.
Proof. eexists. vm_compute. repeat split; reflexivity. Qed.

(** With 2^53 stored under an explicit key the generator is used up: the
    next [put] without key fails with a ConstraintError, both on the store
    with out-of-line keys and on the one with a key path. *)
Example put_after_last_generated_key :
  let t0 := IndexedDbTransaction.constructor
              (transaction_on [SearchIndexOS; SearchIndexMetaDataOS] ReadWrite) in
  let t1 := snd (IndexedDbTransaction.put SearchIndexOS (JsNumber MAX_GENERATED_KEY)
                   (JsString "last") t0) in
  let t2 := snd (IndexedDbTransaction.put SearchIndexMetaDataOS JsNull
                   (JsObject [("id", JsNumber MAX_GENERATED_KEY);
                              ("word", JsString "last")]) t0) in
  (exists d,
     fst (IndexedDbTransaction.put SearchIndexOS JsNull (JsString "next") t1)
       = Rejected (RejDbError d)
     /\ error d = Some (NatError ConstraintError))
  /\ (exists d,
        fst (IndexedDbTransaction.put SearchIndexMetaDataOS JsNull
               (JsObject [("word", JsString "next")]) t2)
          = Rejected (RejDbError d)
        /\ error d = Some (NatError ConstraintError))
  /\ fst (IndexedDbTransaction.put SearchIndexOS JsNull (JsString "first") t0)
     = Fulfilled (JsNumber 1).
Proof.
  cbn zeta. split; [|split].
  - eexists. split; [vm_compute; reflexivity|reflexivity].
  - eexists. split; [vm_compute; reflexivity|reflexivity].
  - vm_compute. reflexivity.
Qed.

(** A cursor position fired after the end of the cursor lands in the
    array [getAll] has resolved with. *)
Example getAll_push_after_end :
  IndexedDbTransaction.getAll_settle ElementDataOS
    (Placed [ReqSuccess (Some (JsString "a", JsNumber 1));
             ReqSuccess None;
             ReqSuccess (Some (JsString "b", JsNumber 2));
             ReqSuccess None])
  = Fulfilled [(JsString "a", JsNumber 1); (JsString "b", JsNumber 2)].
Proof. reflexivity. Qed.

Example put_in_readonly_transaction :
  exists d,
    fst (IndexedDbTransaction.put ElementDataOS (JsString "k1") (JsNumber 1)
           (IndexedDbTransaction.constructor (sample_transaction ReadOnly)))
      = Rejected (RejDbError d)
    /\ error d = Some (NatError ReadOnlyError).
Proof. eexists. vm_compute. split; reflexivity. Qed.

Example delete_then_get :
  let t0 := IndexedDbTransaction.constructor (sample_transaction ReadWrite) in
  let t1 := snd (IndexedDbTransaction.put ElementDataOS (JsString "k1") (JsNumber 1) t0) in
  let t2 := snd (IndexedDbTransaction.delete ElementDataOS (JsString "k1") t1) in
  fst (IndexedDbTransaction.get ElementDataOS (JsString "k1") None t2)
  = Fulfilled JsUndefined.
Proof. vm_compute. reflexivity. Qed.

Example createTransaction_unknown_store :
  let s := {| DbFacade.facade := loaded_facade 0; DbFacade.created := [] |} in
  DbFacade.createTransaction false ["Missing"] (Fulfilled sample_database) s
  = (Rejected (RejDbError (newDbError "could not create transaction"
                             (Some (NatError NotFoundError)))),
     s).
Proof. vm_compute. reflexivity. Qed.

(** ** Autostart entry *)

Section AutoLaunch.
Import AutoLauncherLinux.

Example sample_desktop_path :
  linuxDesktopPath (sample_platform None)
  = "/home/user/.config/autostart/tutanota-desktop.desktop"
  /\ path_dirname (sample_platform None) (linuxDesktopPath (sample_platform None))
     = "/home/user/.config/autostart".
Proof. split; vm_compute; reflexivity. Qed.

(** X1: [isAutoLaunchEnabled] never rejects: it resolves with [true] when
    [fs.access] on the desktop file with mode [F_OK | W_OK | R_OK] (6)
    reports no error and with [false] for every error. *)
Theorem isAutoLaunchEnabled_never_rejects
    {S : Type} `{FileSystem S} (pf : Platform) (s : S) :
  exists b,
    isAutoLaunchEnabled pf s = Resolves b
    /\ (b = true <-> fs_access (linuxDesktopPath pf) 6 s = None)
    /\ (b = false <-> exists e, fs_access (linuxDesktopPath pf) 6 s = Some e).
Proof.
  unfold isAutoLaunchEnabled.
  change (Z.lor (Z.lor F_OK W_OK) R_OK) with 6.
  destruct (fs_access (linuxDesktopPath pf) 6 s) as [e|]; cbn.
  - exists false. repeat split; try discriminate; eauto.
  - exists true. repeat split; try discriminate; auto.
    intros [e He]. discriminate.
Qed.

(** X2: [disableAutoLaunch] resolves when [fs.unlink] succeeds and when it
    fails with code [ENOENT]; an error with any other code rejects the
    promise with that very error. *)
Theorem disableAutoLaunch_rethrows_all_but_ENOENT
    {S : Type} `{FileSystem S} (pf : Platform) (s : S) :
  (fst (fs_unlink (linuxDesktopPath pf) s) = None ->
     fst (disableAutoLaunch pf s) = Resolves tt)
  /\ (forall e,
        fst (fs_unlink (linuxDesktopPath pf) s) = Some e ->
        code e = "ENOENT" ->
        fst (disableAutoLaunch pf s) = Resolves tt)
  /\ (forall e,
        fst (fs_unlink (linuxDesktopPath pf) s) = Some e ->
        code e <> "ENOENT" ->
        fst (disableAutoLaunch pf s) = RejectsWith e)
  /\ snd (disableAutoLaunch pf s) = snd (fs_unlink (linuxDesktopPath pf) s).
Proof.
  unfold disableAutoLaunch.
  destruct (fs_unlink (linuxDesktopPath pf) s) as [err s1]. cbn [fst snd].
  split; [intros ->; reflexivity|].
  split.
  { intros e -> Hc. cbn. rewrite Hc. reflexivity. }
  split; [|reflexivity].
  intros e -> Hc. cbn.
  destruct (String.eqb_spec (code e) "ENOENT") as [E|E]; [contradiction|reflexivity].
Qed.

Section OnDisk.
Variable pf : Platform.

#[local] Instance platform_disk : FileSystem Disk := disk_fs (path_dirname pf).

(** X3: on the reference file system, [disableAutoLaunch] on a disk without
    the desktop file resolves and changes nothing; on a writable disk with
    the file it resolves and removes the file, after which
    [isAutoLaunchEnabled] resolves with [false] and a second
    [disableAutoLaunch] resolves again. *)
Theorem disableAutoLaunch_idempotent (d : Disk) :
  (files d !! linuxDesktopPath pf = None ->
     disableAutoLaunch pf d = (Resolves tt, d))
  /\ (is_Some (files d !! linuxDesktopPath pf) -> read_only d = false ->
      exists d',
        disableAutoLaunch pf d = (Resolves tt, d')
        /\ files d' = base.delete (linuxDesktopPath pf) (files d)
        /\ dirs d' = dirs d
        /\ isAutoLaunchEnabled pf d' = Resolves false
        /\ disableAutoLaunch pf d' = (Resolves tt, d')).
Proof.
  split.
  - intros Hnone. unfold disableAutoLaunch. cbn [fs_unlink platform_disk disk_fs].
    unfold disk_unlink. rewrite Hnone. reflexivity.
  - intros [file Hfile] Hrw. eexists. split.
    { unfold disableAutoLaunch. cbn [fs_unlink platform_disk disk_fs].
      unfold disk_unlink. rewrite Hfile, Hrw. reflexivity. }
    split; [reflexivity|]. split; [reflexivity|]. split.
    + unfold isAutoLaunchEnabled. cbn [fs_access platform_disk disk_fs].
      unfold disk_access. cbn [files]. rewrite lookup_delete_eq. reflexivity.
    + unfold disableAutoLaunch. cbn [fs_unlink platform_disk disk_fs].
      unfold disk_unlink. cbn [files]. rewrite lookup_delete_eq. reflexivity.
Qed.

Lemma enableAutoLaunch_ok (d : Disk) :
  read_only d = false ->
  match files d !! linuxDesktopPath pf with
  | Some file => writable file = true
  | None => True
  end ->
  enableAutoLaunch pf d =
  (Resolves tt,
   {| files :=
        <[linuxDesktopPath pf :=
            {| content := desktopEntry pf;
               readable := match files d !! linuxDesktopPath pf with
                           | Some file => readable file
                           | None => true
                           end;
               writable := true |}]> (files d);
      dirs := if bool_decide (path_dirname pf (linuxDesktopPath pf) ∈ dirs d)
              then dirs d
              else {[path_dirname pf (linuxDesktopPath pf)]} ∪ dirs d;
      read_only := false |}).
Proof.
  intros Hrw Hfile. unfold enableAutoLaunch.
  cbn [fs_ensureDirSync fs_writeFileSync platform_disk disk_fs].
  unfold disk_ensureDirSync.
  destruct (bool_decide (path_dirname pf (linuxDesktopPath pf) ∈ dirs d)) eqn:Hin.
  - unfold disk_writeFileSync. rewrite Hrw, Hin. cbn [negb].
    destruct (files d !! linuxDesktopPath pf) as [file|]; [rewrite Hfile|]; reflexivity.
  - rewrite Hrw. unfold disk_writeFileSync. cbn [files dirs read_only].
    rewrite bool_decide_eq_true_2 by set_solver. cbn [negb].
    destruct (files d !! linuxDesktopPath pf) as [file|]; [rewrite Hfile|]; reflexivity.
Qed.

(** X4: on a writable reference file system on which the desktop file is
    absent, or present and both readable and writable, [enableAutoLaunch]
    resolves, the desktop file then holds exactly the desktop entry, no
    other file is touched, and [isAutoLaunchEnabled] resolves with
    [true]. *)
Theorem enableAutoLaunch_enables (d : Disk) :
  read_only d = false ->
  match files d !! linuxDesktopPath pf with
  | Some file => readable file && writable file = true
  | None => True
  end ->
  exists d',
    enableAutoLaunch pf d = (Resolves tt, d')
    /\ content <$> files d' !! linuxDesktopPath pf = Some (desktopEntry pf)
    /\ (forall other, other <> linuxDesktopPath pf ->
          files d' !! other = files d !! other)
    /\ isAutoLaunchEnabled pf d' = Resolves true.
Proof.
  intros Hrw Hfile. eexists. split.
  { apply enableAutoLaunch_ok; [exact Hrw|].
    destruct (files d !! linuxDesktopPath pf); [|exact I].
    apply andb_prop in Hfile. apply Hfile. }
  cbn [files].
  split; [rewrite lookup_insert_eq; reflexivity|].
  split; [intros other Hne; rewrite lookup_insert_ne by congruence; reflexivity|].
  unfold isAutoLaunchEnabled. cbn [fs_access platform_disk disk_fs].
  unfold disk_access. cbn [files read_only].
  rewrite lookup_insert_eq. cbn [readable writable].
  destruct (files d !! linuxDesktopPath pf) as [file|]; [|reflexivity].
  apply andb_prop in Hfile as [-> _]. reflexivity.
Qed.

Lemma disk_ensureDirSync_files (dir : string) (d : Disk) :
  files (snd (disk_ensureDirSync dir d)) = files d.
Proof.
  unfold disk_ensureDirSync.
  destruct (bool_decide _); [reflexivity|]. destruct (read_only d); reflexivity.
Qed.

Lemma disk_writeFileSync_failure (dirname : string -> string) (path data : string)
    (d : Disk) (e : FsError) :
  fst (disk_writeFileSync dirname path data d) = Some e ->
  snd (disk_writeFileSync dirname path data d) = d.
Proof.
  unfold disk_writeFileSync.
  destruct (read_only d); [reflexivity|].
  destruct (negb _); [reflexivity|].
  destruct (files d !! path) as [file|]; [destruct (writable file)|];
    cbn; try reflexivity; discriminate.
Qed.

(** X5: on the reference file system, whenever [enableAutoLaunch] rejects,
    no file has been created, removed or changed. *)
Theorem enableAutoLaunch_failure_keeps_files (d : Disk) (e : FsError) :
  fst (enableAutoLaunch pf d) = RejectsWith e ->
  files (snd (enableAutoLaunch pf d)) = files d.
Proof.
  unfold enableAutoLaunch.
  cbn [fs_ensureDirSync fs_writeFileSync platform_disk disk_fs].
  pose proof (disk_ensureDirSync_files (path_dirname pf (linuxDesktopPath pf)) d)
    as Hensure.
  destruct (disk_ensureDirSync _ d) as [[e1|] d1]; cbn [fst snd] in *;
    [intros _; exact Hensure|].
  pose proof (disk_writeFileSync_failure (path_dirname pf) (linuxDesktopPath pf)
                (desktopEntry pf) d1) as Hwrite.
  destruct (disk_writeFileSync _ _ _ d1) as [[e2|] d2]; cbn [fst snd] in *;
    [|discriminate].
  intros _. rewrite (Hwrite e2 eq_refl). exact Hensure.
Qed.

(** X6: on a writable reference file system without the desktop file,
    [enableAutoLaunch] followed by [disableAutoLaunch] resolves twice and
    leaves the files as they were; the autostart directory stays. *)
Theorem enable_then_disable (d : Disk) :
  read_only d = false ->
  files d !! linuxDesktopPath pf = None ->
  exists d1 d2,
    enableAutoLaunch pf d = (Resolves tt, d1)
    /\ disableAutoLaunch pf d1 = (Resolves tt, d2)
    /\ files d2 = files d
    /\ path_dirname pf (linuxDesktopPath pf) ∈ dirs d2
    /\ isAutoLaunchEnabled pf d2 = Resolves false.
Proof.
  intros Hrw Hnone. eexists. eexists. split.
  { apply enableAutoLaunch_ok; [exact Hrw|]. rewrite Hnone. exact I. }
  unfold disableAutoLaunch. cbn [fs_unlink platform_disk disk_fs].
  unfold disk_unlink. cbn [files read_only dirs]. rewrite lookup_insert_eq.
  split; [reflexivity|]. cbn [files dirs].
  split; [apply delete_insert_id; exact Hnone|].
  split.
  { destruct (bool_decide _) eqn:Hin; [apply bool_decide_eq_true_1 in Hin|]; set_solver. }
  unfold isAutoLaunchEnabled. cbn [fs_access platform_disk disk_fs].
  unfold disk_access. cbn [files].
  rewrite lookup_delete_eq. reflexivity.
Qed.

End OnDisk.

Lemma desktopEntry_lines (pf : Platform) :
  contains (tab +:+ "Exec=" +:+ autoStartPath pf +:+ " -a" +:+ nl) (desktopEntry pf)
  /\ contains (tab +:+ "Name=" +:+ app_name pf +:+ nl) (desktopEntry pf)
  /\ contains (tab +:+ "Version=" +:+ app_version pf +:+ nl) (desktopEntry pf).
Proof.
  split.
  { exists ("[Desktop Entry]" +:+ nl +:+ tab +:+ "Type=Application" +:+ nl +:+
            tab +:+ "Version=" +:+ app_version pf +:+ nl +:+
            tab +:+ "Name=" +:+ app_name pf +:+ nl +:+
            tab +:+ "Comment=" +:+ app_name pf +:+ " startup script" +:+ nl),
           (tab +:+ "StartupNotify=false" +:+ nl +:+ tab +:+ "Terminal=false").
    unfold desktopEntry. rewrite !append_assoc. reflexivity. }
  split.
  { exists ("[Desktop Entry]" +:+ nl +:+ tab +:+ "Type=Application" +:+ nl +:+
            tab +:+ "Version=" +:+ app_version pf +:+ nl),
           (tab +:+ "Comment=" +:+ app_name pf +:+ " startup script" +:+ nl +:+
            tab +:+ "Exec=" +:+ autoStartPath pf +:+ " -a" +:+ nl +:+
            tab +:+ "StartupNotify=false" +:+ nl +:+ tab +:+ "Terminal=false").
    unfold desktopEntry. rewrite !append_assoc. reflexivity. }
  exists ("[Desktop Entry]" +:+ nl +:+ tab +:+ "Type=Application" +:+ nl),
         (tab +:+ "Name=" +:+ app_name pf +:+ nl +:+
          tab +:+ "Comment=" +:+ app_name pf +:+ " startup script" +:+ nl +:+
          tab +:+ "Exec=" +:+ autoStartPath pf +:+ " -a" +:+ nl +:+
          tab +:+ "StartupNotify=false" +:+ nl +:+ tab +:+ "Terminal=false").
  unfold desktopEntry. rewrite !append_assoc. reflexivity.
Qed.

(** Whenever [enableAutoLaunch] resolves on the reference file system,
    the desktop file holds the desktop entry. *)
Lemma enableAutoLaunch_resolves_content (pf : Platform) (d d' : Disk) :
  enableAutoLaunch (H := platform_disk pf) pf d = (Resolves tt, d') ->
  exists file,
    files d' !! linuxDesktopPath pf = Some file
    /\ content file = desktopEntry pf.
Proof.
  unfold enableAutoLaunch.
  cbn [fs_ensureDirSync fs_writeFileSync platform_disk disk_fs].
  destruct (disk_ensureDirSync _ d) as [[e|] d1]; [discriminate|].
  unfold disk_writeFileSync.
  destruct (read_only d1); [discriminate|].
  destruct (bool_decide _); [|discriminate]. cbn [negb].
  destruct (files d1 !! linuxDesktopPath pf) as [file|].
  - destruct (writable file); [|discriminate]. intros [= <-].
    eexists. split; [apply lookup_insert_eq|reflexivity].
  - intros [= <-]. eexists. split; [apply lookup_insert_eq|reflexivity].
Qed.

(** X7: whenever [enableAutoLaunch] resolves on the reference file
    system, the desktop file it has written holds an [Exec] line that
    starts the program named by the environment variable [APPIMAGE] when
    that is set and not empty, and the executable of the process
    otherwise, with the argument [-a]; the file also carries the name and
    the version of the app.  Every such line starts with the tab it is
    indented by in the source. *)
Theorem desktopEntry_exec_line (pf : Platform) (d d' : Disk) :
  enableAutoLaunch (H := platform_disk pf) pf d = (Resolves tt, d') ->
  exists file,
    files d' !! linuxDesktopPath pf = Some file
    /\ (forall appimage,
          env_APPIMAGE pf = Some appimage -> appimage <> "" ->
          contains (tab +:+ "Exec=" +:+ appimage +:+ " -a" +:+ nl) (content file))
    /\ (env_APPIMAGE pf = None \/ env_APPIMAGE pf = Some "" ->
        contains (tab +:+ "Exec=" +:+ process_execPath pf +:+ " -a" +:+ nl)
          (content file))
    /\ contains (tab +:+ "Name=" +:+ app_name pf +:+ nl) (content file)
    /\ contains (tab +:+ "Version=" +:+ app_version pf +:+ nl) (content file).
Proof.
  intros Hrun.
  destruct (enableAutoLaunch_resolves_content pf d d' Hrun) as (file & Hfile & Hcontent).
  destruct (desktopEntry_lines pf) as (Hexec & Hname & Hversion).
  exists file. rewrite Hcontent. split; [exact Hfile|].
  split.
  { intros appimage Ha Hne.
    replace appimage with (autoStartPath pf); [exact Hexec|].
    unfold autoStartPath. rewrite Ha. cbn.
    destruct appimage; [contradiction|reflexivity]. }
  split.
  { intros Ha.
    replace (process_execPath pf) with (autoStartPath pf); [exact Hexec|].
    unfold autoStartPath. destruct Ha as [Ha|Ha]; rewrite Ha; reflexivity. }
  split; [exact Hname|exact Hversion].
Qed.

End AutoLaunch.

(** ** More on transactions *)

Section Cursor.
Context `{Host}.

Import IndexedDbTransaction.

Lemma getAll_steps_cursor objectStore (cs keys : list (JsValue * JsValue))
    (p : Settlement KeysArray) rest :
  fold_left (getAll_step objectStore) (cursor_events cs ++ rest) (keys, p) =
  fold_left (getAll_step objectStore) rest (keys ++ cs, p).
Proof.
  revert keys. induction cs as [|c cs IH]; intros keys.
  - cbn. rewrite app_nil_r. reflexivity.
  - cbn [cursor_events map app fold_left getAll_step].
    change (map (fun c => ReqSuccess (Some c)) cs) with (cursor_events cs).
    rewrite IH, <- app_assoc. reflexivity.
Qed.

Lemma getAll_collects_cursor (objectStore : string) (cs : list (JsValue * JsValue)) :
  getAll_settle objectStore (Placed (cursor_events cs ++ [ReqSuccess None]))
  = Fulfilled cs.
Proof.
  unfold getAll_settle. rewrite getAll_steps_cursor. reflexivity.
Qed.

(** X8: [getAll] pushes the position of the cursor at every [onsuccess]
    onto one array, in the order of the events, and resolves with that
    array when the cursor reports its end: with exactly the positions
    visited when nothing is fired after the end, as the engine has it.
    The promise is settled only once, so a later end or error changes
    nothing, but the array is the one the handler keeps pushing onto: a
    cursor position fired after the end shows up in the resolved array.
    As long as the end is not reported the promise stays pending, and an
    error of the request before the end rejects it with a [DbError]
    carrying the error, dropping what was collected. *)
Theorem getAll_collects_until_end
    (objectStore : string) (cs : list (JsValue * JsValue))
    (more : list (ReqEvent (option (JsValue * JsValue)))) :
  getAll_settle objectStore (Placed (cursor_events cs ++ [ReqSuccess None]))
    = Fulfilled cs
  /\ getAll_settle objectStore (Placed (cursor_events cs ++ ReqSuccess None :: more))
     = Fulfilled (cs ++ cursor_positions more)
  /\ getAll_settle objectStore (Placed (cursor_events cs)) = Pending
  /\ (forall ev e,
        exists d,
          getAll_settle objectStore
            (Placed (cursor_events cs ++ ReqError ev (Some e) :: more))
          = Rejected (RejDbError d)
          /\ error d = Some (NatError e)).
Proof.
  split; [apply getAll_collects_cursor|].
  unfold getAll_settle. split; [|split].
  - rewrite getAll_steps_cursor. cbn [fold_left getAll_step app nodeback].
    rewrite getAll_steps_settled by reflexivity. reflexivity.
  - rewrite <- (app_nil_r (cursor_events cs)), getAll_steps_cursor. reflexivity.
  - intros ev e. eexists. split.
    + rewrite getAll_steps_cursor. cbn [fold_left getAll_step].
      unfold getAll_onerror.
      rewrite getAll_lhs_truthy, getAll_steps_settled by reflexivity.
      reflexivity.
    + reflexivity.
Qed.

End Cursor.

Section ReferenceTransactions.
Context `{Host}.

Import IndexedDbTransaction.

Lemma records_lookup_remove_eq (k : Key) (rs : Records) :
  records_lookup k (records_remove k rs) = None.
Proof.
  induction rs as [|[k' v'] rs IH]; [reflexivity|]. cbn.
  destruct (key_compare k k') eqn:E; [exact IH| |]; cbn; rewrite E; exact IH.
Qed.

Lemma records_lookup_remove_ne (k k' : Key) (rs : Records) :
  k <> k' ->
  records_lookup k' (records_remove k rs) = records_lookup k' rs.
Proof.
  intros Hne. induction rs as [|[k0 v0] rs IH]; [reflexivity|]. cbn.
  destruct (key_compare k k0) eqn:E.
  - apply key_compare_eq in E as <-.
    destruct (key_compare k' k) eqn:E'; [|exact IH..].
    apply key_compare_eq in E'. congruence.
  - cbn. destruct (key_compare k' k0); [reflexivity|exact IH..].
  - cbn. destruct (key_compare k' k0); [reflexivity|exact IH..].
Qed.

(** X9: in a read-write transaction of the reference engine, [delete] of a
    valid key on a store of the scope resolves whether or not the key was
    there; afterwards [get] of that key resolves with [undefined], a
    second [delete] resolves as well, and what [get] returns for every
    other key and every other store is unchanged. *)
Theorem delete_then_get_absent
    (t : IndexedDbTransaction IDBTransaction) (name : string) (os : ObjectStore)
    (key : JsValue) (k : Key) :
  objectStore name (_transaction t) = Returns os ->
  tx_mode (_transaction t) = ReadWrite ->
  to_key key = Some k ->
  exists t1,
    delete name key t = (Fulfilled tt, t1)
    /\ get name key None t1 = (Fulfilled JsUndefined, t1)
    /\ fst (delete name key t1) = Fulfilled tt
    /\ (forall key' k',
          to_key key' = Some k' -> k' <> k ->
          fst (get name key' None t1) = fst (get name key' None t))
    /\ (forall other key',
          other <> name ->
          fst (get other key' None t1) = fst (get other key' None t)).
Proof.
  intros Hos Hmode Hk. eexists. split.
  { unfold delete. cbn [store_delete reference_engine]. unfold ref_store_delete.
    rewrite Hos, Hmode, Hk. reflexivity. }
  split.
  { unfold get. cbn [index_given store_get reference_engine _transaction
                       with_transaction].
    unfold ref_store_get. rewrite (objectStore_updated _ _ _ _ Hos), Hk.
    cbn [os_records with_records]. rewrite records_lookup_remove_eq. reflexivity. }
  split.
  { unfold delete. cbn [store_delete reference_engine _transaction with_transaction].
    unfold ref_store_delete. rewrite (objectStore_updated _ _ _ _ Hos).
    cbn [tx_mode update_store]. rewrite Hmode, Hk. reflexivity. }
  split.
  { intros key' k' Hk' Hne. unfold get.
    cbn [index_given store_get reference_engine _transaction with_transaction fst].
    unfold ref_store_get. rewrite (objectStore_updated _ _ _ _ Hos), Hos, Hk'.
    cbn [os_records with_records].
    rewrite records_lookup_remove_ne by congruence. reflexivity. }
  intros other key' Hne. unfold get.
  cbn [index_given store_get reference_engine _transaction with_transaction fst].
  unfold ref_store_get. rewrite objectStore_other by congruence.
  destruct (objectStore other (_transaction t)); [|reflexivity].
  destruct (to_key key'); reflexivity.
Qed.

Lemma transaction_started (objectStores : list string) (mode : Mode)
    (db : IDBDatabase) (tx : IDBTransaction) :
  transaction objectStores mode db = Returns tx ->
  tx = {| tx_mode := mode; tx_scope := objectStores;
          tx_stores := db_stores db; tx_finished := false |}
  /\ db_closed db = false
  /\ objectStores <> []
  /\ forall name, name ∈ objectStores -> is_Some (db_stores db !! name).
Proof.
  unfold transaction. destruct (db_closed db); [discriminate|].
  destruct (bool_decide (objectStores = [])) eqn:Hnil; [discriminate|].
  destruct (forallb _ objectStores) eqn:Hall; [|discriminate].
  intros [= <-]. split; [reflexivity|]. split; [reflexivity|].
  split; [apply bool_decide_eq_false_1 in Hnil; exact Hnil|].
  intros name Hin. rewrite forallb_forall in Hall.
  apply list_elem_of_In in Hin. apply Hall in Hin.
  apply bool_decide_eq_true_1 in Hin. exact Hin.
Qed.

Lemma objectStore_in_scope (name : string) (tx : IDBTransaction) :
  tx_finished tx = false -> name ∈ tx_scope tx ->
  is_Some (tx_stores tx !! name) ->
  exists os, objectStore name tx = Returns os.
Proof.
  intros Hf Hin [os Hos]. unfold objectStore.
  rewrite Hf, bool_decide_eq_true_2, Hos by exact Hin. eauto.
Qed.

(** X10: a transaction that [createTransaction] created with
    [readOnly = true] never writes: on the reference engine every [put]
    and every [delete] on it is rejected and leaves the transaction as it
    was.  [delete] is rejected with a [DbError], and so is [put] when the
    key and the value can be converted to strings; for a store of the
    transaction the cause is the engine's ReadOnlyError.  A [put] of a
    value that cannot be converted is rejected with the TypeError of the
    conversion. *)
Theorem readOnly_transaction_never_writes
    (objectStores : list string) (db : IDBDatabase)
    (s s' : DbFacade.System IDBTransaction) (i : nat) :
  DbFacade.createTransaction true objectStores (Fulfilled db) s = (Fulfilled i, s') ->
  exists t,
    DbFacade.created s' !! i = Some t
    /\ forall name key value,
         (exists r,
            put name key value t = (Rejected r, t)
            /\ (printable key = true -> printable value = true ->
                exists d,
                  r = RejDbError d
                  /\ (name ∈ objectStores ->
                      error d = Some (NatError ReadOnlyError)))
            /\ (printable key = true -> forall thrown,
                ToString value = Throws thrown ->
                r = RejNative (NatError thrown)))
         /\ (exists d,
               delete name key t = (Rejected (RejDbError d), t)
               /\ (name ∈ objectStores -> error d = Some (NatError ReadOnlyError))).
Proof.
  unfold DbFacade.createTransaction.
  destruct (transaction objectStores ReadOnly db) as [tx|e] eqn:Htx; [|discriminate].
  apply transaction_started in Htx as (-> & _ & _ & Hstores).
  cbn. intros [= <- <-]. eexists. split.
  { cbn. rewrite lookup_app_r by lia. rewrite Nat.sub_diag. reflexivity. }
  intros name key value.
  set (tx := {| tx_mode := ReadOnly; tx_scope := objectStores;
                tx_stores := db_stores db; tx_finished := false |}).
  assert (Hscope : name ∈ objectStores -> exists os, objectStore name tx = Returns os).
  { intros Hin. apply objectStore_in_scope; [reflexivity|exact Hin|].
    apply Hstores. exact Hin. }
  split.
  - unfold put, constructor. cbn [_transaction store_put reference_engine].
    assert (Hput : forall k,
               exists e, ref_store_put name value k tx = (Threw e, tx)
                         /\ (name ∈ objectStores -> e = ReadOnlyError)).
    { intros k. unfold ref_store_put.
      destruct (objectStore name tx) as [os|e] eqn:Hos.
      - exists ReadOnlyError. split; reflexivity.
      - exists e. split; [reflexivity|]. intros Hin.
        destruct (Hscope Hin) as [os Hos']. congruence. }
    destruct (truthy key); [destruct (Hput (Some key)) as (e & -> & He)
                           |destruct (Hput None) as (e & -> & He)];
      (destruct (put_threw name key value e) as (r & Hr & Hdb & Hnative);
       exists r; split; [rewrite Hr; reflexivity|]; split; [|exact Hnative];
       intros Hk Hv; destruct (Hdb Hk Hv) as (d & -> & Hcause);
       exists d; split; [reflexivity|]; intros Hin;
       rewrite Hcause, (He Hin); reflexivity).
  - unfold delete, constructor. cbn [_transaction store_delete reference_engine].
    unfold ref_store_delete.
    destruct (objectStore name tx) as [os|e] eqn:Hos.
    + eexists. split; [reflexivity|]. reflexivity.
    + eexists. split; [reflexivity|]. intros Hin.
      destruct (Hscope Hin) as [os Hos']. congruence.
Qed.

(** X11: [abort()] on a running transaction of the reference engine sets
    the [aborted] flag and leaves [wait()] as it is; afterwards [get],
    [getAll], [put] and [delete] are all rejected and change nothing:
    [get], [getAll] and [delete] with a [DbError] caused by the engine's
    InvalidStateError, [put] with the same when the key and the value can
    be converted to strings and with the TypeError of the conversion when
    the value cannot.  A second [abort()] lets the engine's exception
    through to the caller. *)
Theorem abort_finishes_transaction (t : IndexedDbTransaction IDBTransaction) :
  tx_finished (_transaction t) = false ->
  exists t1,
    abort t = (Returns tt, t1)
    /\ aborted t1 = true
    /\ wait t1 = wait t
    /\ (forall name key value indexName,
          (exists d, get name key indexName t1 = (Rejected (RejDbError d), t1)
                     /\ error d = Some (NatError InvalidStateError))
          /\ (exists d, getAll name t1 = (Rejected (RejDbError d), t1)
                        /\ error d = Some (NatError InvalidStateError))
          /\ (exists r,
                put name key value t1 = (Rejected r, t1)
                /\ (printable key = true -> printable value = true ->
                    exists d, r = RejDbError d
                              /\ error d = Some (NatError InvalidStateError))
                /\ (printable key = true -> forall thrown,
                    ToString value = Throws thrown ->
                    r = RejNative (NatError thrown)))
          /\ (exists d, delete name key t1 = (Rejected (RejDbError d), t1)
                        /\ error d = Some (NatError InvalidStateError)))
    /\ abort t1 = (Throws InvalidStateError, t1).
Proof.
  intros Hf. eexists. split.
  { unfold abort. cbn [transaction_abort reference_engine].
    unfold ref_transaction_abort. rewrite Hf. reflexivity. }
  split; [reflexivity|]. split; [reflexivity|]. split.
  - intros name key value indexName.
    split.
    { unfold get. cbn [_transaction]. destruct (index_given indexName);
        eexists; split; reflexivity. }
    split; [eexists; split; reflexivity|].
    split; [|eexists; split; reflexivity].
    destruct (put_threw name key value InvalidStateError) as (r & Hr & Hdb & Hnative).
    exists r. split; [|split; [exact Hdb|exact Hnative]].
    unfold put. cbn [_transaction]. destruct (truthy key);
      cbn [store_put reference_engine]; unfold ref_store_put, objectStore;
      cbn [tx_finished finish]; rewrite Hr; reflexivity.
  - reflexivity.
Qed.

End ReferenceTransactions.

(** ** More on the facade *)

Section Gate.
Context `{Host} {T : Type} `{Engine T}.

Import IndexedDbTransaction DbFacade.

Lemma pending_count_nonneg (s : System T) : 0 <= pending_count s.
Proof. unfold pending_count. lia. Qed.

Lemma pending_count_zero (f : DbFacade) (l : list (IndexedDbTransaction T)) :
  pending_count {| facade := f; created := l |} = 0 <->
  Forall (fun t => settled (wait t) = true) l.
Proof.
  induction l as [|t l IH].
  - split; [constructor|reflexivity].
  - rewrite pending_count_cons.
    pose proof (pending_count_nonneg {| facade := f; created := l |}) as Hn.
    unfold weight. split.
    + intros Hz. destruct (settled (wait t)) eqn:Hs; [|lia].
      constructor; [exact Hs|]. apply IH. lia.
    + intros Hall. inversion Hall as [|? ? Hs Hl]; subst.
      rewrite Hs. apply IH in Hl. lia.
Qed.

Lemma system_step_db (s : System T) (e : SystemEvent T) :
  _db (facade (system_step s e)) = _db (facade s).
Proof.
  destruct e as [[tx|err]|i e]; cbn; try reflexivity.
  unfold on_transaction_event. destruct (created s !! i); [|reflexivity].
  cbn. destruct (_ && _); reflexivity.
Qed.

Lemma run_db (es : list (SystemEvent T)) (s : System T) :
  _db (facade (run es s)) = _db (facade s).
Proof.
  revert s. induction es as [|e es IH]; intros s; [reflexivity|].
  cbn [run fold_left]. fold (run es (system_step s e)).
  rewrite IH. apply system_step_db.
Qed.

(** X12: for a facade with a loaded connection and any history of created
    transactions and engine events, the counter is never negative, and
    [deleteDatabase] closes the connection and asks the engine to delete
    the database at once exactly when [wait()] of every created
    transaction has settled; while one of them is pending it only starts
    a delay of 150ms. *)
Theorem deleteDatabase_waits_for_transactions
    (sup onup : bool) (id : option string) (db : IDBDatabase)
    (es : list (SystemEvent T)) (engine : list DeleteEvent) :
  let s :=
    run es {| facade := {| supported := sup; onupgrade := onup; _id := id;
                           _db := Loaded db; _activeTransactions := 0 |};
              created := [] |} in
  0 <= _activeTransactions (facade s)
  /\ (Forall (fun t => settled (wait t) = true) (created s) ->
      fst (fst (deleteDatabase [] engine (facade s)))
        = [CallClose (db_name db); CallDeleteDatabase (db_name db)])
  /\ (~ Forall (fun t => settled (wait t) = true) (created s) ->
      deleteDatabase [] engine (facade s) = ([Delay 150], Pending, facade s)).
Proof.
  cbn zeta.
  set (s0 := {| facade := _; created := [] |}).
  assert (Hc : counted (run es s0)) by (apply run_counted; reflexivity).
  assert (Hdb : _db (facade (run es s0)) = Loaded db) by (rewrite run_db; reflexivity).
  unfold counted in Hc.
  pose proof (pending_count_nonneg (run es s0)) as Hn.
  assert (Hz : pending_count (run es s0) = 0 <->
               Forall (fun t => settled (wait t) = true) (created (run es s0))).
  { destruct (run es s0) as [f l]. apply pending_count_zero. }
  split; [lia|]. split.
  - intros Hall. apply Hz in Hall.
    assert (Hidle : (_activeTransactions (facade (run es s0)) >? 0) = false)
      by (rewrite Z.gtb_ltb; apply Z.ltb_ge; lia).
    cbn [deleteDatabase]. rewrite Hdb. cbn [LazyLoaded.isLoaded LazyLoaded.getLoaded].
    rewrite Hidle. destruct (fold_left _ _ _). reflexivity.
  - intros Hnot.
    assert (Hbusy : (_activeTransactions (facade (run es s0)) >? 0) = true).
    { rewrite Z.gtb_ltb. apply Z.ltb_lt.
      destruct (Z.eq_dec (pending_count (run es s0)) 0) as [E|E]; [|lia].
      apply Hz in E. contradiction. }
    cbn [deleteDatabase]. rewrite Hdb. cbn [LazyLoaded.isLoaded].
    rewrite Hbusy. reflexivity.
Qed.

End Gate.

Section Lifecycle.
Context `{Host}.

Import DbFacade.

(** X13: a facade constructed with [supported = false] never calls
    [indexedDB.open]: every [open] is rejected with the [DbError]
    "indexedDB not supported" and has no effect on the engine, every
    [createTransaction] is rejected with the same error and counts
    nothing, and [deleteDatabase] resolves without doing anything. *)
Theorem unsupported_never_opens
    (f : DbFacade) (id : string) (answer : OpenOutcome) :
  supported f = false -> _db f = NotLoaded ->
  let unsupported := RejDbError (newDbError "indexedDB not supported" None) in
  exists f',
    open id answer f = (Rejected unsupported, [], f')
    /\ (forall id' answer',
          fst (open id' answer' f') = (Rejected unsupported, []))
    /\ (forall readOnly objectStores s,
          createTransaction readOnly objectStores (LazyLoaded.outcome (_db f')) s
          = (Rejected unsupported, s))
    /\ (forall ds engine, deleteDatabase ds engine f' = ([], Fulfilled tt, f')).
Proof.
  intros Hsup Hdb. cbn zeta. eexists. split.
  { unfold open. cbn [_db with_id]. rewrite Hdb. cbn [LazyLoaded.getAsync].
    unfold load. cbn [supported with_id]. rewrite Hsup. reflexivity. }
  split; [reflexivity|]. split; [reflexivity|].
  intros ds engine. destruct ds; reflexivity.
Qed.

(** X14: [open] puts the id it is given into the errors of the open
    request: when the engine fires [onerror] on the request, and when
    [indexedDB.open] throws, the promise is rejected with a [DbError]
    whose message contains the id and whose cause is the request's error
    or the exception. *)
Theorem open_errors_name_the_database
    (f : DbFacade) (id : string) :
  supported f = true -> _db f = NotLoaded ->
  (forall stored ev err more,
     exists d,
       fst (fst (open id (OpenPlaced stored (OpenError ev err :: more)) f))
         = Rejected (RejDbError d)
       /\ contains id (message d)
       /\ error d = cause_of_error err)
  /\ (forall e,
        exists d,
          fst (fst (open id (OpenThrew e) f)) = Rejected (RejDbError d)
          /\ contains id (message d)
          /\ error d = Some (NatError e)).
Proof.
  intros Hsup Hdb. split.
  - intros stored ev err more. eexists. split.
    + unfold open. cbn [_db with_id]. rewrite Hdb. cbn [LazyLoaded.getAsync fst].
      unfold load. cbn [supported with_id]. rewrite Hsup.
      cbn [negb fold_left open_step reject_with nodeback].
      destruct (fold_left _ _ _) as [[dbz logz] pz] eqn:Hfold.
      assert (Hp : pz = snd (dbz, logz, pz)) by reflexivity.
      rewrite <- Hfold, open_steps_settled in Hp by reflexivity.
      cbn [snd then_]. rewrite Hp. reflexivity.
    + cbn [message error newDbError]. split; [|reflexivity].
      unfold id_text. cbn [_id with_id default]. find_substring.
  - intros e. eexists. split.
    + unfold open. cbn [_db with_id]. rewrite Hdb. cbn [LazyLoaded.getAsync fst].
      unfold load. cbn [supported with_id]. rewrite Hsup. reflexivity.
    + cbn [message error newDbError]. split; [|reflexivity].
      unfold id_text. cbn [_id with_id default]. find_substring.
Qed.

(** X15: when the engine reports an error for the delete request,
    [deleteDatabase] rejects with a [DbError] and the lazy handle keeps
    the connection it has already closed: the handle still counts as
    loaded, and on the reference engine every [createTransaction] on it is
    rejected with a [DbError] caused by InvalidStateError. *)
Theorem failed_delete_leaves_closed_connection
    (f : DbFacade) (db : IDBDatabase) (ev : Event) :
  _db f = Loaded db -> _activeTransactions f <= 0 ->
  exists f',
    deleteDatabase [] [DeleteError ev] f
      = ([CallClose (db_name db); CallDeleteDatabase (db_name db)],
         Rejected (RejDbError
                     (newDbError ("could not delete database " +:+ db_name db)
                        (Some (NatEvent ev)))),
         f')
    /\ _db f' = Loaded (close db)
    /\ LazyLoaded.isLoaded (_db f') = true
    /\ forall readOnly objectStores s,
         createTransaction readOnly objectStores (LazyLoaded.outcome (_db f')) s
         = (Rejected (RejDbError
                        (newDbError "could not create transaction"
                           (Some (NatError InvalidStateError)))),
            s).
Proof.
  intros Hdb Hact. eexists. split.
  { cbn [deleteDatabase]. rewrite Hdb. cbn [LazyLoaded.isLoaded LazyLoaded.getLoaded].
    replace (_activeTransactions f >? 0) with false
      by (symmetry; rewrite Z.gtb_ltb; apply Z.ltb_ge; lia).
    reflexivity. }
  split; [reflexivity|]. split; [reflexivity|].
  intros readOnly objectStores s. reflexivity.
Qed.

Lemma create_stores_closed (db db' : IDBDatabase) (r : Result unit) :
  create_stores db = (r, db') -> db_closed db' = db_closed db.
Proof.
  unfold create_stores, bind, call, createObjectStore, createIndex.
  repeat match goal with
         | |- context [match ?m !! ?k with _ => _ end] =>
             destruct (m !! k); cbn [db_stores with_stores db_closed]
         end;
    intros [= <- <-]; reflexivity.
Qed.

Lemma onupgradeneeded_closed (f : DbFacade) (oldVersion : Z) (db : IDBDatabase)
    (log : list Effect) :
  db_closed (fst (fst (onupgradeneeded f oldVersion (db, log)))) = db_closed db.
Proof.
  unfold onupgradeneeded.
  destruct (negb (oldVersion =? DB_VERSION) && negb (oldVersion =? 0)).
  - destruct (deleteObjectStores_spec known_stores
                (fst (if onupgrade f then (fst (db, log), snd (db, log) ++ [CallOnUpgrade])
                      else (db, log)))
                (snd (if onupgrade f then (fst (db, log), snd (db, log) ++ [CallOnUpgrade])
                      else (db, log)))
                known_stores_NoDup) as (db1 & Hrun & _ & Hclosed & _).
    rewrite <- surjective_pairing in Hrun. rewrite Hrun.
    destruct (create_stores db1) as [r db2] eqn:Hc.
    apply create_stores_closed in Hc.
    destruct r; cbn [fst]; rewrite Hc, Hclosed; destruct (onupgrade f); reflexivity.
  - destruct (create_stores db) as [r db2] eqn:Hc.
    apply create_stores_closed in Hc. destruct r; exact Hc.
Qed.

(** X16: after [open] has resolved through an upgrade from a stored
    version other than 0 and the expected one, [createTransaction] on any
    non-empty list of the six store names, read-only or not, resolves with
    a new transaction and counts it. *)
Theorem open_then_createTransaction
    (f : DbFacade) (id : string) (stored : IDBDatabase) (oldVersion : Z) :
  supported f = true -> _db f = NotLoaded -> db_closed stored = false ->
  oldVersion <> DB_VERSION -> oldVersion <> 0 ->
  exists log f' db',
    open id (OpenPlaced stored [OpenUpgradeNeeded oldVersion; OpenSuccess]) f
      = (Fulfilled tt, log, f')
    /\ _db f' = Loaded db'
    /\ forall readOnly objectStores (s : System IDBTransaction),
         objectStores <> [] ->
         (forall name, name ∈ objectStores -> name ∈ known_stores) ->
         exists s',
           createTransaction readOnly objectStores (LazyLoaded.outcome (_db f')) s
             = (Fulfilled (length (created s)), s')
           /\ _activeTransactions (facade s') = _activeTransactions (facade s) + 1
           /\ length (created s') = S (length (created s)).
Proof.
  intros Hsup Hdb Hclosed Hv H0.
  destruct (onupgradeneeded_wipe f oldVersion stored [CallOpen (Some id) DB_VERSION] Hv H0)
    as (db' & Hrun & Hlook).
  pose proof (onupgradeneeded_closed f oldVersion stored [CallOpen (Some id) DB_VERSION])
    as Hc. rewrite Hrun in Hc. cbn [fst] in Hc.
  eexists. eexists. exists db'. split.
  { unfold open. cbn [_db with_id]. rewrite Hdb. cbn [LazyLoaded.getAsync].
    unfold load. cbn [supported with_id _id]. rewrite Hsup.
    cbn [negb fold_left open_step].
    change (onupgradeneeded (with_id f id) oldVersion)
      with (onupgradeneeded f oldVersion).
    rewrite Hrun. cbn. reflexivity. }
  split; [reflexivity|].
  intros readOnly objectStores s Hne Hknown.
  cbn [_db with_db LazyLoaded.outcome createTransaction].
  assert (Htx : exists tx,
             transaction objectStores (if readOnly then ReadOnly else ReadWrite) db'
             = Returns tx).
  { unfold transaction. rewrite Hc, Hclosed.
    rewrite bool_decide_eq_false_2 by exact Hne.
    replace (forallb _ objectStores) with true; [eauto|].
    symmetry. apply forallb_forall. intros name Hin.
    apply bool_decide_eq_true_2. rewrite Hlook.
    apply list_elem_of_In, Hknown, current_store_known in Hin.
    destruct Hin as [os ->]. eauto. }
  destruct Htx as [tx ->]. eexists. split; [reflexivity|].
  cbn. split; [reflexivity|]. rewrite length_app. cbn. lia.
Qed.

End Lifecycle.

(** ** Generated keys *)

Section GeneratedKeys.
Context `{Host}.

Import IndexedDbTransaction.

Lemma records_lookup_In (k : Key) (v : JsValue) (rs : Records) :
  records_lookup k rs = Some v -> In (k, v) rs.
Proof.
  induction rs as [|[k' v'] rs IH]; [discriminate|]. cbn.
  destruct (key_compare k k') eqn:E.
  - apply key_compare_eq in E as <-. intros [= <-]. left. reflexivity.
  - intros Hl. right. apply IH. exact Hl.
  - intros Hl. right. apply IH. exact Hl.
Qed.

Lemma records_insert_In (k : Key) (v : JsValue) (rs : Records) (r : Key * JsValue) :
  In r (records_insert k v rs) -> r = (k, v) \/ In r rs.
Proof.
  induction rs as [|[k' v'] rs IH]; cbn.
  - intros [<-|[]]. left. reflexivity.
  - destruct (key_compare k k'); cbn.
    + intros [<-|Hin]; auto.
    + intros [<-|[<-|Hin]]; auto.
    + intros [<-|Hin]; [auto|]. apply IH in Hin as [->|Hin]; auto.
Qed.

Lemma generator_fresh_absent (os : ObjectStore) :
  os_autoIncrement os = true -> generator_fresh os = true ->
  records_lookup (KNum (os_generator os)) (os_records os) = None.
Proof.
  intros Hauto Hfresh. unfold generator_fresh in Hfresh.
  rewrite Hauto in Hfresh. cbn [negb orb] in Hfresh.
  destruct (records_lookup _ _) as [v|] eqn:Hl; [|reflexivity].
  apply records_lookup_In in Hl. rewrite forallb_forall in Hfresh.
  apply Hfresh in Hl. cbn in Hl. apply Z.ltb_lt in Hl. lia.
Qed.

Lemma generator_fresh_next (os : ObjectStore) (value : JsValue) :
  generator_fresh os = true ->
  generator_fresh
    (with_records os
       (records_insert (KNum (os_generator os)) value (os_records os))
       (os_generator os + 1)) = true.
Proof.
  unfold generator_fresh. cbn [os_autoIncrement os_records os_generator with_records].
  destruct (os_autoIncrement os); [|reflexivity]. cbn [negb orb].
  rewrite !forallb_forall. intros Hfresh r Hin.
  apply records_insert_In in Hin as [->|Hin].
  - cbn. apply Z.ltb_lt. lia.
  - apply Hfresh in Hin. destruct (fst r); [|reflexivity].
    apply Z.ltb_lt in Hin. apply Z.ltb_lt. lia.
Qed.

Lemma falsy_primitive (v : JsValue) : truthy v = false -> primitive v = true.
Proof. destruct v; cbn; congruence. Qed.

Lemma generate_key_next (os : ObjectStore) (stored : Z -> JsValue) :
  os_generator os <= MAX_GENERATED_KEY ->
  generate_key os stored
  = Resolved (KNum (os_generator os)) (stored (os_generator os)) (os_generator os + 1).
Proof.
  intros Hle. unfold generate_key.
  destruct (Z.ltb_spec MAX_GENERATED_KEY (os_generator os)); [lia|reflexivity].
Qed.

Lemma generate_key_exhausted (os : ObjectStore) (stored : Z -> JsValue) :
  MAX_GENERATED_KEY < os_generator os ->
  generate_key os stored = GeneratorExhausted.
Proof.
  intros Hlt. unfold generate_key.
  destruct (Z.ltb_spec MAX_GENERATED_KEY (os_generator os)); [reflexivity|lia].
Qed.

(** A [put] without key on a store whose generator is used up: the
    request fails with a ConstraintError, which ends the transaction, and
    nothing is stored. *)
Lemma put_generator_exhausted
    (t : IndexedDbTransaction IDBTransaction) (name : string) (os : ObjectStore)
    (key value : JsValue) :
  objectStore name (_transaction t) = Returns os ->
  tx_mode (_transaction t) = ReadWrite ->
  truthy key = false ->
  resolve_key os value None = GeneratorExhausted ->
  exists d t1,
    put name key value t = (Rejected (RejDbError d), t1)
    /\ error d = Some (NatError ConstraintError)
    /\ tx_stores (_transaction t1) = tx_stores (_transaction t)
    /\ tx_finished (_transaction t1) = true.
Proof.
  intros Hos Hmode Hfalsy Hkey.
  destruct (ToString_primitive key (falsy_primitive key Hfalsy)) as [key_text Htext].
  eexists. eexists. split.
  { unfold put. rewrite Hfalsy. cbn [store_put reference_engine].
    unfold ref_store_put. rewrite Hos, Hmode, Hkey.
    cbn [put_settle fold_left put_step]. rewrite Htext. reflexivity. }
  split; [reflexivity|]. split; reflexivity.
Qed.

(** X17: [put] with an omitted (falsy) key on a store with out-of-line
    keys and a key generator files the value under the generator's next
    key and resolves with it, as long as that key is at most 2^53.  On
    the reference engine, when the numeric keys of the store are below
    that key, nothing was stored under it before, so no record is
    overwritten: [get] of every other key returns what it returned
    before, and the numeric keys stay below the next key of the
    generator.  Once the generator has passed 2^53 the same [put] is
    rejected with a [DbError] caused by the engine's ConstraintError and
    stores nothing. *)
Theorem put_without_key_never_overwrites
    (t : IndexedDbTransaction IDBTransaction) (name : string) (os : ObjectStore)
    (key value : JsValue) :
  objectStore name (_transaction t) = Returns os ->
  tx_mode (_transaction t) = ReadWrite ->
  os_keyPath os = None ->
  os_autoIncrement os = true ->
  generator_fresh os = true ->
  truthy key = false ->
  (os_generator os <= MAX_GENERATED_KEY ->
   violates_unique os (KNum (os_generator os)) value = false ->
   exists t1 os1,
     put name key value t = (Fulfilled (JsNumber (os_generator os)), t1)
     /\ records_lookup (KNum (os_generator os)) (os_records os) = None
     /\ get name (JsNumber (os_generator os)) None t1 = (Fulfilled value, t1)
     /\ (forall key' k',
           to_key key' = Some k' -> k' <> KNum (os_generator os) ->
           fst (get name key' None t1) = fst (get name key' None t))
     /\ objectStore name (_transaction t1) = Returns os1
     /\ os_generator os1 = os_generator os + 1
     /\ generator_fresh os1 = true)
  /\ (MAX_GENERATED_KEY < os_generator os ->
      exists d t1,
        put name key value t = (Rejected (RejDbError d), t1)
        /\ error d = Some (NatError ConstraintError)
        /\ tx_stores (_transaction t1) = tx_stores (_transaction t)).
Proof.
  intros Hos Hmode Hpath Hauto Hfresh Hfalsy. split; cycle 1.
  { intros Hlt.
    destruct (put_generator_exhausted t name os key value Hos Hmode Hfalsy)
      as (d & t1 & Hput & Hcause & Hstores & _).
    - unfold resolve_key. rewrite Hpath, Hauto. apply generate_key_exhausted, Hlt.
    - exists d, t1. split; [exact Hput|]. split; [exact Hcause|exact Hstores]. }
  intros Hle Huniq.
  eexists. eexists. split.
  { unfold put. rewrite Hfalsy. cbn [store_put reference_engine].
    unfold ref_store_put. rewrite Hos, Hmode. unfold resolve_key.
    rewrite Hpath, Hauto, generate_key_next by exact Hle.
    rewrite Huniq. reflexivity. }
  split; [apply generator_fresh_absent; assumption|].
  split.
  { unfold get. cbn [index_given store_get reference_engine _transaction
                       with_transaction].
    unfold ref_store_get. rewrite (objectStore_updated _ _ _ _ Hos).
    cbn [to_key os_records with_records]. rewrite records_lookup_insert_eq.
    reflexivity. }
  split.
  { intros key' k' Hk' Hne. unfold get.
    cbn [index_given store_get reference_engine _transaction with_transaction fst].
    unfold ref_store_get. rewrite (objectStore_updated _ _ _ _ Hos), Hos, Hk'.
    cbn [os_records with_records].
    rewrite records_lookup_insert_ne by congruence. reflexivity. }
  split; [cbn [_transaction with_transaction]; apply (objectStore_updated _ _ _ _ Hos)|].
  split; [reflexivity|]. apply generator_fresh_next. exact Hfresh.
Qed.

Lemma get_prop_set_prop (p : string) (v : JsValue) (fields : list (string * JsValue)) :
  get_prop (JsObject (set_prop p v fields)) p = v.
Proof.
  unfold get_prop. induction fields as [|[q w] fields IH]; cbn.
  - rewrite String.eqb_refl. reflexivity.
  - destruct (String.eqb p q) eqn:E; cbn; rewrite E; [reflexivity|exact IH].
Qed.

(** X18: on a store with a key path and a key generator (the metadata
    store), [put] with a truthy key is rejected and stores nothing: with
    a [DbError] caused by the engine's DataError when the key and the
    object can be converted to strings, with the TypeError of the
    conversion when the object cannot.  [put] with an omitted key and an
    object without the key property resolves with the generated key, as
    long as that is at most 2^53, and [get] of that key returns the
    object with the key written into its key property; once the generator
    has passed 2^53 the [put] is rejected with a [DbError] caused by the
    engine's ConstraintError and stores nothing. *)
Theorem put_on_keyPath_store
    (t : IndexedDbTransaction IDBTransaction) (name path : string) (os : ObjectStore)
    (key : JsValue) (fields : list (string * JsValue)) :
  objectStore name (_transaction t) = Returns os ->
  tx_mode (_transaction t) = ReadWrite ->
  os_keyPath os = Some path ->
  os_autoIncrement os = true ->
  (truthy key = true ->
     exists r,
       put name key (JsObject fields) t = (Rejected r, t)
       /\ (printable key = true -> printable (JsObject fields) = true ->
           exists d, r = RejDbError d /\ error d = Some (NatError DataError))
       /\ (printable key = true -> forall thrown,
           ToString (JsObject fields) = Throws thrown ->
           r = RejNative (NatError thrown)))
  /\ (truthy key = false ->
      get_prop (JsObject fields) path = JsUndefined ->
      os_generator os <= MAX_GENERATED_KEY ->
      let stored := JsObject (set_prop path (JsNumber (os_generator os)) fields) in
      violates_unique os (KNum (os_generator os)) stored = false ->
      exists t1,
        put name key (JsObject fields) t = (Fulfilled (JsNumber (os_generator os)), t1)
        /\ get name (JsNumber (os_generator os)) None t1 = (Fulfilled stored, t1)
        /\ get_prop stored path = JsNumber (os_generator os))
  /\ (truthy key = false ->
      get_prop (JsObject fields) path = JsUndefined ->
      MAX_GENERATED_KEY < os_generator os ->
      exists d t1,
        put name key (JsObject fields) t = (Rejected (RejDbError d), t1)
        /\ error d = Some (NatError ConstraintError)
        /\ tx_stores (_transaction t1) = tx_stores (_transaction t)).
Proof.
  intros Hos Hmode Hpath Hauto. split; [|split].
  - intros Htruthy.
    destruct (put_threw name key (JsObject fields) DataError)
      as (r & Hr & Hdb & Hnative).
    exists r. split; [|split; [exact Hdb|exact Hnative]].
    unfold put. rewrite Htruthy. cbn [store_put reference_engine].
    unfold ref_store_put. rewrite Hos, Hmode. unfold resolve_key. rewrite Hpath.
    rewrite Hr, with_transaction_same. reflexivity.
  - intros Hfalsy Hprop Hle stored Huniq. eexists. split.
    { unfold put. rewrite Hfalsy. cbn [store_put reference_engine].
      unfold ref_store_put. rewrite Hos, Hmode. unfold resolve_key.
      rewrite Hpath, Hprop, Hauto, generate_key_next by exact Hle.
      fold stored. rewrite Huniq. reflexivity. }
    split.
    { unfold get. cbn [index_given store_get reference_engine _transaction
                         with_transaction].
      unfold ref_store_get. rewrite (objectStore_updated _ _ _ _ Hos).
      cbn [to_key os_records with_records]. rewrite records_lookup_insert_eq.
      reflexivity. }
    apply get_prop_set_prop.
  - intros Hfalsy Hprop Hlt.
    destruct (put_generator_exhausted t name os key (JsObject fields) Hos Hmode Hfalsy)
      as (d & t1 & Hput & Hcause & Hstores & _).
    + unfold resolve_key. rewrite Hpath, Hprop, Hauto.
      apply generate_key_exhausted, Hlt.
    + exists d, t1. split; [exact Hput|]. split; [exact Hcause|exact Hstores].
Qed.

End GeneratedKeys.

(** ** Key order *)

Section KeyOrder.
Context `{Host}.

Import IndexedDbTransaction.

Lemma key_compare_antisym (a b : Key) :
  key_compare a b = CompOpp (key_compare b a).
Proof.
  destruct a as [x|x], b as [y|y]; cbn; try reflexivity.
  - apply Z.compare_antisym.
  - apply String.compare_antisym.
Qed.

Lemma key_compare_trans (a b c : Key) :
  key_compare a b = Lt -> key_compare b c = Lt -> key_compare a c = Lt.
Proof.
  destruct a as [x|x], b as [y|y], c as [z|z]; cbn; try congruence.
  - rewrite !Z.compare_lt_iff. lia.
  - change (String.compare x y) with (OrderedTypeEx.String_as_OT.cmp x y).
    change (String.compare y z) with (OrderedTypeEx.String_as_OT.cmp y z).
    change (String.compare x z) with (OrderedTypeEx.String_as_OT.cmp x z).
    rewrite !OrderedTypeEx.String_as_OT.cmp_lt.
    apply OrderedTypeEx.String_as_OT.lt_trans.
Qed.

Lemma below_lt (k : Key) (r : Key * JsValue) :
  below k r = true <-> key_compare k (fst r) = Lt.
Proof. unfold below. destruct (key_compare k (fst r)); split; congruence. Qed.

Lemma records_sorted_cons (k : Key) (v : JsValue) (rs : Records) :
  records_sorted ((k, v) :: rs) = true <->
  (forall r, In r rs -> key_compare k (fst r) = Lt) /\ records_sorted rs = true.
Proof.
  cbn [records_sorted].
  rewrite andb_true_iff, forallb_forall.
  split; intros [Hb Hs]; (split; [|exact Hs]); intros r Hin;
    apply below_lt, Hb, Hin.
Qed.

Lemma records_remove_In (k : Key) (rs : Records) (r : Key * JsValue) :
  In r (records_remove k rs) -> In r rs.
Proof.
  induction rs as [|[k' v'] rs IH]; [intros []|]. cbn.
  destruct (key_compare k k'); cbn; intuition.
Qed.

Lemma records_insert_sorted (k : Key) (v : JsValue) (rs : Records) :
  records_sorted rs = true -> records_sorted (records_insert k v rs) = true.
Proof.
  induction rs as [|[k0 v0] rs IH]; [reflexivity|].
  intros Hs. pose proof Hs as Hs'. apply records_sorted_cons in Hs' as [Hlt Hrest].
  cbn [records_insert]. destruct (key_compare k k0) eqn:E.
  - apply key_compare_eq in E as ->. apply records_sorted_cons. auto.
  - apply records_sorted_cons. split; [|exact Hs].
    intros r [<-|Hin]; [exact E|].
    eapply key_compare_trans; [exact E|]. apply Hlt. exact Hin.
  - apply records_sorted_cons. split; [|apply IH; exact Hrest].
    intros r Hin. apply records_insert_In in Hin as [->|Hin]; [|apply Hlt; exact Hin].
    cbn. rewrite key_compare_antisym, E. reflexivity.
Qed.

Lemma records_remove_sorted (k : Key) (rs : Records) :
  records_sorted rs = true -> records_sorted (records_remove k rs) = true.
Proof.
  induction rs as [|[k0 v0] rs IH]; [reflexivity|].
  intros Hs. apply records_sorted_cons in Hs as [Hlt Hrest].
  cbn [records_remove].
  destruct (key_compare k k0); [apply IH; exact Hrest| |];
    (apply records_sorted_cons; split; [|apply IH; exact Hrest]);
    intros r Hin; apply Hlt; eapply records_remove_In; exact Hin.
Qed.

Lemma records_sorted_lookup (k : Key) (v : JsValue) (rs : Records) :
  records_sorted rs = true -> In (k, v) rs -> records_lookup k rs = Some v.
Proof.
  induction rs as [|[k0 v0] rs IH]; [intros _ []|].
  intros Hs. apply records_sorted_cons in Hs as [Hlt Hrest].
  intros [[= -> ->]|Hin]; cbn.
  - rewrite key_compare_refl. reflexivity.
  - pose proof (Hlt _ Hin) as Hk. cbn in Hk.
    rewrite key_compare_antisym, Hk. cbn. apply IH; assumption.
Qed.

Lemma records_sorted_NoDup (rs : Records) :
  records_sorted rs = true -> NoDup (map fst rs).
Proof.
  induction rs as [|[k0 v0] rs IH]; [constructor|].
  intros Hs. apply records_sorted_cons in Hs as [Hlt Hrest].
  cbn. constructor; [|apply IH; exact Hrest].
  intros Hin. apply list_elem_of_In, in_map_iff in Hin as ([k v] & Hk & Hin).
  cbn in Hk. subst k. apply Hlt in Hin. cbn in Hin.
  rewrite key_compare_refl in Hin. discriminate.
Qed.

Lemma tx_sorted_update (name : string) (os : ObjectStore) (tx : IDBTransaction) :
  tx_sorted tx -> records_sorted (os_records os) = true ->
  tx_sorted (update_store name os tx).
Proof.
  unfold tx_sorted. cbn [tx_stores update_store]. intros Htx Hos.
  apply map_Forall_insert_2; assumption.
Qed.

Lemma objectStore_sorted (name : string) (os : ObjectStore) (tx : IDBTransaction) :
  tx_sorted tx -> objectStore name tx = Returns os ->
  records_sorted (os_records os) = true.
Proof.
  unfold objectStore. intros Htx.
  destruct (tx_finished tx); [discriminate|].
  destruct (bool_decide _); [|discriminate].
  destruct (tx_stores tx !! name) as [os'|] eqn:Hl; [|discriminate].
  intros [= <-]. exact (Htx _ _ Hl).
Qed.

(** The reference engine keeps the records of every store in
    strictly increasing key order: the stores of a transaction on a newly
    created database are in order, and whatever [put] and [delete] are
    given and however they settle, the stores are in order afterwards. *)
Theorem writes_keep_key_order
    (t : IndexedDbTransaction IDBTransaction) (name : string) (key value : JsValue) :
  (forall dbname objectStores mode tx,
     transaction objectStores mode (fresh_database dbname) = Returns tx ->
     tx_sorted tx)
  /\ (tx_sorted (_transaction t) ->
      tx_sorted (_transaction (snd (put name key value t)))
      /\ tx_sorted (_transaction (snd (delete name key t)))).
Proof.
  split.
  { intros dbname objectStores mode tx Htx.
    apply transaction_started in Htx as (-> & _).
    unfold tx_sorted. cbn [tx_stores].
    apply (bool_decide_unpack _). vm_compute. exact I. }
  intros Htx. split.
  - unfold put.
    assert (Hput : forall k,
               tx_sorted (snd (ref_store_put name value k (_transaction t)))).
    { intros k. unfold ref_store_put.
      destruct (objectStore name (_transaction t)) as [os|e] eqn:Hos; [|exact Htx].
      destruct (tx_mode (_transaction t)); [exact Htx|].
      destruct (resolve_key os value k) as [k' stored gen| |]; [|exact Htx..].
      destruct (violates_unique os k' stored); [exact Htx|].
      cbn [snd]. apply tx_sorted_update; [exact Htx|].
      cbn [os_records with_records]. apply records_insert_sorted.
      eapply objectStore_sorted; eassumption. }
    cbn [store_put reference_engine].
    destruct (truthy key).
    + specialize (Hput (Some key)). destruct (ref_store_put _ _ _ _). exact Hput.
    + specialize (Hput None). destruct (ref_store_put _ _ _ _). exact Hput.
  - unfold delete. cbn [store_delete reference_engine]. unfold ref_store_delete.
    destruct (objectStore name (_transaction t)) as [os|e] eqn:Hos; [|exact Htx].
    destruct (tx_mode (_transaction t)); [exact Htx|].
    destruct (to_key key) as [k|]; [|exact Htx].
    cbn [snd _transaction with_transaction]. apply tx_sorted_update; [exact Htx|].
    cbn [os_records with_records]. apply records_remove_sorted.
    eapply objectStore_sorted; eassumption.
Qed.

Lemma of_key_to_key (key : JsValue) (k : Key) : to_key key = Some k -> of_key k = key.
Proof. destruct key; try discriminate; intros [= <-]; reflexivity. Qed.

Lemma to_key_of_key (k : Key) : to_key (of_key k) = Some k.
Proof. destruct k; reflexivity. Qed.

Lemma NoDup_map_of_key (ks : list Key) : NoDup ks -> NoDup (map of_key ks).
Proof.
  induction ks as [|k ks IH]; [constructor|].
  intros [Hnotin Hnd]%NoDup_cons. cbn. apply NoDup_cons. split; [|apply IH; exact Hnd].
  intros Hin. apply list_elem_of_In, in_map_iff in Hin as (k' & Hk & Hin).
  apply (f_equal to_key) in Hk. rewrite !to_key_of_key in Hk.
  injection Hk as ->. apply Hnotin, list_elem_of_In. exact Hin.
Qed.

(** X19: on the reference engine, for a store of a running transaction
    whose records are in key order, [getAll] resolves with a list in
    which no key occurs twice, every pair it lists is what [get] returns
    for that key, and every key for which [get] returns a value other
    than [undefined] is listed with that value. *)
Theorem getAll_agrees_with_get
    (t : IndexedDbTransaction IDBTransaction) (name : string) (os : ObjectStore) :
  objectStore name (_transaction t) = Returns os ->
  tx_sorted (_transaction t) ->
  exists l,
    getAll name t = (Fulfilled l, t)
    /\ NoDup (map fst l)
    /\ (forall key v, In (key, v) l -> get name key None t = (Fulfilled v, t))
    /\ (forall key k v,
          to_key key = Some k ->
          fst (get name key None t) = Fulfilled v -> v <> JsUndefined ->
          In (key, v) l).
Proof.
  intros Hos Htx.
  pose proof (objectStore_sorted _ _ _ Htx Hos) as Hsorted.
  exists (map (fun r : Key * JsValue => (of_key (fst r), snd r)) (os_records os)).
  split.
  { unfold getAll. cbn [store_openCursor reference_engine].
    unfold ref_store_openCursor. rewrite Hos. rewrite with_transaction_same.
    f_equal.
    replace (map (fun r : Key * JsValue => ReqSuccess (Some (of_key (fst r), snd r)))
               (os_records os))
      with (cursor_events
              (map (fun r : Key * JsValue => (of_key (fst r), snd r)) (os_records os)))
      by (unfold cursor_events; rewrite map_map; reflexivity).
    apply (getAll_collects_cursor name). }
  split.
  { rewrite map_map. cbn [fst].
    rewrite <- (map_map fst of_key).
    apply NoDup_map_of_key, records_sorted_NoDup. exact Hsorted. }
  split.
  { intros key v Hin. apply in_map_iff in Hin as ([k v'] & [= <- <-] & Hin).
    unfold get. cbn [index_given store_get reference_engine].
    unfold ref_store_get. rewrite Hos, to_key_of_key.
    rewrite (records_sorted_lookup _ _ _ Hsorted Hin), with_transaction_same.
    reflexivity. }
  intros key k v Hk Hget Hdef. unfold get in Hget.
  cbn [index_given store_get reference_engine fst] in Hget.
  unfold ref_store_get in Hget. rewrite Hos, Hk in Hget. cbn in Hget.
  destruct (records_lookup k (os_records os)) as [v'|] eqn:Hl; cbn in Hget;
    [|congruence].
  injection Hget as ->. apply records_lookup_In in Hl.
  apply in_map_iff. exists (k, v). split; [|exact Hl].
  cbn. rewrite (of_key_to_key _ _ Hk). reflexivity.
Qed.

End KeyOrder.

(** ** More statements on sample values *)

Section FurtherSamples.
Import AutoLauncherLinux IndexedDbTransaction.

(** On the reference file system [isAutoLaunchEnabled] resolves with
    [true] exactly when the desktop file exists, can be
    read and written by the process and the disk is not read-only, so an
    entry the process cannot rewrite counts as disabled. *)
Theorem isAutoLaunchEnabled_needs_read_write (pf : Platform) (d : Disk) :
  isAutoLaunchEnabled (H := platform_disk pf) pf d =
  Resolves
    match files d !! linuxDesktopPath pf with
    | Some file => readable file && writable file && negb (read_only d)
    | None => false
    end.
Proof.
  unfold isAutoLaunchEnabled. cbn [fs_access platform_disk disk_fs].
  unfold disk_access. change (Z.lor (Z.lor F_OK W_OK) R_OK) with 6.
  change (Z.testbit 6 2) with true. change (Z.testbit 6 1) with true.
  destruct (files d !! linuxDesktopPath pf) as [file|]; [|reflexivity].
  destruct (readable file), (writable file), (read_only d); reflexivity.
Qed.

Lemma disableAutoLaunch_rethrows_all_but_ENOENT_witness :
  fst (disableAutoLaunch (H := platform_disk (sample_platform None))
         (sample_platform None) (disk_with_entry false)) = Resolves tt
  /\ fst (disableAutoLaunch (H := platform_disk (sample_platform None))
            (sample_platform None) empty_disk) = Resolves tt
  /\ fst (disableAutoLaunch (H := platform_disk (sample_platform None))
            (sample_platform None) (disk_with_entry true))
     = RejectsWith (fsError "EROFS" "unlink").
Proof.
  split.
  { refine (proj1 (disableAutoLaunch_rethrows_all_but_ENOENT
                     (H := platform_disk (sample_platform None))
                     (sample_platform None) (disk_with_entry false)) _).
    vm_compute. reflexivity. }
  split.
  { refine (proj1 (proj2 (disableAutoLaunch_rethrows_all_but_ENOENT
                            (H := platform_disk (sample_platform None))
                            (sample_platform None) empty_disk))
              (fsError "ENOENT" "unlink") _ _);
      vm_compute; reflexivity. }
  refine (proj1 (proj2 (proj2 (disableAutoLaunch_rethrows_all_but_ENOENT
                                 (H := platform_disk (sample_platform None))
                                 (sample_platform None) (disk_with_entry true))))
            (fsError "EROFS" "unlink") _ _).
  - vm_compute. reflexivity.
  - vm_compute. discriminate.
Defined.

Lemma disableAutoLaunch_idempotent_witness :
  disableAutoLaunch (H := platform_disk (sample_platform None))
    (sample_platform None) empty_disk = (Resolves tt, empty_disk)
  /\ exists d',
       disableAutoLaunch (H := platform_disk (sample_platform None))
         (sample_platform None) (disk_with_entry false) = (Resolves tt, d')
       /\ isAutoLaunchEnabled (H := platform_disk (sample_platform None))
            (sample_platform None) d' = Resolves false.
Proof.
  pose proof (disableAutoLaunch_idempotent (sample_platform None) empty_disk)
    as [Habsent _].
  pose proof (disableAutoLaunch_idempotent (sample_platform None) (disk_with_entry false))
    as [_ Hpresent].
  split; [apply Habsent; vm_compute; reflexivity|].
  destruct Hpresent as (d' & Hrun & _ & _ & Hoff & _).
  - vm_compute. eauto.
  - reflexivity.
  - exists d'. split; [exact Hrun|exact Hoff].
Defined.

Lemma enableAutoLaunch_enables_witness :
  exists d',
    enableAutoLaunch (H := platform_disk (sample_platform None))
      (sample_platform None) empty_disk = (Resolves tt, d')
    /\ isAutoLaunchEnabled (H := platform_disk (sample_platform None))
         (sample_platform None) d' = Resolves true.
Proof.
  destruct (enableAutoLaunch_enables (sample_platform None) empty_disk)
    as (d' & Hrun & _ & _ & Hon).
  - reflexivity.
  - vm_compute. exact I.
  - exists d'. split; [exact Hrun|exact Hon].
Defined.

Lemma enableAutoLaunch_failure_keeps_files_witness :
  fst (enableAutoLaunch (H := platform_disk (sample_platform None))
         (sample_platform None)
         {| files := ∅; dirs := ∅; read_only := true |})
    = RejectsWith (fsError "EROFS" "mkdir")
  /\ files (snd (enableAutoLaunch (H := platform_disk (sample_platform None))
                   (sample_platform None)
                   {| files := ∅; dirs := ∅; read_only := true |})) = ∅.
Proof.
  split; [vm_compute; reflexivity|].
  refine (enableAutoLaunch_failure_keeps_files (sample_platform None)
            {| files := ∅; dirs := ∅; read_only := true |}
            (fsError "EROFS" "mkdir") _).
  vm_compute. reflexivity.
Defined.

Lemma enable_then_disable_witness :
  exists d1 d2,
    enableAutoLaunch (H := platform_disk (sample_platform None))
      (sample_platform None) empty_disk = (Resolves tt, d1)
    /\ disableAutoLaunch (H := platform_disk (sample_platform None))
         (sample_platform None) d1 = (Resolves tt, d2)
    /\ files d2 = ∅.
Proof.
  destruct (enable_then_disable (sample_platform None) empty_disk)
    as (d1 & d2 & Hon & Hoff & Hfiles & _).
  - reflexivity.
  - vm_compute. reflexivity.
  - exists d1, d2. split; [exact Hon|]. split; [exact Hoff|exact Hfiles].
Defined.

Lemma desktopEntry_exec_line_witness :
  let pf := sample_platform (Some "/tmp/tutanota.AppImage") in
  exists file,
    files (snd (enableAutoLaunch (H := platform_disk pf) pf empty_disk))
      !! linuxDesktopPath pf = Some file
    /\ contains (tab +:+ "Exec=/tmp/tutanota.AppImage -a" +:+ nl) (content file).
Proof.
  cbn zeta.
  destruct (desktopEntry_exec_line (sample_platform (Some "/tmp/tutanota.AppImage"))
              empty_disk
              (snd (enableAutoLaunch
                      (H := platform_disk (sample_platform (Some "/tmp/tutanota.AppImage")))
                      (sample_platform (Some "/tmp/tutanota.AppImage")) empty_disk)))
    as (file & Hfile & Happimage & _).
  - vm_compute. reflexivity.
  - exists file. split; [exact Hfile|].
    apply (Happimage "/tmp/tutanota.AppImage" eq_refl). discriminate.
Defined.

End FurtherSamples.

Section TransactionSamples.
Import IndexedDbTransaction.

Lemma delete_then_get_absent_witness :
  exists t1,
    delete ElementDataOS (JsString "k1")
      (constructor (sample_transaction ReadWrite)) = (Fulfilled tt, t1)
    /\ get ElementDataOS (JsString "k1") None t1 = (Fulfilled JsUndefined, t1).
Proof.
  destruct (delete_then_get_absent (constructor (sample_transaction ReadWrite))
              ElementDataOS (new_store no_options) (JsString "k1") (KStr "k1"))
    as (t1 & Hdel & Hget & _).
  - vm_compute. reflexivity.
  - reflexivity.
  - reflexivity.
  - exists t1. split; [exact Hdel|exact Hget].
Defined.

Lemma readOnly_transaction_never_writes_witness :
  exists t,
    (exists d,
       put ElementDataOS (JsString "k1") (JsNumber 1) t = (Rejected (RejDbError d), t)
       /\ error d = Some (NatError ReadOnlyError))
    /\ put ElementDataOS (JsString "k1") unprintable t
       = (Rejected (RejNative (NatError TypeError)), t).
Proof.
  eassert (Hcreate :
    DbFacade.createTransaction true [ElementDataOS] (Fulfilled sample_database)
      empty_system = (Fulfilled 0%nat, _)) by (vm_compute; reflexivity).
  destruct (readOnly_transaction_never_writes _ _ _ _ _ Hcreate) as (t & _ & Hw).
  exists t. split.
  - destruct (proj1 (Hw ElementDataOS (JsString "k1") (JsNumber 1)))
      as (r & Hput & Hdb & _).
    destruct (Hdb eq_refl eq_refl) as (d & -> & Hcause).
    exists d. split; [exact Hput|]. apply Hcause.
    apply elem_of_cons. left. reflexivity.
  - destruct (proj1 (Hw ElementDataOS (JsString "k1") unprintable))
      as (r & Hput & _ & Hnative).
    rewrite (Hnative eq_refl TypeError eq_refl) in Hput. exact Hput.
Defined.

Lemma abort_finishes_transaction_witness :
  exists t1 d,
    abort (constructor (sample_transaction ReadWrite)) = (Returns tt, t1)
    /\ aborted t1 = true
    /\ put ElementDataOS (JsString "k1") (JsNumber 1) t1 = (Rejected (RejDbError d), t1)
    /\ error d = Some (NatError InvalidStateError)
    /\ abort t1 = (Throws InvalidStateError, t1).
Proof.
  destruct (abort_finishes_transaction (constructor (sample_transaction ReadWrite))
              eq_refl) as (t1 & Hab & Hflag & _ & Hops & Hagain).
  destruct (Hops ElementDataOS (JsString "k1") (JsNumber 1) None)
    as (_ & _ & (r & Hput & Hdb & _) & _).
  destruct (Hdb eq_refl eq_refl) as (d & -> & Hcause).
  exists t1, d. split; [exact Hab|]. split; [exact Hflag|].
  split; [exact Hput|]. split; [exact Hcause|exact Hagain].
Defined.

Lemma deleteDatabase_waits_for_transactions_witness :
  DbFacade.deleteDatabase [] [DeleteSuccess]
    (DbFacade.facade
       (DbFacade.run [DbFacade.Create (Returns (sample_transaction ReadWrite))]
          empty_system))
  = ([Delay 150], Pending,
     DbFacade.facade
       (DbFacade.run [DbFacade.Create (Returns (sample_transaction ReadWrite))]
          empty_system))
  /\ fst (fst (DbFacade.deleteDatabase [] [DeleteSuccess]
                 (DbFacade.facade
                    (DbFacade.run
                       [DbFacade.Create (Returns (sample_transaction ReadWrite));
                        DbFacade.Fire 0 TxComplete]
                       empty_system))))
     = [CallClose "db1"; CallDeleteDatabase "db1"].
Proof.
  split.
  - refine (proj2 (proj2 (deleteDatabase_waits_for_transactions (T := IDBTransaction)
                            true true (Some "db1") sample_database
                            [DbFacade.Create (Returns (sample_transaction ReadWrite))]
                            [DeleteSuccess])) _).
    intros Hall. inversion Hall as [|? ? Hs _]. discriminate Hs.
  - refine (proj1 (proj2 (deleteDatabase_waits_for_transactions (T := IDBTransaction)
                            true true (Some "db1") sample_database
                            [DbFacade.Create (Returns (sample_transaction ReadWrite));
                             DbFacade.Fire 0 TxComplete]
                            [DeleteSuccess])) _).
    repeat constructor.
Defined.

Lemma unsupported_never_opens_witness :
  exists f',
    DbFacade.open "db1" (OpenPlaced empty_database [OpenSuccess])
      (DbFacade.constructor false true)
    = (Rejected (RejDbError (newDbError "indexedDB not supported" None)), [], f')
    /\ DbFacade.deleteDatabase [] [DeleteSuccess] f' = ([], Fulfilled tt, f').
Proof.
  destruct (unsupported_never_opens (DbFacade.constructor false true) "db1"
              (OpenPlaced empty_database [OpenSuccess]) eq_refl eq_refl)
    as (f' & Hopen & _ & _ & Hdel).
  exists f'. split; [exact Hopen|apply Hdel].
Defined.

Lemma open_errors_name_the_database_witness :
  exists d,
    fst (fst (DbFacade.open "db1" (OpenThrew InvalidStateError)
                (DbFacade.constructor true true)))
    = Rejected (RejDbError d)
    /\ contains "db1" (message d).
Proof.
  destruct (proj2 (open_errors_name_the_database (DbFacade.constructor true true) "db1"
                     eq_refl eq_refl) InvalidStateError) as (d & Hopen & Hmsg & _).
  exists d. split; [exact Hopen|exact Hmsg].
Defined.

Lemma failed_delete_leaves_closed_connection_witness :
  exists f',
    snd (DbFacade.deleteDatabase [] [DeleteError (error_event sample_error)]
           (loaded_facade 0)) = f'
    /\ LazyLoaded.isLoaded (_db f') = true
    /\ fst (DbFacade.createTransaction false [ElementDataOS]
              (LazyLoaded.outcome (_db f')) empty_system)
       = Rejected (RejDbError (newDbError "could not create transaction"
                                 (Some (NatError InvalidStateError)))).
Proof.
  destruct (failed_delete_leaves_closed_connection (loaded_facade 0) sample_database
              (error_event sample_error) eq_refl ltac:(cbn; lia))
    as (f' & Hrun & _ & Hloaded & Hcreate).
  exists f'. split; [rewrite Hrun; reflexivity|]. split; [exact Hloaded|].
  rewrite Hcreate. reflexivity.
Defined.

Lemma open_then_createTransaction_witness :
  exists log f' s',
    DbFacade.open "db1" (OpenPlaced sample_database [OpenUpgradeNeeded 2; OpenSuccess])
      (DbFacade.constructor true true) = (Fulfilled tt, log, f')
    /\ DbFacade.createTransaction false [ElementDataOS; MetaDataOS]
         (LazyLoaded.outcome (_db f')) empty_system = (Fulfilled 0%nat, s').
Proof.
  destruct (open_then_createTransaction (DbFacade.constructor true true) "db1"
              sample_database 2 eq_refl eq_refl eq_refl
              ltac:(discriminate) ltac:(discriminate))
    as (log & f' & db' & Hopen & _ & Hcreate).
  destruct (Hcreate false [ElementDataOS; MetaDataOS] empty_system
              ltac:(discriminate)) as (s' & Hrun & _).
  { intros name Hin. unfold DbFacade.known_stores.
    repeat (apply elem_of_cons in Hin as [->|Hin]; [rewrite !elem_of_cons; auto 10|]).
    apply elem_of_nil in Hin. destruct Hin. }
  exists log, f', s'. split; [exact Hopen|exact Hrun].
Defined.

Lemma put_without_key_never_overwrites_witness :
  exists t1,
    put SearchIndexOS JsNull (JsString "v")
      (constructor (transaction_on [SearchIndexOS] ReadWrite))
    = (Fulfilled (JsNumber 1), t1)
    /\ get SearchIndexOS (JsNumber 1) None t1 = (Fulfilled (JsString "v"), t1).
Proof.
  destruct (put_without_key_never_overwrites
              (constructor (transaction_on [SearchIndexOS] ReadWrite)) SearchIndexOS
              (new_store {| autoIncrement := true; keyPath := None |})
              JsNull (JsString "v")) as [Hnext _];
    try (vm_compute; reflexivity).
  destruct Hnext as (t1 & os1 & Hput & _ & Hget & _).
  - vm_compute. discriminate.
  - reflexivity.
  - exists t1. split; [exact Hput|exact Hget].
Defined.

Lemma put_on_keyPath_store_witness :
  (exists d,
     put SearchIndexMetaDataOS (JsNumber 5) (JsObject [("word", JsString "hello")])
       (constructor (sample_transaction ReadWrite))
     = (Rejected (RejDbError d), constructor (sample_transaction ReadWrite))
     /\ error d = Some (NatError DataError))
  /\ (exists t1,
        put SearchIndexMetaDataOS JsNull (JsObject [("word", JsString "hello")])
          (constructor (sample_transaction ReadWrite))
        = (Fulfilled (JsNumber 1), t1)
        /\ get SearchIndexMetaDataOS (JsNumber 1) None t1
           = (Fulfilled (JsObject [("word", JsString "hello"); ("id", JsNumber 1)]), t1)).
Proof.
  assert (Hos : objectStore SearchIndexMetaDataOS
                  (_transaction (constructor (sample_transaction ReadWrite)))
                = Returns
                    {| os_keyPath := Some "id";
                       os_autoIncrement := true;
                       os_generator := 1;
                       os_records := [];
                       os_indexes :=
                         {[ SearchIndexWordsIndex :=
                              {| ix_keyPath := "word"; ix_unique := true |} ]} |})
    by (vm_compute; reflexivity).
  split.
  - destruct (proj1 (put_on_keyPath_store _ SearchIndexMetaDataOS "id" _ (JsNumber 5)
                       [("word", JsString "hello")] Hos eq_refl eq_refl eq_refl) eq_refl)
      as (r & Hput & Hdb & _).
    destruct (Hdb eq_refl eq_refl) as (d & -> & Hcause).
    exists d. split; [exact Hput|exact Hcause].
  - destruct (proj1 (proj2 (put_on_keyPath_store _ SearchIndexMetaDataOS "id" _ JsNull
                              [("word", JsString "hello")] Hos eq_refl eq_refl eq_refl))
                eq_refl eq_refl) as (t1 & Hput & Hget & _).
    + vm_compute. discriminate.
    + reflexivity.
    + exists t1. split; [exact Hput|exact Hget].
Defined.

Lemma writes_keep_key_order_witness :
  tx_sorted (sample_transaction ReadWrite)
  /\ tx_sorted
       (_transaction
          (snd (put ElementDataOS (JsString "k1") (JsNumber 1)
                  (constructor (sample_transaction ReadWrite))))).
Proof.
  pose proof (writes_keep_key_order (constructor (sample_transaction ReadWrite))
                ElementDataOS (JsString "k1") (JsNumber 1)) as [Hfresh Hkeep].
  assert (Hs : tx_sorted (sample_transaction ReadWrite)).
  { apply (Hfresh "db1" [ElementDataOS; SearchIndexMetaDataOS] ReadWrite).
    vm_compute. reflexivity. }
  split; [exact Hs|]. apply Hkeep. exact Hs.
Defined.

Lemma getAll_agrees_with_get_witness :
  let t1 :=
    snd (put ElementDataOS (JsString "k1") (JsNumber 1)
           (constructor (sample_transaction ReadWrite))) in
  exists l,
    getAll ElementDataOS t1 = (Fulfilled l, t1)
    /\ NoDup (map fst l)
    /\ (In (JsString "k1", JsNumber 1) l ->
        get ElementDataOS (JsString "k1") None t1 = (Fulfilled (JsNumber 1), t1)).
Proof.
  cbn zeta.
  eassert (Hos : objectStore ElementDataOS
                   (_transaction
                      (snd (put ElementDataOS (JsString "k1") (JsNumber 1)
                              (constructor (sample_transaction ReadWrite)))))
                 = Returns _) by (vm_compute; reflexivity).
  destruct (getAll_agrees_with_get _ ElementDataOS _ Hos) as (l & Hall & Hnd & Hin & _).
  - apply (bool_decide_unpack _). vm_compute. exact I.
  - exists l. split; [exact Hall|]. split; [exact Hnd|]. apply Hin.
Defined.

End TransactionSamples.
